(** * autodnsip: reconciliation of proxy hostnames with DNS A records

    A shallow embedding of [src/autodnsip.py].  The script talks to three
    remote services (the proxy manager, the public-IP service and the DNS
    provider), prints log lines and keeps three files.  The embedding makes
    these effects explicit: a computation receives the files and the events
    that happened so far, and returns a result (a value or a raised
    exception), the files it leaves behind and the events it emitted.  The
    remote services are an oracle that answers each request from the history
    of events, so every theorem holds for every behaviour of the services. *)

From Stdlib Require Import ZArith Ascii String.
From stdpp Require Import base decidable option list strings gmap fin_maps.

Local Open Scope string_scope.
Local Open Scope list_scope.

(** ** Python strings *)

Module PyStr.

(** [s.endswith(suffix)] *)
Fixpoint endswith (s suffix : string) : bool :=
  if String.eqb s suffix then true
  else match s with
       | EmptyString => false
       | String _ s' => endswith s' suffix
       end.

(** [str.isspace] on one ASCII character: tab, line feed, vertical tab,
    form feed, carriage return, the four separators 28..31 and the space.
    On ASCII text (see [ascii_text] below) these are all the characters
    [str.strip] removes; on other text Python strips more (the next-line
    character, the no-break space, the line and paragraph separators, ...),
    so the properties that depend on what a read-back strips are stated for
    ASCII text. *)
Definition is_space (c : ascii) : bool :=
  let n := nat_of_ascii c in
  ((9 <=? n)%nat && (n <=? 13)%nat) || ((28 <=? n)%nat && (n <=? 32)%nat).

Fixpoint lstrip (s : string) : string :=
  match s with
  | EmptyString => EmptyString
  | String c s' => if is_space c then lstrip s' else s
  end.

Fixpoint rstrip (s : string) : string :=
  match s with
  | EmptyString => EmptyString
  | String c s' =>
      let r := rstrip s' in
      if is_space c && String.eqb r EmptyString then EmptyString
      else String c r
  end.

(** [s.strip()] *)
Definition strip (s : string) : string := rstrip (lstrip s).

Definition is_newline (c : ascii) : bool :=
  Ascii.eqb c "010"%char || Ascii.eqb c "013"%char.

(** The lines of a text file opened in text mode: the text is cut at every
    line feed and carriage return.  (Universal newlines turn a carriage
    return followed by a line feed into one break; cutting at both yields
    one more empty line, and the only reader of lines in the script drops
    empty lines.)  The text after the last break is a line when it is not
    empty. *)
Fixpoint lines_from (cur : string) (s : string) : list string :=
  match s with
  | EmptyString => if String.eqb cur EmptyString then [] else [cur]
  | String c s' =>
      if is_newline c then cur :: lines_from EmptyString s'
      else lines_from (cur +:+ String c EmptyString) s'
  end.

Definition lines (s : string) : list string := lines_from EmptyString s.

Definition lower_ascii (c : ascii) : ascii :=
  let n := nat_of_ascii c in
  if (65 <=? n)%nat && (n <=? 90)%nat then ascii_of_nat (n + 32) else c.

(** [s.lower()] on ASCII text *)
Fixpoint lower (s : string) : string :=
  match s with
  | EmptyString => EmptyString
  | String c s' => String (lower_ascii c) (lower s')
  end.

(** No whitespace character at all: what host names and IP addresses are. *)
Fixpoint no_space (s : string) : bool :=
  match s with
  | EmptyString => true
  | String c s' => negb (is_space c) && no_space s'
  end.

(** Python truthiness of a string *)
Definition truthy (s : string) : bool := negb (String.eqb s EmptyString).

(** [s.isascii()]: every character has a code below 128. *)
Fixpoint ascii_text (s : string) : bool :=
  match s with
  | EmptyString => true
  | String c s' => (nat_of_ascii c <? 128)%nat && ascii_text s'
  end.

End PyStr.

(** ** Configuration ([config.py]) *)

(** The credentials the script reads from one entry of [CLOUDFLARE_CONFIG]. *)
Record cf_config := CfConfig {
  ZONE_ID : string;
  API_TOKEN : string
}.

(** [config.py] is not part of the sources; its four values are taken as
    they are.  [CLOUDFLARE_CONFIG] is a dict literal: its entries in
    insertion order, which is the order a [for] loop visits the keys. *)
Record config := Config {
  NPM_API_URL : string;
  NPM_API_USER : string;
  NPM_API_PASS : string;
  CLOUDFLARE_CONFIG : list (string * cf_config)
}.

(** [d[key]] on a dict given by its entries *)
Fixpoint dict_get {V} (d : list (string * V)) (key : string) : option V :=
  match d with
  | [] => None
  | (k, v) :: d' => if String.eqb k key then Some v else dict_get d' key
  end.

(** The loop of [get_cf_config_for_domain] over the keys still to visit;
    the subscript reads the whole dict. *)
Fixpoint find_root {V} (whole : list (string * V)) (keys : list string)
    (domain : string) : option V :=
  match keys with
  | [] => None
  | root :: keys' =>
      if PyStr.endswith domain root then dict_get whole root
      else find_root whole keys' domain
  end.

(** ** Remote services *)

(** The JSON body of an A record the script sends with a create or an
    update. *)
Record a_record := ARecord {
  rtype : string;
  name : string;
  content : string;
  ttl : Z;
  proxied : bool
}.

(** One element of the provider's [result] list, read with
    [record.get('content')] and [record.get('id')]. *)
Record dns_record := DnsRecord {
  rec_content : option string;
  rec_id : option string
}.

(** How an f-string renders [record.get('id')]. *)
Definition fmt_id (i : option string) : string :=
  match i with Some s => s | None => "None" end.

Inductive request :=
| NpmToken (url identity secret : string)
    (* POST {NPM_API_URL}/api/tokens *)
| NpmProxyHosts (url token : string)
    (* GET {NPM_API_URL}/api/nginx/proxy-hosts *)
| IpifyGet
    (* GET https://api.ipify.org?format=json *)
| CfList (zone token : string) (rtype domain : string)
    (* GET zones/{zone}/dns_records?type=..&name=.. *)
| CfPost (zone token : string) (data : a_record)
    (* POST zones/{zone}/dns_records *)
| CfPut (zone token : string) (record_id : string) (data : a_record)
    (* PUT zones/{zone}/dns_records/{record_id} *)
| CfDelete (zone token : string) (record_id : string).
    (* DELETE zones/{zone}/dns_records/{record_id} *)

(** A request to the DNS provider. *)
Definition is_dns_request (r : request) : bool :=
  match r with
  | CfList _ _ _ _ | CfPost _ _ _ | CfPut _ _ _ _ | CfDelete _ _ _ => true
  | _ => false
  end.

(** The JSON documents the script knows how to read.  [JOther] is any other
    JSON object with at least one key, none of them [token], [ip] or
    [result]. *)
Inductive json :=
| JToken (token : string)             (* {"token": ...} *)
| JHosts (hosts : list (list string)) (* [{"domain_names": [...]}, ...] *)
| JIp (ip : string)                   (* {"ip": ...} *)
| JResult (result : list dns_record)  (* {"result": [...]} *)
| JOther.

(** A response: its status code and its body, [None] when the body is not
    JSON. *)
Record http_response := HttpResponse {
  status_code : Z;
  body : option json
}.

Inductive exn :=
| ConnectionError | HTTPError | JSONDecodeError
| KeyError | TypeError | AttributeError | RecursionError.

(** ** Log lines, files and events *)

Inductive log_line :=
| LogIpError (e : exn)
| LogSkipping (domain : string)
| LogRecordExists (domain : string)
| LogCreated (domain ip : string)
| LogCreateFailed (domain : string) (status : Z)
| LogNoRecordToUpdate (domain : string)
| LogUpdated (domain ip : string)
| LogUpdateFailed (domain : string) (status : Z)
| LogAlreadyCorrect (domain ip : string)
| LogNoRecord (domain : string)
| LogDeleted (domain : string)
| LogDeleteFailed (domain : string) (status : Z)
| LogDetails (detail : json)
| LogAborting
| LogDomainChanges (created deleted : nat)
| LogNewDomains (created : list string)
| LogRemovedDomains (deleted : list string)
| LogIpChange (old new : string)
| LogInitialIp (ip : string)
| LogNoChanges
| LogNewDomain (domain ip : string)
| LogCreationError (domain : string) (e : exn)
| LogUpdating (domain ip : string)
| LogForced (domain ip : string)
| LogUpdateError (domain : string) (e : exn)
| LogNoChangesNeeded (domain : string)
| LogDeleting (domain : string)
| LogDeletionError (domain : string) (e : exn).

(** What [domain_ips.json] holds: text [json.load] rejects, or a JSON object
    from host name to IP ([json.dump] followed by [json.load] gives back such
    a dict unchanged; it is what the script itself writes).  A file that
    holds valid JSON of another kind (a number, [null], a list, a string)
    is not covered: [json.load] accepts it, and the membership tests of
    lines 234 and 265, which are outside any [try], then raise [TypeError]
    for a value that is no container.  Every property of a run that reads
    this file is a property of runs on the files covered here. *)
Inductive ips_file :=
| Garbage
| Mapping (m : gmap string string).

(** The three stores; [None] is a file that does not exist. *)
Record files := Files {
  hosts_filename : option string;
  domain_ips_file : option ips_file;
  last_ip_file : option string
}.

Inductive event :=
| Request (r : request)
| Print (l : log_line)
| WriteHosts (text : string)
| WriteDomainIps (m : gmap string string)
| WriteLastIp (text : string).

Definition is_write (e : event) : bool :=
  match e with
  | WriteHosts _ | WriteDomainIps _ | WriteLastIp _ => true
  | _ => false
  end.

Definition is_dns_call (e : event) : bool :=
  match e with
  | Request r => is_dns_request r
  | _ => false
  end.

(** The services: the answer to a request, given everything that happened
    before it; [None] is a request that gets no response
    ([requests] raises [ConnectionError]). *)
Definition oracle := list event -> request -> option http_response.

(** ** The monad of the script *)

Inductive result (A : Type) :=
| Ok (a : A)
| Raise (e : exn).
Arguments Ok {A} a.
Arguments Raise {A} e.

(** A computation: from the files and the past events to a result, the
    files afterwards and the events emitted. *)
Definition M (A : Type) : Type :=
  files -> list event -> result A * files * list event.

Definition ret {A} (a : A) : M A := fun fs _ => (Ok a, fs, []).

Definition raise {A} (e : exn) : M A := fun fs _ => (Raise e, fs, []).

Definition bind {A B} (m : M A) (k : A -> M B) : M B :=
  fun fs past =>
    let '(r, fs1, ev1) := m fs past in
    match r with
    | Ok a =>
        let '(r2, fs2, ev2) := k a fs1 (past ++ ev1) in
        (r2, fs2, ev1 ++ ev2)
    | Raise e => (Raise e, fs1, ev1)
    end.

(** [try: m  except <the exceptions [sel] selects> as e: handler e] *)
Definition try_except {A} (m : M A) (sel : exn -> bool) (handler : exn -> M A)
    : M A :=
  fun fs past =>
    let '(r, fs1, ev1) := m fs past in
    match r with
    | Ok a => (Ok a, fs1, ev1)
    | Raise e =>
        if sel e then
          let '(r2, fs2, ev2) := handler e fs1 (past ++ ev1) in
          (r2, fs2, ev1 ++ ev2)
        else (Raise e, fs1, ev1)
    end.

Definition any_exception (e : exn) : bool := true.

Definition http_error (e : exn) : bool :=
  match e with HTTPError => true | _ => false end.

Declare Scope py_scope.
Delimit Scope py_scope with py.
Notation "x <- m ;; k" := (bind m (fun x => k))
  (at level 100, m at next level, k at level 200, right associativity)
  : py_scope.
Notation "m ;; k" := (bind m (fun _ => k))
  (at level 100, k at level 200, right associativity) : py_scope.
Local Open Scope py_scope.

Definition emit (e : event) : M unit := fun fs _ => (Ok tt, fs, [e]).

Definition print (l : log_line) : M unit := emit (Print l).

Definition get_files : M files := fun fs _ => (Ok fs, fs, []).

(** [when c: m] *)
Definition when (c : bool) (m : M unit) : M unit := if c then m else ret tt.

(** ** The script *)

Definition newline : string := String "010"%char EmptyString.

(** The JSON body of every create and update: lines 91-97 and 123-129. *)
Definition a_record_for (domain ip : string) : a_record :=
  {| rtype := "A"; name := domain; content := ip;
     ttl := 3600%Z; proxied := true |}.

Section Script.

(** The configuration, the services and the recursion limit of the
    interpreter: the number of nested calls of [create_cloudflare_a_record]
    and [update_cloudflare_a_record] it allows.  The two functions call
    each other for as long as the provider's lookups contradict each other;
    Python ends such a chain with [RecursionError], an [Exception] like any
    other, which the handlers of [main] catch. *)
Context (cfg : config) (answer : oracle) (recursion_limit : nat).

(** [requests.get], [requests.post], [requests.put], [requests.delete] *)
Definition http (r : request) : M http_response :=
  fun fs past =>
    match answer past r with
    | Some response => (Ok response, fs, [Request r])
    | None => (Raise ConnectionError, fs, [Request r])
    end.

(** [response.raise_for_status()] *)
Definition raise_for_status (response : http_response) : M unit :=
  if ((400 <=? status_code response) && (status_code response <? 600))%Z
  then raise HTTPError else ret tt.

(** [response.json()] *)
Definition response_json (response : http_response) : M json :=
  match body response with
  | Some j => ret j
  | None => raise JSONDecodeError
  end.

(** [j[key]] for the key that [want] reads *)
Definition subscript {A} (want : json -> option A) (j : json) : M A :=
  match want j, j with
  | Some a, _ => ret a
  | None, JHosts _ => raise TypeError
  | None, _ => raise KeyError
  end.

Definition get_npm_token : M string :=
  response <- http (NpmToken (NPM_API_URL cfg) (NPM_API_USER cfg)
                             (NPM_API_PASS cfg));;
  raise_for_status response;;
  j <- response_json response;;
  subscript (fun j => match j with JToken t => Some t | _ => None end) j.

Definition get_proxy_hosts (token : string) : M json :=
  response <- http (NpmProxyHosts (NPM_API_URL cfg) token);;
  raise_for_status response;;
  response_json response.

(** Line 175: [{domain for host in proxy_hosts
                 for domain in host['domain_names']}].  The set is kept as
    the list of its elements in the order the loops of [main] visit them. *)
Definition domain_names (proxy_hosts : json) : M (list string) :=
  match proxy_hosts with
  | JHosts hosts => ret (remove_dups (concat hosts))
  | _ => raise TypeError
  end.

(** [for host in current_hosts: f.write(host + "\n")] *)
Fixpoint host_file_text (current_hosts : list string) : string :=
  match current_hosts with
  | [] => EmptyString
  | host :: rest => (host +:+ newline) +:+ host_file_text rest
  end.

Definition update_host_file (current_hosts : list string) : M unit :=
  fun fs _ =>
    let text := host_file_text current_hosts in
    (Ok tt,
     {| hosts_filename := Some text;
        domain_ips_file := domain_ips_file fs;
        last_ip_file := last_ip_file fs |},
     [WriteHosts text]).

Definition get_public_ip : M (option string) :=
  try_except
    (response <- http IpifyGet;;
     raise_for_status response;;
     j <- response_json response;;
     ip <- subscript (fun j => match j with JIp ip => Some ip | _ => None end) j;;
     ret (Some ip))
    any_exception
    (fun e => print (LogIpError e);; ret None).

Definition get_cf_config_for_domain (domain : string) : M (option cf_config) :=
  match find_root (CLOUDFLARE_CONFIG cfg) (CLOUDFLARE_CONFIG cfg).*1 domain with
  | Some cf_config => ret (Some cf_config)
  | None => print (LogSkipping domain);; ret None
  end.

(** [response.json().get('result', [])] *)
Definition get_result (j : json) : M (list dns_record) :=
  match j with
  | JResult results => ret results
  | JHosts _ => raise AttributeError
  | _ => ret []
  end.

(** The lookup that opens [check_cloudflare_record_exists],
    [update_cloudflare_a_record] and [delete_cloudflare_a_record]. *)
Definition list_a_records (domain : string) (cf_config : cf_config)
    : M (list dns_record) :=
  response <- http (CfList (ZONE_ID cf_config) (API_TOKEN cf_config) "A" domain);;
  raise_for_status response;;
  j <- response_json response;;
  get_result j.

Definition check_cloudflare_record_exists (domain : string)
    (cf_config : cf_config) : M bool :=
  results <- list_a_records domain cf_config;;
  ret (0 <? length results)%nat.

(** Lines 119-139: the loop of [update_cloudflare_a_record]. *)
Fixpoint update_records (domain new_ip : string) (cf_config : cf_config)
    (results : list dns_record) : M unit :=
  match results with
  | [] => ret tt
  | record :: rest =>
      (if negb (bool_decide (rec_content record = Some new_ip)) then
         update_response <-
           http (CfPut (ZONE_ID cf_config) (API_TOKEN cf_config)
                       (fmt_id (rec_id record)) (a_record_for domain new_ip));;
         try_except
           (raise_for_status update_response;;
            print (LogUpdated domain new_ip))
           http_error
           (fun _ =>
              error_detail <- response_json update_response;;
              print (LogUpdateFailed domain (status_code update_response));;
              print (LogDetails error_detail))
       else print (LogAlreadyCorrect domain new_ip));;
      update_records domain new_ip cf_config rest
  end.

(** [create_cloudflare_a_record] and [update_cloudflare_a_record] call each
    other; [depth] is the number of nested calls still allowed. *)
Fixpoint create_cloudflare_a_record (depth : nat) (domain ip : string)
    (cf_config : cf_config) {struct depth} : M unit :=
  match depth with
  | O => raise RecursionError
  | S depth' =>
      exists_ <- check_cloudflare_record_exists domain cf_config;;
      if exists_ : bool then
        print (LogRecordExists domain);;
        update_cloudflare_a_record depth' domain ip cf_config
      else
        response <-
          http (CfPost (ZONE_ID cf_config) (API_TOKEN cf_config)
                       (a_record_for domain ip));;
        try_except
          (raise_for_status response;;
           print (LogCreated domain ip))
          http_error
          (fun _ =>
             error_detail <- response_json response;;
             print (LogCreateFailed domain (status_code response));;
             print (LogDetails error_detail))
  end
with update_cloudflare_a_record (depth : nat) (domain new_ip : string)
    (cf_config : cf_config) {struct depth} : M unit :=
  match depth with
  | O => raise RecursionError
  | S depth' =>
      results <- list_a_records domain cf_config;;
      match results with
      | [] =>
          print (LogNoRecordToUpdate domain);;
          create_cloudflare_a_record depth' domain new_ip cf_config
      | _ :: _ => update_records domain new_ip cf_config results
      end
  end.

(** Lines 152-162: the loop of [delete_cloudflare_a_record]. *)
Fixpoint delete_records (domain : string) (cf_config : cf_config)
    (results : list dns_record) : M unit :=
  match results with
  | [] => ret tt
  | record :: rest =>
      del_response <-
        http (CfDelete (ZONE_ID cf_config) (API_TOKEN cf_config)
                       (fmt_id (rec_id record)));;
      try_except
        (raise_for_status del_response;;
         print (LogDeleted domain))
        http_error
        (fun _ =>
           error_detail <- response_json del_response;;
           print (LogDeleteFailed domain (status_code del_response));;
           print (LogDetails error_detail));;
      delete_records domain cf_config rest
  end.

Definition delete_cloudflare_a_record (domain : string)
    (cf_config : cf_config) : M unit :=
  results <- list_a_records domain cf_config;;
  match results with
  | [] => print (LogNoRecord domain)
  | _ :: _ => delete_records domain cf_config results
  end.

(** Lines 228-253: the body of the loop over [current_domains];
    [stored_ips] is the dict the loop updates. *)
Definition process_domain (created_domains : list string)
    (ip_changed force_update : bool) (current_public_ip : string)
    (domain : string) (stored_ips : gmap string string)
    : M (gmap string string) :=
  cf_config <- get_cf_config_for_domain domain;;
  match cf_config with
  | None => ret stored_ips
  | Some cf_config =>
      if bool_decide (domain ∈ created_domains)
         || bool_decide (stored_ips !! domain = None) then
        print (LogNewDomain domain current_public_ip);;
        try_except
          (create_cloudflare_a_record recursion_limit domain
             current_public_ip cf_config;;
           ret (<[domain := current_public_ip]> stored_ips))
          any_exception
          (fun e => print (LogCreationError domain e);; ret stored_ips)
      else if ip_changed || force_update then
        print (if ip_changed then LogUpdating domain current_public_ip
               else LogForced domain current_public_ip);;
        try_except
          (update_cloudflare_a_record recursion_limit domain
             current_public_ip cf_config;;
           ret (<[domain := current_public_ip]> stored_ips))
          any_exception
          (fun e => print (LogUpdateError domain e);; ret stored_ips)
      else
        print (LogNoChangesNeeded domain);;
        ret stored_ips
  end.

Fixpoint process_current (created_domains : list string)
    (ip_changed force_update : bool) (current_public_ip : string)
    (domains : list string) (stored_ips : gmap string string)
    : M (gmap string string) :=
  match domains with
  | [] => ret stored_ips
  | domain :: rest =>
      stored_ips <- process_domain created_domains ip_changed force_update
                      current_public_ip domain stored_ips;;
      process_current created_domains ip_changed force_update
        current_public_ip rest stored_ips
  end.

(** Lines 256-266: the body of the loop over [deleted_domains]. *)
Definition process_deleted_domain (domain : string)
    (stored_ips : gmap string string) : M (gmap string string) :=
  cf_config <- get_cf_config_for_domain domain;;
  match cf_config with
  | None => ret stored_ips
  | Some cf_config =>
      try_except
        (print (LogDeleting domain);;
         delete_cloudflare_a_record domain cf_config)
        any_exception
        (fun e => print (LogDeletionError domain e));;
      ret (delete domain stored_ips)
  end.

Fixpoint process_deleted (domains : list string)
    (stored_ips : gmap string string) : M (gmap string string) :=
  match domains with
  | [] => ret stored_ips
  | domain :: rest =>
      stored_ips <- process_deleted_domain domain stored_ips;;
      process_deleted rest stored_ips
  end.

(** [os.environ.get('FORCE_UPDATE', '').lower() in ('true', '1', 'yes')] *)
Definition force_update_of (FORCE_UPDATE : option string) : bool :=
  bool_decide (PyStr.lower (default EmptyString FORCE_UPDATE)
               ∈ ["true"; "1"; "yes"]).

(** Lines 167-170: [f.read().strip()] when the file exists. *)
Definition last_known_ip_of (fs : files) : option string :=
  PyStr.strip <$> last_ip_file fs.

Definition read_last_known_ip : M (option string) :=
  fs <- get_files;;
  ret (last_known_ip_of fs).

(** Lines 178-182: [{line.strip() for line in f if line.strip()}] when
    the file exists, the empty set otherwise. *)
Definition previous_domains_of (fs : files) : list string :=
  match hosts_filename fs with
  | Some text =>
      remove_dups
        (filter (fun line => line ≠ EmptyString)
                (PyStr.strip <$> PyStr.lines text))
  | None => []
  end.

Definition read_previous_domains : M (list string) :=
  fs <- get_files;;
  ret (previous_domains_of fs).

(** Lines 221-225: [json.load], and the empty dict when it raises. *)
Definition stored_ips_of (fs : files) : gmap string string :=
  match domain_ips_file fs with
  | Some (Mapping m) => m
  | Some Garbage | None => ∅
  end.

Definition load_stored_ips : M (gmap string string) :=
  fs <- get_files;;
  ret (stored_ips_of fs).

(** Lines 269-270 *)
Definition save_stored_ips (stored_ips : gmap string string) : M unit :=
  fun fs _ =>
    (Ok tt,
     {| hosts_filename := hosts_filename fs;
        domain_ips_file := Some (Mapping stored_ips);
        last_ip_file := last_ip_file fs |},
     [WriteDomainIps stored_ips]).

(** Lines 276-277 *)
Definition save_last_ip (current_public_ip : string) : M unit :=
  fun fs _ =>
    (Ok tt,
     {| hosts_filename := hosts_filename fs;
        domain_ips_file := domain_ips_file fs;
        last_ip_file := Some current_public_ip |},
     [WriteLastIp current_public_ip]).

(** Lines 172-175: the inventory. *)
Definition fetch_current_domains : M (list string) :=
  token <- get_npm_token;;
  proxy_hosts <- get_proxy_hosts token;;
  domain_names proxy_hosts.

(** Lines 201-213: the status lines. *)
Definition log_status (created_domains deleted_domains : list string)
    (domains_changed ip_changed : bool)
    (last_known_ip : option string) (current_public_ip : string) : M unit :=
  when domains_changed
    (print (LogDomainChanges (length created_domains)
                             (length deleted_domains));;
     when (negb (bool_decide (created_domains = [])))
       (print (LogNewDomains created_domains));;
     when (negb (bool_decide (deleted_domains = [])))
       (print (LogRemovedDomains deleted_domains)));;
  when ip_changed
    (if PyStr.truthy (default EmptyString last_known_ip)
     then print (LogIpChange (default EmptyString last_known_ip)
                             current_public_ip)
     else print (LogInitialIp current_public_ip)).

(** Lines 220-279: the update cycle, entered when something changed. *)
Definition update_cycle (current_domains created_domains deleted_domains
    : list string) (ip_changed force_update : bool)
    (current_public_ip : string) : M Z :=
  stored_ips <- load_stored_ips;;
  stored_ips <- process_current created_domains ip_changed force_update
                  current_public_ip current_domains stored_ips;;
  stored_ips <- process_deleted deleted_domains stored_ips;;
  save_stored_ips stored_ips;;
  update_host_file current_domains;;
  save_last_ip current_public_ip;;
  ret 0%Z.

(** [main]; its value is what [exit] receives. *)
Definition main (FORCE_UPDATE : option string) : M Z :=
  last_known_ip <- read_last_known_ip;;
  current_domains <- fetch_current_domains;;
  previous_domains <- read_previous_domains;;
  let created_domains := list_difference current_domains previous_domains in
  let deleted_domains := list_difference previous_domains current_domains in
  let domains_changed :=
    (0 <? length created_domains)%nat || (0 <? length deleted_domains)%nat in
  let force_update := force_update_of FORCE_UPDATE in
  current_public_ip <- get_public_ip;;
  if negb (PyStr.truthy (default EmptyString current_public_ip)) then
    print LogAborting;;
    ret 1%Z
  else
    let current_public_ip := default EmptyString current_public_ip in
    let ip_changed :=
      negb (bool_decide (last_known_ip = Some current_public_ip)) in
    log_status created_domains deleted_domains domains_changed ip_changed
      last_known_ip current_public_ip;;
    if negb domains_changed && negb ip_changed && negb force_update then
      print LogNoChanges;;
      ret 0%Z
    else
      update_cycle current_domains created_domains deleted_domains
        ip_changed force_update current_public_ip.

End Script.

(** The exit status of the process: the argument of [exit], or 1 when an
    exception leaves [main]. *)
Definition exit_status (r : result Z) : Z :=
  match r with
  | Ok code => code
  | Raise _ => 1%Z
  end.

(** The requests among a list of events, in order. *)
Definition requests_of (evs : list event) : list request :=
  omap (fun e => match e with Request r => Some r | _ => None end) evs.

(** ** The vocabulary of the properties *)

(** A well-formed host name: not empty, no whitespace. *)
Definition wf_name (h : string) : bool := PyStr.truthy h && PyStr.no_space h.

(** [m] neither reads nor writes the files: it leaves them as they are and
    its result and events are the same whatever they hold. *)
Definition oblivious {A} (m : M A) : Prop :=
  forall fs fs' past, m fs past = ((m fs' past).1.1, fs, (m fs' past).2).

(** An event that is neither a write to a store nor a call to the DNS
    provider. *)
Definition is_quiet (e : event) : bool := negb (is_write e) && negb (is_dns_call e).

(** The IP lookup gave no usable address: nothing, or the empty string. *)
Definition no_public_ip (ip : option string) : Prop :=
  ip = None \/ ip = Some EmptyString.

(** The inventory (authentication or listing) fails. *)
Definition inventory_fails (cfg : config) (answer : oracle) (fs : files)
    (past : list event) : Prop :=
  exists e, (fetch_current_domains cfg answer fs past).1.1 = Raise e.

(** The inventory succeeds and the IP lookup after it gives no address. *)
Definition public_ip_fails (cfg : config) (answer : oracle) (fs : files)
    (past : list event) : Prop :=
  exists cur,
    (fetch_current_domains cfg answer fs past).1.1 = Ok cur /\
    exists ip,
      (get_public_ip answer fs
         (past ++ (fetch_current_domains cfg answer fs past).2)).1.1 = Ok ip /\
      no_public_ip ip.

(** The run enters the update cycle: a host name appeared or disappeared,
    the IP is not the last known one, or the force flag is set. *)
Definition something_changed (FORCE_UPDATE : option string) (fs : files)
    (current : list string) (ip : string) : Prop :=
  list_difference current (previous_domains_of fs) ≠ [] \/
  list_difference (previous_domains_of fs) current ≠ [] \/
  last_known_ip_of fs ≠ Some ip \/
  force_update_of FORCE_UPDATE = true.

(** The inventory and the IP service answer the same whatever happened
    before: nothing outside changes between the runs. *)
Definition stable_inventory (answer : oracle) : Prop :=
  forall past past' r, is_dns_request r = false -> answer past r = answer past' r.

(** The inventory lists well-formed host names and the IP service gives an
    address without whitespace. *)
Definition well_formed_inventory (answer : oracle) : Prop :=
  forall past r response,
    answer past r = Some response ->
    match body response with
    | Some (JHosts hosts) => Forall (Forall (fun h => wf_name h = true)) hosts
    | Some (JIp ip) => PyStr.no_space ip = true
    | _ => True
    end.

(** A plain host name: not empty, ASCII text, no whitespace.  Written to
    the hosts file and read back, such a name comes back as it was. *)
Definition plain_name (h : string) : bool := wf_name h && PyStr.ascii_text h.

(** The inventory lists plain host names and the IP service gives an
    address that is ASCII text without whitespace. *)
Definition plain_inventory (answer : oracle) : Prop :=
  forall past r response,
    answer past r = Some response ->
    match body response with
    | Some (JHosts hosts) => Forall (Forall (fun h => plain_name h = true)) hosts
    | Some (JIp ip) => PyStr.no_space ip && PyStr.ascii_text ip = true
    | _ => True
    end.

(** The hosts file and the last-IP file, where they exist, hold ASCII
    text: what the script reads back from them is what [strip] of this
    development gives. *)
Definition ascii_files (fs : files) : bool :=
  from_option PyStr.ascii_text true (hosts_filename fs)
  && from_option PyStr.ascii_text true (last_ip_file fs).

(** The events of a create or an update report no write the provider
    rejected: neither [Error creating DNS record] nor [Error updating A
    record] was printed. *)
Definition writes_accepted (evs : list event) : Prop :=
  forall domain code,
    (Print (LogCreateFailed domain code) ∉ evs) /\
    (Print (LogUpdateFailed domain code) ∉ evs).

(** [m] depends neither on the files nor on the past. *)
Definition stateless {A} (m : M A) : Prop :=
  forall fs fs' past past',
    m fs past = ((m fs' past').1.1, fs, (m fs' past').2).

(** The provider answers every lookup of the A records of [domain] with
    [results]. *)
Definition provider_lists (answer : oracle) (cf : cf_config) (domain : string)
    (results : list dns_record) : Prop :=
  forall past, exists response,
    answer past (CfList (ZONE_ID cf) (API_TOKEN cf) "A" domain) = Some response /\
    ((400 <=? status_code response) && (status_code response <? 600))%Z = false /\
    body response = Some (JResult results).

(** The provider answers every update, with a success or with an error
    that has a JSON body. *)
Definition updates_answered (answer : oracle) : Prop :=
  forall past zone token record_id data, exists response,
    answer past (CfPut zone token record_id data) = Some response /\
    (((400 <=? status_code response) && (status_code response <? 600))%Z = false
     \/ body response ≠ None).

(** Every event [m] emits satisfies [P], whatever the files and the past. *)
Definition emits {A} (P : event -> Prop) (m : M A) : Prop :=
  forall fs past, Forall P (m fs past).2.

(** A log line, or a request that satisfies [P]; never a write. *)
Definition only_requests (P : request -> Prop) (e : event) : Prop :=
  match e with
  | Request r => P r
  | Print _ => True
  | _ => False
  end.

(** The requests of a create or an update of [domain] at [ip] in the zone
    of [cf]: the lookup of its A records, the POST and the PUT of the A
    record the script builds. *)
Definition upsert_request (cf : cf_config) (domain ip : string) (r : request)
    : Prop :=
  r = CfList (ZONE_ID cf) (API_TOKEN cf) "A" domain \/
  r = CfPost (ZONE_ID cf) (API_TOKEN cf) (a_record_for domain ip) \/
  exists record_id,
    r = CfPut (ZONE_ID cf) (API_TOKEN cf) record_id (a_record_for domain ip).

(** The requests of a delete of [domain] in the zone of [cf]: the lookup
    of its A records and the DELETE of a record. *)
Definition delete_request (cf : cf_config) (domain : string) (r : request)
    : Prop :=
  r = CfList (ZONE_ID cf) (API_TOKEN cf) "A" domain \/
  exists record_id, r = CfDelete (ZONE_ID cf) (API_TOKEN cf) record_id.

(** The host name a request to the provider carries. *)
Definition request_name (r : request) : option string :=
  match r with
  | CfList _ _ _ domain => Some domain
  | CfPost _ _ data | CfPut _ _ _ data => Some (name data)
  | _ => None
  end.

(** The provider answers every delete, with a success or with an error
    that has a JSON body. *)
Definition deletes_answered (answer : oracle) : Prop :=
  forall past zone token record_id, exists response,
    answer past (CfDelete zone token record_id) = Some response /\
    (((400 <=? status_code response) && (status_code response <? 600))%Z = false
     \/ body response ≠ None).

(** The first loop asks the provider only about names it has to create or
    update: a request is a lookup, a create or an update for a name of the
    loop that resolves to the zone the request goes to and that is new,
    has no stored IP, or is due because the IP changed or the run is
    forced. *)
Definition due_upsert (cfg : config) (created : list string)
    (ipc force : bool) (ip : string) (stored : gmap string string)
    (doms : list string) (r : request) : Prop :=
  exists d cf,
    d ∈ doms /\
    find_root (CLOUDFLARE_CONFIG cfg) (CLOUDFLARE_CONFIG cfg).*1 d = Some cf /\
    (d ∈ created \/ stored !! d = None \/ ipc || force = true) /\
    upsert_request cf d ip r.

(** The second loop asks the provider only about names of the loop that
    resolve to the zone the request goes to: lookups and deletes. *)
Definition due_delete (cfg : config) (doms : list string) (r : request)
    : Prop :=
  exists d cf,
    d ∈ doms /\
    find_root (CLOUDFLARE_CONFIG cfg) (CLOUDFLARE_CONFIG cfg).*1 d = Some cf /\
    delete_request cf d r.

(** ** Example installations *)

Module Scenario.

(** One zone, for the root [example.com]. *)
Definition zone : cf_config := {| ZONE_ID := "zone-1"; API_TOKEN := "cf-token" |}.

Definition cfg : config :=
  {| NPM_API_URL := "http://npm:81";
     NPM_API_USER := "admin@example.com";
     NPM_API_PASS := "changeme";
     CLOUDFLARE_CONFIG := [("example.com", zone)] |}.

(** A 200 response with a JSON body. *)
Definition ok (j : json) : option http_response :=
  Some {| status_code := 200%Z; body := Some j |}.

(** An error response with a JSON body. *)
Definition failed (code : Z) : option http_response :=
  Some {| status_code := code; body := Some JOther |}.

(** Services whose inventory lists [hosts], whose IP service reports [ip]
    and whose DNS provider behaves as [dns]. *)
Definition services (hosts : list (list string)) (ip : string)
    (dns : request -> option http_response) : oracle :=
  fun _ r =>
    match r with
    | NpmToken _ _ _ => ok (JToken "jwt")
    | NpmProxyHosts _ _ => ok (JHosts hosts)
    | IpifyGet => ok (JIp ip)
    | _ => dns r
    end.

(** Services whose proxy manager rejects the credentials. *)
Definition locked_out (ip : string) : oracle :=
  fun _ r =>
    match r with
    | IpifyGet => ok (JIp ip)
    | _ => failed 401
    end.

(** A provider without records that accepts every request. *)
Definition empty_provider (r : request) : option http_response :=
  match r with
  | CfList _ _ _ _ => ok (JResult [])
  | _ => ok JOther
  end.

(** A provider without records that rejects every create with a 500 and a
    JSON error body. *)
Definition rejecting_provider (r : request) : option http_response :=
  match r with
  | CfList _ _ _ _ => ok (JResult [])
  | CfPost _ _ _ => failed 500
  | _ => ok JOther
  end.

(** A provider that holds, for every name, two records: one that points
    at [9.9.9.9] and one that points at [1.1.1.1]. *)
Definition two_records : list dns_record :=
  [ {| rec_content := Some "9.9.9.9"; rec_id := Some "rec-1" |};
    {| rec_content := Some "1.1.1.1"; rec_id := Some "rec-2" |} ].

Definition stale_provider (r : request) : option http_response :=
  match r with
  | CfList _ _ _ _ => ok (JResult two_records)
  | _ => ok JOther
  end.

(** Two records that both point elsewhere. *)
Definition two_stale_records : list dns_record :=
  [ {| rec_content := Some "9.9.9.9"; rec_id := Some "rec-1" |};
    {| rec_content := Some "8.8.8.8"; rec_id := Some "rec-2" |} ].

(** A provider that lists them and gives no response to an update. *)
Definition unresponsive_provider (r : request) : option http_response :=
  match r with
  | CfList _ _ _ _ => ok (JResult two_stale_records)
  | CfPut _ _ _ _ => None
  | _ => ok JOther
  end.

(** A provider that lists them and answers an update with a 502 whose body
    is no JSON. *)
Definition gateway_error_provider (r : request) : option http_response :=
  match r with
  | CfList _ _ _ _ => ok (JResult two_stale_records)
  | CfPut _ _ _ _ => Some {| status_code := 502%Z; body := None |}
  | _ => ok JOther
  end.

(** A provider whose lookups fail with a 500. *)
Definition broken_provider (r : request) : option http_response := failed 500.

(** No run yet. *)
Definition first_run : files :=
  {| hosts_filename := None; domain_ips_file := None; last_ip_file := None |}.

(** The files after a run that saw the one host name [host] at the public
    IP [last_ip] and stored [stored_ip] for it. *)
Definition tracking (host stored_ip last_ip : string) : files :=
  {| hosts_filename := Some (host +:+ newline);
     domain_ips_file := Some (Mapping {[ host := stored_ip ]});
     last_ip_file := Some last_ip |}.

(** The same, with [domain_ips.json] lost. *)
Definition lost_store (host last_ip : string) : files :=
  {| hosts_filename := Some (host +:+ newline);
     domain_ips_file := None;
     last_ip_file := Some last_ip |}.

End Scenario.

(** * Properties *)

(** ** Strings *)

Module PyStrFacts.
Import PyStr.

Lemma endswith_refl s : endswith s s = true.
Proof. destruct s; cbn [endswith]; rewrite String.eqb_refl; reflexivity. Qed.

(** [endswith] is the suffix relation. *)
Lemma endswith_spec s suffix :
  endswith s suffix = true <-> exists p, s = p +:+ suffix.
Proof.
  split.
  - induction s as [|c s IH]; cbn [endswith].
    + destruct (String.eqb_spec EmptyString suffix) as [<-|]; [|discriminate].
      intros _. exists EmptyString. reflexivity.
    + destruct (String.eqb_spec (String c s) suffix) as [<-|_].
      * intros _. exists EmptyString. reflexivity.
      * intros H. destruct (IH H) as [p ->]. exists (String c p). reflexivity.
  - intros [p ->]. induction p as [|c p IH].
    + apply endswith_refl.
    + change (String c p +:+ suffix) with (String c (p +:+ suffix)).
      cbn [endswith]. rewrite IH. destruct (String.eqb _ _); reflexivity.
Qed.

Lemma is_newline_space c : is_newline c = true -> is_space c = true.
Proof.
  unfold is_newline. intros [H|H]%orb_true_iff; apply Ascii.eqb_eq in H;
    subst c; reflexivity.
Qed.

Lemma lstrip_no_space s : no_space s = true -> lstrip s = s.
Proof.
  destruct s as [|c s]; simpl; [reflexivity|].
  intros [Hc _]%andb_true_iff. apply negb_true_iff in Hc. rewrite Hc.
  reflexivity.
Qed.

Lemma rstrip_no_space s : no_space s = true -> rstrip s = s.
Proof.
  induction s as [|c s IH]; simpl; [reflexivity|].
  intros [Hc Hs]%andb_true_iff. apply negb_true_iff in Hc.
  rewrite Hc, (IH Hs). reflexivity.
Qed.

Lemma strip_no_space s : no_space s = true -> strip s = s.
Proof.
  intros H. unfold strip. rewrite (lstrip_no_space _ H).
  apply rstrip_no_space, H.
Qed.

Lemma append_cons c (a b : string) : String c a +:+ b = String c (a +:+ b).
Proof. reflexivity. Qed.

Lemma append_assoc (a b c : string) : (a +:+ b) +:+ c = a +:+ (b +:+ c).
Proof.
  induction a as [|x a IH]; [reflexivity|].
  rewrite !append_cons, IH. reflexivity.
Qed.

Lemma append_nil_r (a : string) : a +:+ EmptyString = a.
Proof.
  induction a as [|x a IH]; [reflexivity|].
  rewrite append_cons, IH. reflexivity.
Qed.

(** Reading a text that starts with a name and a line feed: the name is the
    first line, when it contains no line break. *)
Lemma lines_from_name cur h rest :
  no_space h = true ->
  lines_from cur ((h +:+ newline) +:+ rest)
  = (cur +:+ h) :: lines_from EmptyString rest.
Proof.
  revert cur. induction h as [|c h IH]; intros cur Hh.
  - rewrite append_nil_r. reflexivity.
  - cbn [no_space] in Hh. apply andb_true_iff in Hh as [Hc Hh].
    apply negb_true_iff in Hc.
    rewrite !append_cons. cbn [lines_from].
    destruct (is_newline c) eqn:Hn.
    + apply is_newline_space in Hn. congruence.
    + rewrite (IH _ Hh), append_assoc. reflexivity.
Qed.

End PyStrFacts.

(** ** The hosts file *)

Section HostsFile.
Import PyStr PyStrFacts.

Lemma wf_name_no_space h : wf_name h = true -> no_space h = true.
Proof. unfold wf_name. intros [_ H]%andb_true_iff. exact H. Qed.

Lemma wf_name_nonempty h : wf_name h = true -> h ≠ EmptyString.
Proof.
  unfold wf_name, truthy. intros [H _]%andb_true_iff ->. discriminate H.
Qed.

Lemma lines_host_file_text (l : list string) :
  Forall (fun h => wf_name h = true) l -> lines (host_file_text l) = l.
Proof.
  unfold lines. induction 1 as [|h l Hh _ IH]; [reflexivity|].
  cbn [host_file_text].
  rewrite (lines_from_name _ _ _ (wf_name_no_space _ Hh)), IH.
  reflexivity.
Qed.

Lemma strip_names (l : list string) :
  Forall (fun h => wf_name h = true) l -> strip <$> l = l.
Proof.
  induction 1 as [|h l Hh _ IH]; [reflexivity|].
  cbn [fmap list_fmap]. f_equal.
  - apply strip_no_space, wf_name_no_space, Hh.
  - exact IH.
Qed.

Lemma filter_names (l : list string) :
  Forall (fun h => wf_name h = true) l ->
  filter (fun line : string => line ≠ EmptyString) l = l.
Proof.
  induction 1 as [|h l Hh _ IH]; [reflexivity|].
  rewrite filter_cons_True by (apply wf_name_nonempty, Hh).
  f_equal. exact IH.
Qed.

Lemma remove_dups_NoDup (l : list string) : NoDup l -> remove_dups l = l.
Proof.
  induction 1 as [|x l Hx _ IH]; [reflexivity|].
  cbn [remove_dups]. destruct (decide_rel elem_of x l); [contradiction|].
  f_equal. exact IH.
Qed.

(** What [update_host_file] writes, the next run reads back. *)
Lemma previous_domains_roundtrip fs (l : list string) :
  hosts_filename fs = Some (host_file_text l) ->
  Forall (fun h => wf_name h = true) l -> NoDup l ->
  previous_domains_of fs = l.
Proof.
  intros Hfile Hwf Hnd. unfold previous_domains_of. rewrite Hfile.
  rewrite (lines_host_file_text _ Hwf), (strip_names _ Hwf),
    (filter_names _ Hwf).
  apply remove_dups_NoDup, Hnd.
Qed.

Lemma list_difference_same_elements (l k : list string) :
  (forall x, x ∈ l -> x ∈ k) -> list_difference l k = [].
Proof.
  intros H. destruct (list_difference l k) as [|x k'] eqn:E; [reflexivity|].
  assert (Hx : x ∈ list_difference l k) by (rewrite E; left).
  apply list_elem_of_difference in Hx as [? ?]. exfalso. auto.
Qed.

End HostsFile.

(** ** The domain router *)

Section Router.
Import PyStr PyStrFacts.
Context {V : Type}.

Lemma dict_get_first (l1 l2 : list (string * V)) root v :
  Forall (fun p => p.1 ≠ root) l1 ->
  dict_get (l1 ++ (root, v) :: l2) root = Some v.
Proof.
  induction 1 as [|[k w] l1 Hk _ IH]; cbn [dict_get app].
  - rewrite String.eqb_refl. reflexivity.
  - destruct (String.eqb_spec k root) as [->|_]; [contradiction|]. exact IH.
Qed.

(** The loop stops at the first key the name ends with, and the subscript
    then reads the entry of that key. *)
Lemma find_root_Some (whole : list (string * V)) domain v :
  find_root whole whole.*1 domain = Some v <->
  exists l1 root l2,
    whole = l1 ++ (root, v) :: l2 /\
    endswith domain root = true /\
    Forall (fun p => endswith domain p.1 = false) l1.
Proof.
  assert (Hgen : forall pre rest : list (string * V),
    Forall (fun p => endswith domain p.1 = false) pre ->
    find_root (pre ++ rest) rest.*1 domain = Some v <->
    exists l1 root l2,
      rest = l1 ++ (root, v) :: l2 /\
      endswith domain root = true /\
      Forall (fun p => endswith domain p.1 = false) l1).
  { intros pre rest. revert pre.
    induction rest as [|[k w] rest IH]; intros pre Hpre.
    - cbn. split; [discriminate|].
      intros (l1 & root & l2 & E & _). destruct l1; discriminate E.
    - cbn [fmap list_fmap fst find_root].
      destruct (endswith domain k) eqn:Hk.
      + rewrite dict_get_first.
        2:{ eapply Forall_impl; [exact Hpre|]. cbn. intros p Hp E.
            rewrite E in Hp. congruence. }
        split.
        * intros [= ->]. exists [], k, rest. auto.
        * intros (l1 & root & l2 & E & Hroot & Hl1).
          destruct l1 as [|[k' w'] l1]; cbn in E.
          -- injection E as -> -> ->. reflexivity.
          -- injection E as -> -> ->. apply Forall_cons in Hl1 as [Hk' _].
             cbn in Hk'. congruence.
      + replace (pre ++ (k, w) :: rest) with ((pre ++ [(k, w)]) ++ rest)
          by (rewrite <- app_assoc; reflexivity).
        rewrite IH by (apply Forall_app; split; [exact Hpre|]; repeat constructor; exact Hk).
        split.
        * intros (l1 & root & l2 & -> & Hroot & Hl1).
          exists ((k, w) :: l1), root, l2. repeat split; auto.
        * intros (l1 & root & l2 & E & Hroot & Hl1).
          destruct l1 as [|[k' w'] l1]; cbn in E.
          -- injection E as -> -> ->. congruence.
          -- injection E as -> -> ->. apply Forall_cons in Hl1 as [_ Hl1].
             exists l1, root, l2. auto. }
  apply (Hgen [] whole). constructor.
Qed.

Lemma find_root_None (whole : list (string * V)) domain :
  find_root whole whole.*1 domain = None <->
  Forall (fun p => endswith domain p.1 = false) whole.
Proof.
  assert (Hgen : forall pre rest : list (string * V),
    Forall (fun p => endswith domain p.1 = false) pre ->
    find_root (pre ++ rest) rest.*1 domain = None <->
    Forall (fun p => endswith domain p.1 = false) rest).
  { intros pre rest. revert pre.
    induction rest as [|[k w] rest IH]; intros pre Hpre.
    - cbn. split; [constructor|reflexivity].
    - cbn [fmap list_fmap fst find_root].
      destruct (endswith domain k) eqn:Hk.
      + rewrite dict_get_first.
        2:{ eapply Forall_impl; [exact Hpre|]. cbn. intros p Hp E.
            rewrite E in Hp. congruence. }
        split; [discriminate|].
        intros [Hk' _]%Forall_cons. cbn in Hk'. congruence.
      + replace (pre ++ (k, w) :: rest) with ((pre ++ [(k, w)]) ++ rest)
          by (rewrite <- app_assoc; reflexivity).
        rewrite IH
          by (apply Forall_app; split; [exact Hpre|];
              repeat constructor; exact Hk).
        split.
        * intros H. constructor; [exact Hk|exact H].
        * intros [_ H]%Forall_cons. exact H. }
  apply (Hgen [] whole). constructor.
Qed.

End Router.

(** ** Computations that do not touch the files *)

Section Oblivious.
Context {A B : Type}.

Lemma oblivious_files (m : M A) fs past :
  oblivious m -> (m fs past).1.2 = fs.
Proof. intros H. rewrite (H fs fs past). reflexivity. Qed.

Lemma oblivious_run (m : M A) fs past r fs1 evs :
  oblivious m -> m fs past = (r, fs1, evs) ->
  fs1 = fs /\ forall fs', m fs' past = (r, fs', evs).
Proof.
  intros H E. split.
  - rewrite <- (oblivious_files m fs past H), E. reflexivity.
  - intros fs'. rewrite (H fs' fs past), E. reflexivity.
Qed.

Lemma oblivious_ret (a : A) : oblivious (ret a).
Proof. intros fs fs' past. reflexivity. Qed.

Lemma oblivious_raise e : oblivious (@raise A e).
Proof. intros fs fs' past. reflexivity. Qed.

Lemma oblivious_bind (m : M A) (k : A -> M B) :
  oblivious m -> (forall a, oblivious (k a)) -> oblivious (bind m k).
Proof.
  intros Hm Hk fs fs' past. unfold bind.
  rewrite (Hm fs fs' past).
  destruct (m fs' past) as [[[a|e] fs1] ev1]; cbn; [|reflexivity].
  rewrite (Hk a fs fs1 (past ++ ev1)).
  destruct (k a fs1 (past ++ ev1)) as [[r2 fs2] ev2]. reflexivity.
Qed.

Lemma oblivious_try_except (m : M A) sel handler :
  oblivious m -> (forall e, oblivious (handler e)) ->
  oblivious (try_except m sel handler).
Proof.
  intros Hm Hh fs fs' past. unfold try_except.
  rewrite (Hm fs fs' past).
  destruct (m fs' past) as [[[a|e] fs1] ev1]; cbn; [reflexivity|].
  destruct (sel e); [|reflexivity].
  rewrite (Hh e fs fs1 (past ++ ev1)).
  destruct (handler e fs1 (past ++ ev1)) as [[r2 fs2] ev2]. reflexivity.
Qed.

End Oblivious.

Lemma oblivious_print l : oblivious (print l).
Proof. intros fs fs' past. reflexivity. Qed.

Lemma oblivious_when c m : oblivious m -> oblivious (when c m).
Proof. destruct c; [auto|]. intros _. apply oblivious_ret. Qed.

Create HintDb obl discriminated.

Ltac oblivious_step :=
  first
    [ solve [auto with obl nocore]
    | apply oblivious_ret | apply oblivious_raise | apply oblivious_print
    | apply oblivious_bind; [|intros ?]
    | apply oblivious_try_except; [|intros ?]
    | apply oblivious_when
    | match goal with
      | |- oblivious (match ?x with _ => _ end) => destruct x
      | |- oblivious (if ?x then _ else _) => destruct x
      end ].

Ltac oblivious := repeat oblivious_step.

Section ObliviousScript.
Context (cfg : config) (answer : oracle) (recursion_limit : nat).

Lemma oblivious_http r : oblivious (http answer r).
Proof.
  intros fs fs' past. unfold http. destruct (answer past r); reflexivity.
Qed.

Lemma oblivious_raise_for_status response :
  oblivious (raise_for_status response).
Proof. unfold raise_for_status. oblivious. Qed.

Lemma oblivious_response_json response : oblivious (response_json response).
Proof. unfold response_json. oblivious. Qed.

Lemma oblivious_subscript {A} (want : json -> option A) j :
  oblivious (subscript want j).
Proof. unfold subscript. destruct (want j); destruct j; oblivious. Qed.

Lemma oblivious_get_result j : oblivious (get_result j).
Proof. unfold get_result. oblivious. Qed.

Hint Resolve oblivious_http oblivious_raise_for_status
  oblivious_response_json oblivious_subscript oblivious_get_result : obl.

Lemma oblivious_get_npm_token : oblivious (get_npm_token cfg answer).
Proof. unfold get_npm_token. oblivious. Qed.

Lemma oblivious_get_proxy_hosts token :
  oblivious (get_proxy_hosts cfg answer token).
Proof. unfold get_proxy_hosts. oblivious. Qed.

Hint Resolve oblivious_get_npm_token oblivious_get_proxy_hosts : obl.

Lemma oblivious_fetch_current_domains :
  oblivious (fetch_current_domains cfg answer).
Proof. unfold fetch_current_domains, domain_names. oblivious. Qed.

Lemma oblivious_get_public_ip : oblivious (get_public_ip answer).
Proof. unfold get_public_ip. oblivious. Qed.

Lemma oblivious_get_cf_config_for_domain domain :
  oblivious (get_cf_config_for_domain cfg domain).
Proof. unfold get_cf_config_for_domain. oblivious. Qed.

Lemma oblivious_list_a_records domain cf :
  oblivious (list_a_records answer domain cf).
Proof. unfold list_a_records. oblivious. Qed.

Hint Resolve oblivious_list_a_records oblivious_get_cf_config_for_domain
  : obl.

Lemma oblivious_update_records domain ip cf results :
  oblivious (update_records answer domain ip cf results).
Proof.
  induction results as [|record rest IH]; cbn [update_records]; oblivious.
Qed.

Lemma oblivious_delete_records domain cf results :
  oblivious (delete_records answer domain cf results).
Proof.
  induction results as [|record rest IH]; cbn [delete_records]; oblivious.
Qed.

Hint Resolve oblivious_update_records oblivious_delete_records : obl.

Lemma oblivious_create_update depth domain ip cf :
  oblivious (create_cloudflare_a_record answer depth domain ip cf) /\
  oblivious (update_cloudflare_a_record answer depth domain ip cf).
Proof.
  induction depth as [|depth [IHc IHu]].
  - split; cbn; apply oblivious_raise.
  - split.
    + cbn [create_cloudflare_a_record].
      unfold check_cloudflare_record_exists. oblivious.
    + cbn [update_cloudflare_a_record]. oblivious.
Qed.

Lemma oblivious_create depth domain ip cf :
  oblivious (create_cloudflare_a_record answer depth domain ip cf).
Proof. apply oblivious_create_update. Qed.

Lemma oblivious_update depth domain ip cf :
  oblivious (update_cloudflare_a_record answer depth domain ip cf).
Proof. apply oblivious_create_update. Qed.

Lemma oblivious_delete_cloudflare_a_record domain cf :
  oblivious (delete_cloudflare_a_record answer domain cf).
Proof. unfold delete_cloudflare_a_record. oblivious. Qed.

Hint Resolve oblivious_create oblivious_update
  oblivious_delete_cloudflare_a_record : obl.

Lemma oblivious_process_domain created ipc force ip domain stored :
  oblivious (process_domain cfg answer recursion_limit created ipc force ip
               domain stored).
Proof. unfold process_domain. oblivious. Qed.

Hint Resolve oblivious_process_domain : obl.

Lemma oblivious_process_current created ipc force ip domains :
  forall stored,
  oblivious (process_current cfg answer recursion_limit created ipc force ip
               domains stored).
Proof.
  induction domains as [|domain rest IH]; intros stored;
    cbn [process_current]; oblivious.
Qed.

Lemma oblivious_process_deleted_domain domain stored :
  oblivious (process_deleted_domain cfg answer domain stored).
Proof. unfold process_deleted_domain. oblivious. Qed.

Hint Resolve oblivious_process_deleted_domain : obl.

Lemma oblivious_process_deleted domains :
  forall stored, oblivious (process_deleted cfg answer domains stored).
Proof.
  induction domains as [|domain rest IH]; intros stored;
    cbn [process_deleted]; oblivious.
Qed.

Lemma oblivious_log_status created deleted dc ipc last ip :
  oblivious (log_status created deleted dc ipc last ip).
Proof. unfold log_status. oblivious. Qed.

End ObliviousScript.

(** ** Running the script *)

Lemma bind_run {A B} (m : M A) (k : A -> M B) fs past a fs1 ev1 :
  m fs past = (Ok a, fs1, ev1) ->
  bind m k fs past
  = (let '(r2, fs2, ev2) := k a fs1 (past ++ ev1) in (r2, fs2, ev1 ++ ev2)).
Proof. intros E. unfold bind. rewrite E. reflexivity. Qed.

Lemma bind_run_raise {A B} (m : M A) (k : A -> M B) fs past e fs1 ev1 :
  m fs past = (Raise e, fs1, ev1) ->
  bind m k fs past = (Raise e, fs1, ev1).
Proof. intros E. unfold bind. rewrite E. reflexivity. Qed.

Section Runs.
Context (cfg : config) (answer : oracle) (recursion_limit : nat).

(** The inventory and the IP lookup neither write nor call the DNS
    provider. *)
Lemma fetch_current_domains_quiet fs past :
  Forall (fun e => is_quiet e = true)
         (fetch_current_domains cfg answer fs past).2.
Proof.
  unfold fetch_current_domains, get_npm_token, get_proxy_hosts,
    domain_names, bind, http, raise_for_status, response_json, subscript,
    ret, raise.
  repeat (case_match; simplify_eq/=); repeat constructor.
Qed.

Lemma get_public_ip_quiet fs past :
  Forall (fun e => is_quiet e = true) (get_public_ip answer fs past).2.
Proof.
  unfold get_public_ip, try_except, bind, http, raise_for_status,
    response_json, subscript, ret, raise, print, emit.
  repeat (case_match; simplify_eq/=); repeat constructor.
Qed.

Lemma get_public_ip_never_raises fs past :
  exists ip evs, get_public_ip answer fs past = (Ok ip, fs, evs).
Proof.
  unfold get_public_ip, try_except, bind, http, raise_for_status,
    response_json, subscript, ret, raise, print, emit, any_exception.
  repeat (case_match; simplify_eq/=); eauto.
Qed.

Lemma log_status_run created deleted dc ipc last ip fs past :
  exists evs,
    log_status created deleted dc ipc last ip fs past = (Ok tt, fs, evs) /\
    Forall (fun e => is_quiet e = true) evs.
Proof.
  unfold log_status, when, bind, print, emit, ret.
  repeat (case_match; simplify_eq/=); eexists; split; try reflexivity;
    repeat constructor.
Qed.

Lemma get_cf_config_for_domain_run domain fs past :
  get_cf_config_for_domain cfg domain fs past
  = match find_root (CLOUDFLARE_CONFIG cfg) (CLOUDFLARE_CONFIG cfg).*1 domain with
    | Some cf => (Ok (Some cf), fs, [])
    | None => (Ok None, fs, [Print (LogSkipping domain)])
    end.
Proof.
  unfold get_cf_config_for_domain. destruct (find_root _ _ _); reflexivity.
Qed.

(** The body of the first loop, branch by branch. *)
Lemma process_domain_cases created ipc force ip d
    (stored : gmap string string) fs past :
  exists m' evs,
    process_domain cfg answer recursion_limit created ipc force ip d stored
      fs past = (Ok m', fs, evs) /\
    match find_root (CLOUDFLARE_CONFIG cfg) (CLOUDFLARE_CONFIG cfg).*1 d with
    | None => m' = stored /\ evs = [Print (LogSkipping d)]
    | Some cf =>
        if bool_decide (d ∈ created) || bool_decide (stored !! d = None) then
          exists r evc,
            create_cloudflare_a_record answer recursion_limit d ip cf fs
              (past ++ [Print (LogNewDomain d ip)]) = (r, fs, evc) /\
            match r with
            | Ok _ =>
                m' = <[d := ip]> stored /\
                evs = Print (LogNewDomain d ip) :: evc
            | Raise e =>
                m' = stored /\
                evs = Print (LogNewDomain d ip) :: evc
                      ++ [Print (LogCreationError d e)]
            end
        else if ipc || force then
          let line := if ipc then LogUpdating d ip else LogForced d ip in
          exists r evc,
            update_cloudflare_a_record answer recursion_limit d ip cf fs
              (past ++ [Print line]) = (r, fs, evc) /\
            match r with
            | Ok _ => m' = <[d := ip]> stored /\ evs = Print line :: evc
            | Raise e =>
                m' = stored /\
                evs = Print line :: evc ++ [Print (LogUpdateError d e)]
            end
        else m' = stored /\ evs = [Print (LogNoChangesNeeded d)]
    end.
Proof.
  unfold process_domain, bind at 1.
  rewrite get_cf_config_for_domain_run.
  destruct (find_root _ _ _) as [cf|]; [|cbn; eauto].
  rewrite app_nil_r.
  destruct (bool_decide (d ∈ created) || bool_decide (stored !! d = None)).
  - cbn. unfold try_except, bind at 1.
    destruct (create_cloudflare_a_record _ _ _ _ _ _ _)
      as [[r fs1] evc] eqn:E.
    destruct (oblivious_run _ _ _ _ _ _ (oblivious_create _ _ _ _ _) E)
      as [-> _].
    destruct r as [[]|e]; cbn; rewrite ?app_nil_r;
      (do 2 eexists; split; [reflexivity|]);
      (do 2 eexists; split; [reflexivity|]); cbn; auto.
  - destruct (ipc || force).
    + cbn. unfold try_except, bind at 1.
      destruct (update_cloudflare_a_record _ _ _ _ _ _ _)
        as [[r fs1] evc] eqn:E.
      destruct (oblivious_run _ _ _ _ _ _ (oblivious_update _ _ _ _ _) E)
        as [-> _].
      destruct r as [[]|e]; cbn; rewrite ?app_nil_r;
      (do 2 eexists; split; [reflexivity|]);
      (do 2 eexists; split; [reflexivity|]); cbn; auto.
    + cbn. eauto.
Qed.

(** The first loop never raises and changes at most the entry of the
    name it handles. *)
Lemma process_domain_run created ipc force ip d
    (stored : gmap string string) fs past :
  exists m' evs,
    process_domain cfg answer recursion_limit created ipc force ip d stored
      fs past = (Ok m', fs, evs) /\
    (m' = stored \/ m' = <[d := ip]> stored).
Proof.
  destruct (process_domain_cases created ipc force ip d stored fs past)
    as (m' & evs & E & H).
  exists m', evs. split; [exact E|].
  destruct (find_root _ _ _) as [cf|]; [|tauto].
  destruct (_ || _).
  - destruct H as ([[]|e] & evc & _ & H); tauto.
  - destruct (_ || _); [|tauto].
    destruct H as ([[]|e] & evc & _ & H); tauto.
Qed.

Lemma process_current_run created ipc force ip doms :
  forall (stored : gmap string string) fs past,
  exists m' evs,
    process_current cfg answer recursion_limit created ipc force ip doms
      stored fs past = (Ok m', fs, evs) /\
    forall k, k ∉ doms -> m' !! k = stored !! k.
Proof.
  induction doms as [|d rest IH]; intros stored fs past.
  - exists stored, []. split; [reflexivity|auto].
  - cbn [process_current].
    destruct (process_domain_run created ipc force ip d stored fs past)
      as (m1 & ev1 & E1 & H1).
    destruct (IH m1 fs (past ++ ev1)) as (m2 & ev2 & E2 & H2).
    exists m2, (ev1 ++ ev2). split.
    + rewrite (bind_run _ _ _ _ _ _ _ E1), E2. reflexivity.
    + intros k Hk. apply not_elem_of_cons in Hk as [Hkd Hk].
      rewrite (H2 k Hk).
      destruct H1 as [->| ->]; [reflexivity|].
      apply lookup_insert_ne. congruence.
Qed.

(** The run of the first loop contains the run of its body at each name
    it visits, on a dict that agrees with the initial one at that name;
    no later iteration touches that entry. *)
Lemma process_current_focus created ipc force ip doms h :
  forall (stored : gmap string string) fs past,
  NoDup doms -> h ∈ doms ->
  exists stored_h past_h m_h evs_h m' evs,
    process_current cfg answer recursion_limit created ipc force ip doms
      stored fs past = (Ok m', fs, evs) /\
    process_domain cfg answer recursion_limit created ipc force ip h
      stored_h fs past_h = (Ok m_h, fs, evs_h) /\
    stored_h !! h = stored !! h /\
    m' !! h = m_h !! h /\
    (forall e, e ∈ evs_h -> e ∈ evs).
Proof.
  induction doms as [|d rest IH]; intros stored fs past Hnd Hin.
  - apply elem_of_nil in Hin as [].
  - apply NoDup_cons in Hnd as [Hd Hnd].
    cbn [process_current].
    destruct (process_domain_run created ipc force ip d stored fs past)
      as (m1 & ev1 & E1 & H1).
    destruct (decide (h = d)) as [->|Hne].
    + destruct (process_current_run created ipc force ip rest m1 fs
                  (past ++ ev1)) as (m2 & ev2 & E2 & H2).
      exists stored, past, m1, ev1, m2, (ev1 ++ ev2).
      repeat split; auto.
      * rewrite (bind_run _ _ _ _ _ _ _ E1), E2. reflexivity.
      * intros e He. apply elem_of_app. auto.
    + apply elem_of_cons in Hin as [?|Hin]; [contradiction|].
      destruct (IH m1 fs (past ++ ev1) Hnd Hin)
        as (stored_h & past_h & m_h & evs_h & m2 & ev2 & E2 & Eh & Hs & Hm & Hev).
      exists stored_h, past_h, m_h, evs_h, m2, (ev1 ++ ev2).
      repeat split; auto.
      * rewrite (bind_run _ _ _ _ _ _ _ E1), E2. reflexivity.
      * rewrite Hs. destruct H1 as [->| ->]; [reflexivity|].
        apply lookup_insert_ne. congruence.
      * intros e He. apply elem_of_app. auto.
Qed.

(** The body of the second loop: without a routing configuration the
    entry stays; with one it is dropped, whatever the provider did. *)
Lemma process_deleted_domain_cases d (stored : gmap string string) fs past :
  exists m' evs,
    process_deleted_domain cfg answer d stored fs past = (Ok m', fs, evs) /\
    match find_root (CLOUDFLARE_CONFIG cfg) (CLOUDFLARE_CONFIG cfg).*1 d with
    | None => m' = stored /\ evs = [Print (LogSkipping d)]
    | Some cf => m' = delete d stored
    end.
Proof.
  unfold process_deleted_domain, bind at 1.
  rewrite get_cf_config_for_domain_run.
  destruct (find_root _ _ _) as [cf|]; [|cbn; eauto].
  rewrite app_nil_r. unfold bind at 1, try_except, bind at 1.
  cbn [print emit].
  destruct (delete_cloudflare_a_record _ _ _ _ _) as [[r fs1] evd] eqn:E.
  destruct (oblivious_run _ _ _ _ _ _
              (oblivious_delete_cloudflare_a_record _ _ _) E) as [-> _].
  destruct r as [[]|e]; cbn; eauto.
Qed.

Lemma process_deleted_run doms :
  forall (stored : gmap string string) fs past,
  exists m' evs,
    process_deleted cfg answer doms stored fs past = (Ok m', fs, evs) /\
    (forall k, k ∉ doms -> m' !! k = stored !! k) /\
    (forall k, stored !! k = None -> m' !! k = None) /\
    (forall k, k ∈ doms ->
       find_root (CLOUDFLARE_CONFIG cfg) (CLOUDFLARE_CONFIG cfg).*1 k ≠ None ->
       m' !! k = None).
Proof.
  induction doms as [|d rest IH]; intros stored fs past.
  - exists stored, []. repeat split; auto.
    intros k Hk. apply elem_of_nil in Hk as [].
  - cbn [process_deleted].
    destruct (process_deleted_domain_cases d stored fs past)
      as (m1 & ev1 & E1 & H1).
    destruct (IH m1 fs (past ++ ev1)) as (m2 & ev2 & E2 & Hout & Hnone & Hin).
    exists m2, (ev1 ++ ev2). split; [|repeat split].
    + rewrite (bind_run _ _ _ _ _ _ _ E1), E2. reflexivity.
    + intros k Hk. apply not_elem_of_cons in Hk as [Hkd Hk].
      rewrite (Hout k Hk).
      destruct (find_root _ _ d); [subst m1|destruct H1 as [-> _]; reflexivity].
      apply lookup_delete_ne. congruence.
    + intros k Hk. apply Hnone.
      destruct (find_root _ _ d); [subst m1|destruct H1 as [-> _]; exact Hk].
      rewrite lookup_delete. case_decide; auto.
    + intros k Hk Hr. apply elem_of_cons in Hk as [->|Hk]; [|auto].
      apply Hnone.
      destruct (find_root _ _ d); [subst m1|contradiction].
      apply lookup_delete_eq.
Qed.

(** The update cycle always reaches its three writes and returns 0. *)
Lemma update_cycle_run cur created deleted ipc force ip fs past :
  exists m1 evc m2 evd,
    process_current cfg answer recursion_limit created ipc force ip cur
      (stored_ips_of fs) fs past = (Ok m1, fs, evc) /\
    process_deleted cfg answer deleted m1 fs (past ++ evc)
      = (Ok m2, fs, evd) /\
    update_cycle cfg answer recursion_limit cur created deleted ipc force ip
      fs past
    = (Ok 0%Z,
       {| hosts_filename := Some (host_file_text cur);
          domain_ips_file := Some (Mapping m2);
          last_ip_file := Some ip |},
       evc ++ evd ++ [WriteDomainIps m2; WriteHosts (host_file_text cur);
                      WriteLastIp ip]).
Proof.
  destruct (process_current_run created ipc force ip cur (stored_ips_of fs)
              fs past) as (m1 & evc & E1 & _).
  destruct (process_deleted_run deleted m1 fs (past ++ evc))
    as (m2 & evd & E2 & _).
  exists m1, evc, m2, evd. split; [exact E1|]. split; [exact E2|].
  unfold update_cycle, bind at 1. cbn [load_stored_ips get_files bind ret].
  rewrite !app_nil_r.
  rewrite (bind_run _ _ _ _ _ _ _ E1), (bind_run _ _ _ _ _ _ _ E2).
  reflexivity.
Qed.

(** When the inventory fails, [main] ends with its exception. *)
Lemma main_inventory_raises FORCE_UPDATE fs past e fs1 ev1 :
  fetch_current_domains cfg answer fs past = (Raise e, fs1, ev1) ->
  main cfg answer recursion_limit FORCE_UPDATE fs past = (Raise e, fs, ev1).
Proof.
  intros E.
  destruct (oblivious_run _ _ _ _ _ _
              (oblivious_fetch_current_domains cfg answer) E) as [-> _].
  unfold main, bind at 1. cbn [read_last_known_ip get_files bind ret].
  rewrite !app_nil_r, (bind_run_raise _ _ _ _ _ _ _ E). reflexivity.
Qed.

(** When the IP lookup yields nothing, [main] returns 1. *)
Lemma main_no_ip FORCE_UPDATE fs past cur fs1 ev1 ip fs2 ev2 :
  fetch_current_domains cfg answer fs past = (Ok cur, fs1, ev1) ->
  get_public_ip answer fs (past ++ ev1) = (Ok ip, fs2, ev2) ->
  PyStr.truthy (default EmptyString ip) = false ->
  main cfg answer recursion_limit FORCE_UPDATE fs past
  = (Ok 1%Z, fs, ev1 ++ ev2 ++ [Print LogAborting]).
Proof.
  intros E1 E2 Hip.
  destruct (oblivious_run _ _ _ _ _ _
              (oblivious_fetch_current_domains cfg answer) E1) as [-> _].
  destruct (oblivious_run _ _ _ _ _ _
              (oblivious_get_public_ip answer) E2) as [-> _].
  unfold main, bind at 1. cbn [read_last_known_ip get_files bind ret].
  rewrite !app_nil_r, (bind_run _ _ _ _ _ _ _ E1).
  unfold bind at 1. cbn [read_previous_domains get_files bind ret].
  rewrite !app_nil_r, (bind_run _ _ _ _ _ _ _ E2), Hip.
  reflexivity.
Qed.

(** When both succeed, [main] prints its status lines and either leaves
    early or runs the update cycle. *)
Lemma main_run FORCE_UPDATE fs past cur fs1 ev1 ip fs2 ev2 :
  fetch_current_domains cfg answer fs past = (Ok cur, fs1, ev1) ->
  get_public_ip answer fs (past ++ ev1) = (Ok (Some ip), fs2, ev2) ->
  ip ≠ EmptyString ->
  let previous := previous_domains_of fs in
  let created := list_difference cur previous in
  let deleted := list_difference previous cur in
  let domains_changed :=
    ((0 <? length created)%nat || (0 <? length deleted)%nat) in
  let force := force_update_of FORCE_UPDATE in
  let ipc := negb (bool_decide (last_known_ip_of fs = Some ip)) in
  exists evl,
    Forall (fun e => is_quiet e = true) evl /\
    main cfg answer recursion_limit FORCE_UPDATE fs past
    = if negb domains_changed && negb ipc && negb force then
        (Ok 0%Z, fs, ev1 ++ ev2 ++ evl ++ [Print LogNoChanges])
      else
        let '(r, fs', ev3) :=
          update_cycle cfg answer recursion_limit cur created deleted ipc
            force ip fs (past ++ ev1 ++ ev2 ++ evl) in
        (r, fs', ev1 ++ ev2 ++ evl ++ ev3).
Proof.
  intros E1 E2 Hip. cbv zeta.
  destruct (oblivious_run _ _ _ _ _ _
              (oblivious_fetch_current_domains cfg answer) E1) as [-> _].
  destruct (oblivious_run _ _ _ _ _ _
              (oblivious_get_public_ip answer) E2) as [-> _].
  unfold main, bind at 1. cbn [read_last_known_ip get_files bind ret].
  rewrite !app_nil_r, (bind_run _ _ _ _ _ _ _ E1).
  unfold bind at 1. cbn [read_previous_domains get_files bind ret].
  rewrite !app_nil_r, (bind_run _ _ _ _ _ _ _ E2).
  replace (PyStr.truthy (default EmptyString (Some ip))) with true
    by (destruct ip; [contradiction|reflexivity]).
  cbn [negb default].
  match goal with
  | |- context [bind (log_status ?c ?d ?dc ?ipc ?last ?ip') _ ?fs' ?past'] =>
      destruct (log_status_run c d dc ipc last ip' fs' past')
        as (evl & El & Hquiet)
  end.
  exists evl. split; [exact Hquiet|].
  rewrite (bind_run _ _ _ _ _ _ _ El).
  destruct (negb _ && negb _ && negb _).
  - reflexivity.
  - rewrite <- !app_assoc.
    destruct (update_cycle _ _ _ _ _ _ _ _ _ _ _) as [[r fs'] ev3].
    reflexivity.
Qed.

End Runs.

(** * The claims *)

(** ** The domain router *)

(** C7: [get_cf_config_for_domain] returns the configuration of the first
    root, in the iteration order of the configuration, that the host name
    ends with, and nothing (with a log line) when the name ends with no
    configured root; ["app.example.com"] resolves under the root
    ["example.com"] and ["example.com.evil.org"] does not. *)
Theorem get_cf_config_for_domain_first_suffix_match
    (cfg : config) (domain : string) (fs : files) (past : list event) :
  (forall cf,
     get_cf_config_for_domain cfg domain fs past = (Ok (Some cf), fs, []) <->
     exists before root after,
       CLOUDFLARE_CONFIG cfg = before ++ (root, cf) :: after /\
       (exists prefix, domain = prefix +:+ root) /\
       Forall (fun entry => ~ exists prefix, domain = prefix +:+ entry.1)
              before) /\
  (get_cf_config_for_domain cfg domain fs past
     = (Ok None, fs, [Print (LogSkipping domain)]) <->
   Forall (fun entry => ~ exists prefix, domain = prefix +:+ entry.1)
          (CLOUDFLARE_CONFIG cfg)) /\
  (forall cf,
     CLOUDFLARE_CONFIG cfg = [("example.com", cf)] ->
     get_cf_config_for_domain cfg "app.example.com" fs past
       = (Ok (Some cf), fs, []) /\
     get_cf_config_for_domain cfg "example.com.evil.org" fs past
       = (Ok None, fs, [Print (LogSkipping "example.com.evil.org")])).
Proof.
  assert (Hends : forall l : list (string * cf_config),
            Forall (fun p => PyStr.endswith domain p.1 = false) l <->
            Forall (fun entry => ~ exists prefix, domain = prefix +:+ entry.1) l).
  { intros l. apply Forall_proper; [|reflexivity]. intros p.
    rewrite <- PyStrFacts.endswith_spec.
    destruct (PyStr.endswith domain p.1); split; congruence. }
  split; [|split].
  - intros cf. rewrite get_cf_config_for_domain_run.
    split.
    + intros H.
      destruct (find_root _ _ _) as [c|] eqn:E; [|discriminate].
      injection H as ->.
      apply find_root_Some in E as (l1 & root & l2 & E & Hroot & Hl1).
      exists l1, root, l2. split; [exact E|]. split.
      * apply PyStrFacts.endswith_spec, Hroot.
      * apply Hends, Hl1.
    + intros (l1 & root & l2 & E & Hroot & Hl1).
      assert (Hf : find_root (CLOUDFLARE_CONFIG cfg) (CLOUDFLARE_CONFIG cfg).*1
                     domain = Some cf).
      { apply find_root_Some. exists l1, root, l2. split; [exact E|]. split.
        - apply PyStrFacts.endswith_spec, Hroot.
        - apply Hends, Hl1. }
      rewrite Hf. reflexivity.
  - rewrite get_cf_config_for_domain_run, <- Hends, <- find_root_None.
    destruct (find_root _ _ _); split; congruence.
  - intros cf Hcfg. unfold get_cf_config_for_domain. rewrite Hcfg.
    split; reflexivity.
Qed.

(** ** Runs that end early or abort *)

Lemma no_public_ip_truthy ip :
  no_public_ip ip <-> PyStr.truthy (default EmptyString ip) = false.
Proof.
  unfold no_public_ip.
  destruct ip as [[|c s]|]; cbn; split; intros H; auto;
    try discriminate H; destruct H as [H|H]; discriminate H.
Qed.

(** The early exit: nothing appeared or disappeared, the IP is the last
    known one, the force flag is unset. *)
Lemma main_early_exit cfg answer recursion_limit FORCE_UPDATE fs past
    current ev1 ip ev2 :
  fetch_current_domains cfg answer fs past = (Ok current, fs, ev1) ->
  get_public_ip answer fs (past ++ ev1) = (Ok (Some ip), fs, ev2) ->
  ip ≠ EmptyString ->
  (forall d, d ∈ current <-> d ∈ previous_domains_of fs) ->
  last_known_ip_of fs = Some ip ->
  force_update_of FORCE_UPDATE = false ->
  exists evs,
    main cfg answer recursion_limit FORCE_UPDATE fs past = (Ok 0%Z, fs, evs) /\
    Forall (fun e => is_quiet e = true) evs.
Proof.
  intros E1 E2 Hip Hsame Hlast Hforce.
  destruct (main_run cfg answer recursion_limit FORCE_UPDATE fs past
              current fs ev1 ip fs ev2 E1 E2 Hip) as (evl & Hevl & Hmain).
  cbv zeta in Hmain.
  rewrite !list_difference_same_elements in Hmain
    by (intros x; apply Hsame).
  rewrite Hlast, Hforce, bool_decide_eq_true_2 in Hmain by reflexivity.
  cbn in Hmain.
  eexists. split; [exact Hmain|].
  pose proof (fetch_current_domains_quiet cfg answer fs past) as Q1.
  pose proof (get_public_ip_quiet answer fs (past ++ ev1)) as Q2.
  rewrite E1 in Q1. rewrite E2 in Q2. cbn in Q1, Q2.
  repeat (apply Forall_app; split); auto.
Qed.

Lemma quiet_events evs :
  Forall (fun e => is_quiet e = true) evs ->
  Forall (fun e => is_write e = false /\ is_dns_call e = false) evs.
Proof.
  intros H. eapply Forall_impl; [exact H|]. cbn.
  intros e [H1 H2]%andb_true_iff.
  split; apply negb_true_iff; assumption.
Qed.

(** C1: when the current set of host names equals the previous one, the
    last known IP is the current public IP and the force flag is unset,
    the run writes none of the three stores, calls the DNS provider not
    once, leaves the files as they were and returns 0. *)
Theorem early_exit_is_a_no_op
    (cfg : config) (answer : oracle) (recursion_limit : nat)
    (FORCE_UPDATE : option string) (fs : files) (past : list event)
    (current : list string) (ev1 : list event) (ip : string)
    (ev2 : list event) :
  fetch_current_domains cfg answer fs past = (Ok current, fs, ev1) ->
  get_public_ip answer fs (past ++ ev1) = (Ok (Some ip), fs, ev2) ->
  ip ≠ EmptyString ->
  (forall d, d ∈ current <-> d ∈ previous_domains_of fs) ->
  last_known_ip_of fs = Some ip ->
  force_update_of FORCE_UPDATE = false ->
  exists evs,
    main cfg answer recursion_limit FORCE_UPDATE fs past = (Ok 0%Z, fs, evs) /\
    Forall (fun e => is_write e = false /\ is_dns_call e = false) evs.
Proof.
  intros E1 E2 Hip Hsame Hlast Hforce.
  destruct (main_early_exit cfg answer recursion_limit FORCE_UPDATE fs past
              current ev1 ip ev2 E1 E2 Hip Hsame Hlast Hforce)
    as (evs & Hmain & Hquiet).
  exists evs. split; [exact Hmain|]. apply quiet_events, Hquiet.
Qed.

(** Every run: what [main] returns, case by case. *)
Lemma main_outcome (cfg : config) (answer : oracle) (recursion_limit : nat)
    (FORCE_UPDATE : option string) (fs : files) (past : list event) :
  (inventory_fails cfg answer fs past /\
   exists e evs,
     main cfg answer recursion_limit FORCE_UPDATE fs past = (Raise e, fs, evs) /\
     Forall (fun e => is_quiet e = true) evs) \/
  (public_ip_fails cfg answer fs past /\
   exists evs,
     main cfg answer recursion_limit FORCE_UPDATE fs past = (Ok 1%Z, fs, evs) /\
     Forall (fun e => is_quiet e = true) evs) \/
  (~ inventory_fails cfg answer fs past /\
   ~ public_ip_fails cfg answer fs past /\
   exists fs' evs,
     main cfg answer recursion_limit FORCE_UPDATE fs past = (Ok 0%Z, fs', evs)).
Proof.
  pose proof (fetch_current_domains_quiet cfg answer fs past) as Q1.
  destruct (fetch_current_domains cfg answer fs past)
    as [[[cur|e] fs1] ev1] eqn:E1; cbn in Q1.
  2:{ left. split.
      - exists e. rewrite E1. reflexivity.
      - exists e, ev1. split; [|exact Q1].
        eapply main_inventory_raises, E1. }
  right.
  pose proof (get_public_ip_quiet answer fs (past ++ ev1)) as Q2.
  destruct (get_public_ip_never_raises answer fs (past ++ ev1))
    as (ip & ev2 & E2).
  rewrite E2 in Q2. cbn in Q2.
  destruct (PyStr.truthy (default EmptyString ip)) eqn:Hip.
  - right.
    assert (Hno : ~ no_public_ip ip)
      by (rewrite no_public_ip_truthy; congruence).
    split; [|split].
    + intros [e He]. rewrite E1 in He. discriminate He.
    + intros (cur' & _ & ip' & Hip' & Hno'). rewrite E1 in Hip'.
      cbn in Hip'. rewrite E2 in Hip'. cbn in Hip'. congruence.
    + destruct ip as [ip|]; [|discriminate Hip].
      assert (Hne : ip ≠ EmptyString) by (intros ->; discriminate Hip).
      destruct (main_run cfg answer recursion_limit FORCE_UPDATE fs past
                  cur fs1 ev1 ip fs ev2 E1 E2 Hne) as (evl & _ & Hmain).
      cbv zeta in Hmain. rewrite Hmain.
      destruct (negb _ && negb _ && negb _); [eauto|].
      match goal with
      | |- context [update_cycle ?c ?a ?l ?cur ?cr ?de ?ipc ?f ?ip' ?fs' ?p] =>
          destruct (update_cycle_run c a l cur cr de ipc f ip' fs' p)
            as (m1 & evc & m2 & evd & _ & _ & ->)
      end.
      eauto.
  - left. split.
    + exists cur. rewrite E1. split; [reflexivity|]. exists ip. cbn.
      rewrite E2. split; [reflexivity|]. apply no_public_ip_truthy, Hip.
    + eexists. split; [eapply main_no_ip; eauto|].
      repeat (apply Forall_app; split); auto.
Qed.

(** C9: when the inventory fails or the IP lookup gives no address, the
    run writes none of the three stores and leaves the files exactly as
    they were. *)
Theorem fatal_failure_leaves_stores_untouched
    (cfg : config) (answer : oracle) (recursion_limit : nat)
    (FORCE_UPDATE : option string) (fs : files) (past : list event) :
  inventory_fails cfg answer fs past \/ public_ip_fails cfg answer fs past ->
  exists r evs,
    main cfg answer recursion_limit FORCE_UPDATE fs past = (r, fs, evs) /\
    Forall (fun e => is_write e = false) evs.
Proof.
  intros Hfail.
  assert (Hq : forall evs, Forall (fun e => is_quiet e = true) evs ->
                 Forall (fun e => is_write e = false) evs).
  { intros evs H. eapply Forall_impl; [exact H|].
    intros e [H' _]%andb_true_iff. apply negb_true_iff, H'. }
  destruct (main_outcome cfg answer recursion_limit FORCE_UPDATE fs past)
    as [(_ & e & evs & E & Q)|[(_ & evs & E & Q)|(H1 & H2 & _)]]; eauto.
  tauto.
Qed.


(** ** Runs that reach the update cycle *)

Lemma fetch_current_domains_NoDup cfg answer fs past cur fs1 ev1 :
  fetch_current_domains cfg answer fs past = (Ok cur, fs1, ev1) -> NoDup cur.
Proof.
  unfold fetch_current_domains, bind at 1.
  destruct (get_npm_token _ _ _ _) as [[[t|e] fs2] ev2]; [|discriminate].
  unfold bind.
  destruct (get_proxy_hosts _ _ _ _ _) as [[[j|e] fs3] ev3]; [|discriminate].
  destruct j; cbn; intros H; try discriminate H.
  injection H as <- _ _. apply NoDup_remove_dups.
Qed.

Lemma something_changed_test FORCE_UPDATE fs current ip :
  something_changed FORCE_UPDATE fs current ip ->
  negb ((0 <? length (list_difference current (previous_domains_of fs)))%nat
        || (0 <? length (list_difference (previous_domains_of fs) current))%nat)
  && negb (negb (bool_decide (last_known_ip_of fs = Some ip)))
  && negb (force_update_of FORCE_UPDATE) = false.
Proof.
  intros [H|[H|[H|H]]].
  - destruct (list_difference current _); [contradiction|reflexivity].
  - destruct (list_difference _ current); [contradiction|].
    cbn. rewrite orb_true_r. reflexivity.
  - rewrite (bool_decide_eq_false_2 _ H). cbn. rewrite andb_false_r.
    reflexivity.
  - rewrite H. cbn. rewrite andb_false_r. reflexivity.
Qed.

(** A run that enters the update cycle goes through both loops, writes the
    three stores and returns 0. *)
Lemma main_update_cycle cfg answer recursion_limit FORCE_UPDATE fs past
    cur ev1 ip ev2 :
  fetch_current_domains cfg answer fs past = (Ok cur, fs, ev1) ->
  get_public_ip answer fs (past ++ ev1) = (Ok (Some ip), fs, ev2) ->
  ip ≠ EmptyString ->
  something_changed FORCE_UPDATE fs cur ip ->
  exists evl m1 evc m2 evd,
    process_current cfg answer recursion_limit
      (list_difference cur (previous_domains_of fs))
      (negb (bool_decide (last_known_ip_of fs = Some ip)))
      (force_update_of FORCE_UPDATE) ip cur (stored_ips_of fs) fs
      (past ++ ev1 ++ ev2 ++ evl) = (Ok m1, fs, evc) /\
    process_deleted cfg answer (list_difference (previous_domains_of fs) cur)
      m1 fs ((past ++ ev1 ++ ev2 ++ evl) ++ evc) = (Ok m2, fs, evd) /\
    main cfg answer recursion_limit FORCE_UPDATE fs past
    = (Ok 0%Z,
       {| hosts_filename := Some (host_file_text cur);
          domain_ips_file := Some (Mapping m2);
          last_ip_file := Some ip |},
       ev1 ++ ev2 ++ evl ++ evc ++ evd
       ++ [WriteDomainIps m2; WriteHosts (host_file_text cur);
           WriteLastIp ip]).
Proof.
  intros E1 E2 Hip Hchanged.
  destruct (main_run cfg answer recursion_limit FORCE_UPDATE fs past
              cur fs ev1 ip fs ev2 E1 E2 Hip) as (evl & _ & Hmain).
  cbv zeta in Hmain.
  rewrite (something_changed_test _ _ _ _ Hchanged) in Hmain.
  match type of Hmain with
  | context [update_cycle ?c ?a ?l ?cur' ?cr ?de ?ipc ?f ?ip' ?fs' ?p] =>
      destruct (update_cycle_run c a l cur' cr de ipc f ip' fs' p)
        as (m1 & evc & m2 & evd & Ec & Ed & Eu)
  end.
  rewrite Eu in Hmain.
  exists evl, m1, evc, m2, evd. auto.
Qed.

(** C4, as the script has it: a host name that left the inventory and
    resolves to a routing configuration is absent from the persisted
    domain-to-IP record after the run, whatever the provider answered to
    the delete. *)
Theorem deleted_routable_hostname_is_forgotten
    (cfg : config) (answer : oracle) (recursion_limit : nat)
    (FORCE_UPDATE : option string) (fs : files) (past : list event)
    (current : list string) (ev1 : list event) (ip : string)
    (ev2 : list event) (h : string) (cf : cf_config) :
  fetch_current_domains cfg answer fs past = (Ok current, fs, ev1) ->
  get_public_ip answer fs (past ++ ev1) = (Ok (Some ip), fs, ev2) ->
  ip ≠ EmptyString ->
  h ∈ previous_domains_of fs ->
  h ∉ current ->
  find_root (CLOUDFLARE_CONFIG cfg) (CLOUDFLARE_CONFIG cfg).*1 h = Some cf ->
  exists fs' evs m,
    main cfg answer recursion_limit FORCE_UPDATE fs past = (Ok 0%Z, fs', evs) /\
    domain_ips_file fs' = Some (Mapping m) /\
    m !! h = None.
Proof.
  intros E1 E2 Hip Hprev Hcur Hroute.
  assert (Hdel : h ∈ list_difference (previous_domains_of fs) current)
    by (apply list_elem_of_difference; auto).
  assert (Hchanged : something_changed FORCE_UPDATE fs current ip).
  { right. left. intros E. rewrite E in Hdel. apply elem_of_nil in Hdel as []. }
  destruct (main_update_cycle cfg answer recursion_limit FORCE_UPDATE fs past
              current ev1 ip ev2 E1 E2 Hip Hchanged)
    as (evl & m1 & evc & m2 & evd & Ec & Ed & Emain).
  destruct (process_deleted_run cfg answer
              (list_difference (previous_domains_of fs) current) m1 fs
              ((past ++ ev1 ++ ev2 ++ evl) ++ evc))
    as (m2' & evd' & Ed' & _ & _ & Hgone).
  rewrite Ed in Ed'. injection Ed' as <- <-.
  do 3 eexists. split; [exact Emain|]. split; [reflexivity|].
  apply Hgone; [exact Hdel|]. rewrite Hroute. discriminate.
Qed.

Lemma bind_head {A B} (m : M A) (k : A -> M B) fs past e :
  (exists r fs1 evs, m fs past = (r, fs1, e :: evs)) ->
  exists r fs2 evs, bind m k fs past = (r, fs2, e :: evs).
Proof.
  intros (r & fs1 & evs & E). unfold bind. rewrite E.
  destruct r as [a|x]; [|eauto].
  destruct (k a fs1 _) as [[r2 fs2] ev2]. cbn. eauto.
Qed.

(** A create attempt opens with the lookup of the existing A records. *)
Lemma create_cloudflare_a_record_head answer depth domain ip cf fs past :
  exists r fs1 evs,
    create_cloudflare_a_record answer (S depth) domain ip cf fs past
    = (r, fs1,
       Request (CfList (ZONE_ID cf) (API_TOKEN cf) "A" domain) :: evs).
Proof.
  cbn [create_cloudflare_a_record].
  unfold check_cloudflare_record_exists, list_a_records.
  do 3 apply bind_head.
  unfold http. destruct (answer past _); eauto.
Qed.

(** The run of the first loop splits around the run of its body on each
    name it visits: the body runs on a dict that agrees with the initial
    one at that name, after the events of the names before it, and no later
    iteration touches the entry it leaves. *)
Lemma process_current_split cfg answer recursion_limit created ipc force ip
    doms h :
  forall (stored : gmap string string) fs past,
  NoDup doms -> h ∈ doms ->
  exists stored_h pre m_h evs_h post m',
    process_current cfg answer recursion_limit created ipc force ip doms
      stored fs past = (Ok m', fs, pre ++ evs_h ++ post) /\
    process_domain cfg answer recursion_limit created ipc force ip h
      stored_h fs (past ++ pre) = (Ok m_h, fs, evs_h) /\
    stored_h !! h = stored !! h /\
    m' !! h = m_h !! h.
Proof.
  induction doms as [|d rest IH]; intros stored fs past Hnd Hin.
  - apply elem_of_nil in Hin as [].
  - apply NoDup_cons in Hnd as [Hd Hnd].
    cbn [process_current].
    destruct (process_domain_run cfg answer recursion_limit created ipc force
                ip d stored fs past) as (m1 & ev1 & E1 & H1).
    destruct (decide (h = d)) as [->|Hne].
    + destruct (process_current_run cfg answer recursion_limit created ipc
                  force ip rest m1 fs (past ++ ev1)) as (m2 & ev2 & E2 & H2).
      exists stored, [], m1, ev1, ev2, m2.
      split; [|split; [|split]].
      * rewrite (bind_run _ _ _ _ _ _ _ E1), E2. reflexivity.
      * rewrite app_nil_r. exact E1.
      * reflexivity.
      * apply H2, Hd.
    + apply elem_of_cons in Hin as [?|Hin]; [contradiction|].
      destruct (IH m1 fs (past ++ ev1) Hnd Hin)
        as (stored_h & pre & m_h & evs_h & post & m2 & E2 & Eh & Hs & Hm).
      exists stored_h, (ev1 ++ pre), m_h, evs_h, post, m2.
      split; [|split; [|split]].
      * rewrite (bind_run _ _ _ _ _ _ _ E1), E2, <- app_assoc. reflexivity.
      * rewrite app_assoc. exact Eh.
      * rewrite Hs. destruct H1 as [->| ->]; [reflexivity|].
        apply lookup_insert_ne. congruence.
      * exact Hm.
Qed.

(** A run that enters the update cycle splits around the run of the body
    of the first loop on each current host name: the body runs after the
    events before it, on a dict that agrees with the stored one at that
    name, and leaves for that name the entry the run persists. *)
Lemma main_first_loop_focus cfg answer recursion_limit FORCE_UPDATE fs past
    current ev1 ip ev2 h :
  fetch_current_domains cfg answer fs past = (Ok current, fs, ev1) ->
  get_public_ip answer fs (past ++ ev1) = (Ok (Some ip), fs, ev2) ->
  ip ≠ EmptyString ->
  something_changed FORCE_UPDATE fs current ip ->
  h ∈ current ->
  exists fs' pre stored_h m_h evs_h post,
    main cfg answer recursion_limit FORCE_UPDATE fs past
    = (Ok 0%Z, fs', pre ++ evs_h ++ post) /\
    process_domain cfg answer recursion_limit
      (list_difference current (previous_domains_of fs))
      (negb (bool_decide (last_known_ip_of fs = Some ip)))
      (force_update_of FORCE_UPDATE) ip h stored_h fs (past ++ pre)
    = (Ok m_h, fs, evs_h) /\
    stored_h !! h = stored_ips_of fs !! h /\
    stored_ips_of fs' !! h = m_h !! h.
Proof.
  intros E1 E2 Hip Hchanged Hcur.
  destruct (main_update_cycle cfg answer recursion_limit FORCE_UPDATE fs past
              current ev1 ip ev2 E1 E2 Hip Hchanged)
    as (evl & m1 & evc & m2 & evd & Ec & Ed & Emain).
  destruct (process_current_split cfg answer recursion_limit
              (list_difference current (previous_domains_of fs))
              (negb (bool_decide (last_known_ip_of fs = Some ip)))
              (force_update_of FORCE_UPDATE) ip current h
              (stored_ips_of fs) fs (past ++ ev1 ++ ev2 ++ evl)
              (fetch_current_domains_NoDup _ _ _ _ _ _ _ E1) Hcur)
    as (stored_h & pre & m_h & evs_h & post & m1' & Ec' & Eh & Hs & Hm).
  rewrite Ec in Ec'. injection Ec' as <- ->.
  destruct (process_deleted_run cfg answer
              (list_difference (previous_domains_of fs) current) m1 fs
              ((past ++ ev1 ++ ev2 ++ evl) ++ pre ++ evs_h ++ post))
    as (m2' & evd' & Ed' & Hkeep & _ & _).
  rewrite Ed in Ed'. injection Ed' as <- <-.
  eexists.
  exists (ev1 ++ ev2 ++ evl ++ pre), stored_h, m_h, evs_h,
    (post ++ evd ++ [WriteDomainIps m2; WriteHosts (host_file_text current);
                     WriteLastIp ip]).
  split; [|split; [|split]].
  - rewrite Emain, <- !app_assoc. reflexivity.
  - rewrite <- Eh, <- !app_assoc. reflexivity.
  - exact Hs.
  - cbn [stored_ips_of domain_ips_file]. rewrite <- Hm.
    apply Hkeep. rewrite list_elem_of_difference. tauto.
Qed.

(** ** Two runs in a row *)

Section Stateless.
Context {A B : Type}.

Lemma stateless_run (m : M A) fs past r fs1 evs :
  stateless m -> m fs past = (r, fs1, evs) ->
  forall fs' past', m fs' past' = (r, fs', evs).
Proof.
  intros H E fs' past'. rewrite (H fs' fs past' past), E. reflexivity.
Qed.

Lemma stateless_ret (a : A) : stateless (ret a).
Proof. intros fs fs' past past'. reflexivity. Qed.

Lemma stateless_raise e : stateless (@raise A e).
Proof. intros fs fs' past past'. reflexivity. Qed.

Lemma stateless_bind (m : M A) (k : A -> M B) :
  stateless m -> (forall a, stateless (k a)) -> stateless (bind m k).
Proof.
  intros Hm Hk fs fs' past past'. unfold bind.
  rewrite (Hm fs fs' past past').
  destruct (m fs' past') as [[[a|e] fs1] ev1]; cbn; [|reflexivity].
  rewrite (Hk a fs fs1 (past ++ ev1) (past' ++ ev1)).
  destruct (k a fs1 (past' ++ ev1)) as [[r2 fs2] ev2]. reflexivity.
Qed.

Lemma stateless_try_except (m : M A) sel handler :
  stateless m -> (forall e, stateless (handler e)) ->
  stateless (try_except m sel handler).
Proof.
  intros Hm Hh fs fs' past past'. unfold try_except.
  rewrite (Hm fs fs' past past').
  destruct (m fs' past') as [[[a|e] fs1] ev1]; cbn; [reflexivity|].
  destruct (sel e); [|reflexivity].
  rewrite (Hh e fs fs1 (past ++ ev1) (past' ++ ev1)).
  destruct (handler e fs1 (past' ++ ev1)) as [[r2 fs2] ev2]. reflexivity.
Qed.

End Stateless.

Lemma stateless_print l : stateless (print l).
Proof. intros fs fs' past past'. reflexivity. Qed.

Ltac stateless_step :=
  first
    [ solve [auto with obl nocore]
    | apply stateless_ret | apply stateless_raise | apply stateless_print
    | apply stateless_bind; [|intros ?]
    | apply stateless_try_except; [|intros ?]
    | match goal with
      | |- stateless (match ?x with _ => _ end) => destruct x
      | |- stateless (if ?x then _ else _) => destruct x
      end ].

Ltac stateless := repeat stateless_step.

Section StableInventory.
Context (cfg : config) (answer : oracle).
Hypothesis Hstable : stable_inventory answer.

Lemma stateless_http r : is_dns_request r = false -> stateless (http answer r).
Proof.
  intros Hr fs fs' past past'. unfold http.
  rewrite (Hstable past past' r Hr). destruct (answer past' r); reflexivity.
Qed.

Lemma stateless_raise_for_status response :
  stateless (raise_for_status response).
Proof. unfold raise_for_status. stateless. Qed.

Lemma stateless_response_json response : stateless (response_json response).
Proof. unfold response_json. stateless. Qed.

Lemma stateless_subscript {A} (want : json -> option A) j :
  stateless (subscript want j).
Proof. unfold subscript. destruct (want j); destruct j; stateless. Qed.

Hint Resolve stateless_raise_for_status stateless_response_json
  stateless_subscript : obl.

Lemma stateless_fetch_current_domains :
  stateless (fetch_current_domains cfg answer).
Proof.
  unfold fetch_current_domains, get_npm_token, get_proxy_hosts,
    domain_names.
  stateless; apply stateless_http; reflexivity.
Qed.

Lemma stateless_get_public_ip : stateless (get_public_ip answer).
Proof.
  unfold get_public_ip. stateless; apply stateless_http; reflexivity.
Qed.

End StableInventory.

Section WellFormedInventory.
Context (cfg : config) (answer : oracle).
Hypothesis Hwf : well_formed_inventory answer.

Lemma fetch_current_domains_wf fs past cur fs1 ev1 :
  fetch_current_domains cfg answer fs past = (Ok cur, fs1, ev1) ->
  Forall (fun h => wf_name h = true) cur.
Proof.
  unfold fetch_current_domains, bind at 1.
  destruct (get_npm_token _ _ _ _) as [[[t|e] fs2] ev2]; [|discriminate].
  unfold get_proxy_hosts, bind, http.
  destruct (answer _ _) as [response|] eqn:Ea; [|discriminate].
  specialize (Hwf _ _ _ Ea).
  unfold raise_for_status, response_json.
  destruct (_ && _); [discriminate|]. cbn.
  destruct (body response) as [[]|]; cbn; try discriminate.
  intros [= <- _ _].
  apply Forall_forall. intros h Hh.
  apply elem_of_remove_dups, list_elem_of_In, in_concat in Hh
    as (l & Hl & Hh).
  apply list_elem_of_In in Hl, Hh.
  rewrite Forall_forall in Hwf. specialize (Hwf l Hl).
  rewrite Forall_forall in Hwf. auto.
Qed.

Lemma get_public_ip_wf fs past ip fs1 ev1 :
  get_public_ip answer fs past = (Ok (Some ip), fs1, ev1) ->
  PyStr.no_space ip = true.
Proof.
  unfold get_public_ip, try_except, bind, http.
  destruct (answer _ _) as [response|] eqn:Ea; [|discriminate].
  specialize (Hwf _ _ _ Ea).
  unfold raise_for_status, response_json.
  destruct (_ && _); [discriminate|]. cbn.
  destruct (body response) as [[]|]; cbn; try discriminate.
  intros [= <- _ _]. exact Hwf.
Qed.

End WellFormedInventory.

(** With an inventory and a public IP that do not change and come back
    from the files as they were written, the run that follows a run makes
    no call to the DNS provider and leaves the files as the first run left
    them: the first run either changed nothing or persisted the current
    host names and the current IP, so the second one finds no difference. *)
Lemma second_run_is_quiet
    (cfg : config) (answer : oracle) (recursion_limit : nat)
    (FORCE_UPDATE : option string) (fs : files) (past : list event)
    (r1 : result Z) (fs1 : files) (evs1 : list event)
    (r2 : result Z) (fs2 : files) (evs2 : list event) :
  stable_inventory answer ->
  well_formed_inventory answer ->
  force_update_of FORCE_UPDATE = false ->
  main cfg answer recursion_limit FORCE_UPDATE fs past = (r1, fs1, evs1) ->
  main cfg answer recursion_limit FORCE_UPDATE fs1 (past ++ evs1)
    = (r2, fs2, evs2) ->
  Forall (fun e => is_dns_call e = false) evs2 /\ fs2 = fs1.
Proof.
  intros Hstable Hwf Hforce Run1 Run2.
  assert (Hq : forall evs, Forall (fun e => is_quiet e = true) evs ->
                 Forall (fun e => is_dns_call e = false) evs).
  { intros evs H. apply quiet_events in H.
    eapply Forall_impl; [exact H|]. cbn. tauto. }
  pose proof (stateless_fetch_current_domains cfg answer Hstable) as Sf.
  pose proof (stateless_get_public_ip answer Hstable) as Si.
  pose proof (fetch_current_domains_quiet cfg answer fs past) as Q1.
  destruct (fetch_current_domains cfg answer fs past)
    as [[[cur|e] f1] ev1] eqn:E1; cbn in Q1.
  2:{ (* the inventory fails in both runs *)
      rewrite (main_inventory_raises _ _ _ _ _ _ _ _ _ E1) in Run1.
      injection Run1 as <- <- <-.
      pose proof (stateless_run _ _ _ _ _ _ Sf E1 fs (past ++ ev1)) as E1'.
      rewrite (main_inventory_raises _ _ _ _ _ _ _ _ _ E1') in Run2.
      injection Run2 as <- <- <-. auto. }
  pose proof (stateless_run _ _ _ _ _ _ Sf E1 fs past) as E1f.
  pose proof (get_public_ip_quiet answer fs (past ++ ev1)) as Q2.
  destruct (get_public_ip_never_raises answer fs (past ++ ev1))
    as (ip & ev2 & E2).
  rewrite E2 in Q2. cbn in Q2.
  destruct (PyStr.truthy (default EmptyString ip)) eqn:Hip.
  2:{ (* no public IP in both runs *)
      rewrite (main_no_ip _ _ _ _ _ _ _ _ _ _ _ _ E1 E2 Hip) in Run1.
      injection Run1 as <- <- <-.
      pose proof (stateless_run _ _ _ _ _ _ Sf E1 fs
                    (past ++ ev1 ++ ev2 ++ [Print LogAborting])) as E1'.
      pose proof (stateless_run _ _ _ _ _ _ Si E2 fs
                    ((past ++ ev1 ++ ev2 ++ [Print LogAborting]) ++ ev1))
        as E2'.
      rewrite (main_no_ip _ _ _ _ _ _ _ _ _ _ _ _ E1' E2' Hip) in Run2.
      injection Run2 as <- <- <-. split; [|reflexivity].
      apply Hq. repeat (apply Forall_app; split); auto. }
  destruct ip as [ip|]; [|discriminate Hip].
  assert (Hne : ip ≠ EmptyString) by (intros ->; discriminate Hip).
  pose proof (fetch_current_domains_wf cfg answer Hwf _ _ _ _ _ E1) as Wcur.
  pose proof (get_public_ip_wf answer Hwf _ _ _ _ _ E2) as Wip.
  pose proof (fetch_current_domains_NoDup _ _ _ _ _ _ _ E1) as Ncur.
  assert (Run2' : exists evs,
            main cfg answer recursion_limit FORCE_UPDATE fs1 (past ++ evs1)
              = (Ok 0%Z, fs1, evs) /\
            Forall (fun e => is_quiet e = true) evs).
  { pose proof (stateless_run _ _ _ _ _ _ Sf E1 fs1 (past ++ evs1)) as E1'.
    pose proof (stateless_run _ _ _ _ _ _ Si E2 fs1 ((past ++ evs1) ++ ev1))
      as E2'.
    destruct (main_run cfg answer recursion_limit FORCE_UPDATE fs past
                cur fs ev1 ip fs ev2 E1f E2 Hne) as (evl & _ & Hmain).
    cbv zeta in Hmain. rewrite Run1 in Hmain.
    destruct (negb _ && negb _ && negb _) eqn:Hearly.
    - (* the first run left early: so does the second *)
      injection Hmain as -> -> ->.
      destruct (main_run cfg answer recursion_limit FORCE_UPDATE fs
                  (past ++ ev1 ++ ev2 ++ evl ++ [Print LogNoChanges])
                  cur fs ev1 ip fs ev2 E1' E2' Hne) as (evl' & Q' & Hmain').
      cbv zeta in Hmain'. rewrite Hearly in Hmain'.
      eexists. split; [exact Hmain'|].
      repeat (apply Forall_app; split); auto.
    - (* the first run wrote the stores: the second reads them back *)
      match type of Hmain with
      | context [update_cycle ?c ?a ?l ?cur' ?cr ?de ?ipc ?f ?ip' ?fs' ?p] =>
          destruct (update_cycle_run c a l cur' cr de ipc f ip' fs' p)
            as (m1 & evc & m2 & evd & _ & _ & Eu)
      end.
      rewrite Eu in Hmain. injection Hmain as -> -> ->.
      eapply main_early_exit; eauto.
      + intros d.
        erewrite (previous_domains_roundtrip _ cur); [reflexivity| |assumption..].
        reflexivity.
      + unfold last_known_ip_of. cbn.
        rewrite (PyStrFacts.strip_no_space _ Wip). reflexivity. }
  destruct Run2' as (evs & Run2' & Q).
  rewrite Run2 in Run2'. injection Run2' as -> -> ->. auto.
Qed.

Lemma plain_inventory_well_formed answer :
  plain_inventory answer -> well_formed_inventory answer.
Proof.
  intros H past r response Ea. specialize (H past r response Ea).
  destruct (body response) as [[]|]; try exact I.
  - eapply Forall_impl; [exact H|]. intros l Hl.
    eapply Forall_impl; [exact Hl|]. intros h Hh.
    apply andb_true_iff in Hh as [Hh _]. exact Hh.
  - apply andb_true_iff in H as [H _]. exact H.
Qed.


(** ** The DNS client *)

Section DnsClient.
Context (answer : oracle) (cf : cf_config) (domain ip : string).

Lemma list_a_records_run results fs past :
  provider_lists answer cf domain results ->
  list_a_records answer domain cf fs past
  = (Ok results, fs,
     [Request (CfList (ZONE_ID cf) (API_TOKEN cf) "A" domain)]).
Proof.
  intros H. destruct (H past) as (response & Ea & Hstatus & Hbody).
  unfold list_a_records, bind, http, raise_for_status, response_json.
  rewrite Ea, Hstatus. cbn. rewrite Hbody. reflexivity.
Qed.

Lemma update_records_run results :
  updates_answered answer ->
  forall fs past, exists evs,
    update_records answer domain ip cf results fs past = (Ok tt, fs, evs) /\
    requests_of evs
    = (fun record =>
         CfPut (ZONE_ID cf) (API_TOKEN cf) (fmt_id (rec_id record))
               (a_record_for domain ip))
      <$> filter (fun record => rec_content record ≠ Some ip) results.
Proof.
  intros Hput. induction results as [|record rest IH]; intros fs past.
  - exists []. split; reflexivity.
  - cbn [update_records].
    destruct (decide (rec_content record = Some ip)) as [Hsame|Hdiff].
    + rewrite (bool_decide_eq_true_2 _ Hsame). cbn [negb].
      rewrite filter_cons_False by tauto.
      destruct (IH fs (past ++ [Print (LogAlreadyCorrect domain ip)]))
        as (evs & E & Hreq).
      exists (Print (LogAlreadyCorrect domain ip) :: evs). split.
      * unfold bind at 1. cbn [print emit]. rewrite E. reflexivity.
      * cbn. exact Hreq.
    + rewrite (bool_decide_eq_false_2 _ Hdiff). cbn [negb].
      rewrite filter_cons_True by exact Hdiff.
      destruct (Hput past (ZONE_ID cf) (API_TOKEN cf)
                  (fmt_id (rec_id record)) (a_record_for domain ip))
        as (response & Ea & Hresp).
      assert (Hstep : exists evs1,
        bind (http answer (CfPut (ZONE_ID cf) (API_TOKEN cf)
                 (fmt_id (rec_id record)) (a_record_for domain ip)))
          (fun update_response =>
             try_except
               (raise_for_status update_response;;
                print (LogUpdated domain ip))
               http_error
               (fun _ =>
                  error_detail <- response_json update_response;;
                  print (LogUpdateFailed domain (status_code update_response));;
                  print (LogDetails error_detail))) fs past
        = (Ok tt, fs, evs1) /\
        requests_of evs1
        = [CfPut (ZONE_ID cf) (API_TOKEN cf) (fmt_id (rec_id record))
             (a_record_for domain ip)]).
      { unfold bind, http, try_except, raise_for_status, response_json.
        rewrite Ea.
        destruct ((400 <=? status_code response)
                  && (status_code response <? 600))%Z; cbn.
        - destruct Hresp as [?|Hbody]; [discriminate|].
          destruct (body response); [|contradiction]. cbn. eauto.
        - eauto. }
      destruct Hstep as (evs1 & E1 & Hreq1).
      destruct (IH fs (past ++ evs1)) as (evs & E & Hreq).
      exists (evs1 ++ evs). split.
      * rewrite (bind_run _ _ _ _ _ _ _ E1), E. reflexivity.
      * unfold requests_of in *. rewrite omap_app, Hreq1, Hreq.
        reflexivity.
Qed.

Lemma check_cloudflare_record_exists_run results fs past :
  provider_lists answer cf domain results ->
  check_cloudflare_record_exists answer domain cf fs past
  = (Ok (0 <? length results)%nat, fs,
     [Request (CfList (ZONE_ID cf) (API_TOKEN cf) "A" domain)]).
Proof.
  intros H. unfold check_cloudflare_record_exists.
  rewrite (bind_run _ _ _ _ _ _ _ (list_a_records_run _ _ _ H)).
  reflexivity.
Qed.

(** No record: the lookup, then the create, then log lines only. *)
Lemma create_run_empty depth fs past :
  provider_lists answer cf domain [] ->
  exists r evs,
    create_cloudflare_a_record answer (S depth) domain ip cf fs past
    = (r, fs,
       Request (CfList (ZONE_ID cf) (API_TOKEN cf) "A" domain)
       :: Request (CfPost (ZONE_ID cf) (API_TOKEN cf)
                          (a_record_for domain ip))
       :: evs) /\
    requests_of evs = [].
Proof.
  intros H. cbn [create_cloudflare_a_record].
  rewrite (bind_run _ _ _ _ _ _ _
             (check_cloudflare_record_exists_run _ _ _ H)).
  cbn [length Nat.ltb Nat.leb].
  unfold bind, http, try_except, raise_for_status, response_json, print,
    emit, ret, raise.
  repeat (case_match; simplify_eq/=); do 2 eexists; split; reflexivity.
Qed.

(** Some records: the lookup, a second lookup, then the updates. *)
Lemma create_run_existing depth record rest fs past :
  provider_lists answer cf domain (record :: rest) ->
  updates_answered answer ->
  exists evs,
    create_cloudflare_a_record answer (S (S depth)) domain ip cf fs past
    = (Ok tt, fs,
       Request (CfList (ZONE_ID cf) (API_TOKEN cf) "A" domain)
       :: Print (LogRecordExists domain)
       :: Request (CfList (ZONE_ID cf) (API_TOKEN cf) "A" domain)
       :: evs) /\
    requests_of evs
    = (fun record =>
         CfPut (ZONE_ID cf) (API_TOKEN cf) (fmt_id (rec_id record))
               (a_record_for domain ip))
      <$> filter (fun record => rec_content record ≠ Some ip)
                 (record :: rest).
Proof.
  intros H Hput. cbn [create_cloudflare_a_record].
  rewrite (bind_run _ _ _ _ _ _ _
             (check_cloudflare_record_exists_run _ _ _ H)).
  cbn [length Nat.ltb Nat.leb update_cloudflare_a_record].
  unfold bind at 1. cbn [print emit].
  rewrite (bind_run _ _ _ _ _ _ _ (list_a_records_run _ _ _ H)).
  match goal with
  | |- context [update_records _ _ _ _ _ ?fs' ?past'] =>
      destruct (update_records_run (record :: rest) Hput fs' past')
        as (evs & E & Hreq)
  end.
  rewrite E. exists evs. split; [reflexivity|exact Hreq].
Qed.

End DnsClient.

(** C8, as the script has it: against a provider that answers the lookups
    of the host name with the same records and answers every update, with a
    success or with an error that has a JSON body,
    [create_cloudflare_a_record] first asks for the A records of the host
    name.  With no record it posts one A record with type A, TTL 3600,
    proxied and the IP as content, and makes no other request.  With
    records it looks them up again and goes through all of them: one
    update, with the same body, for each record whose content differs from
    the IP, in order, and no request for a record whose content is the IP;
    the call then returns normally. *)
Theorem create_or_update_reconciles_every_record
    (answer : oracle) (depth : nat) (domain ip : string) (cf : cf_config)
    (results : list dns_record) (fs : files) (past : list event) :
  provider_lists answer cf domain results ->
  updates_answered answer ->
  let run :=
    create_cloudflare_a_record answer (S (S depth)) domain ip cf fs past in
  let lookup := CfList (ZONE_ID cf) (API_TOKEN cf) "A" domain in
  let data :=
    {| rtype := "A"; name := domain; content := ip;
       ttl := 3600%Z; proxied := true |} in
  match results with
  | [] => requests_of run.2 = [lookup; CfPost (ZONE_ID cf) (API_TOKEN cf) data]
  | _ :: _ =>
      run.1.1 = Ok tt /\
      requests_of run.2
      = lookup :: lookup ::
        ((fun record =>
            CfPut (ZONE_ID cf) (API_TOKEN cf) (fmt_id (rec_id record)) data)
         <$> filter (fun record => rec_content record ≠ Some ip) results)
  end.
Proof.
  intros Hlist Hput. cbv zeta.
  destruct results as [|record rest].
  - destruct (create_run_empty answer cf domain ip (S depth) fs past Hlist)
      as (r & evs & -> & Hreq).
    cbn [fst snd].
    change (requests_of (Request ?a :: Request ?b :: evs))
      with (a :: b :: requests_of evs).
    rewrite Hreq. reflexivity.
  - destruct (create_run_existing answer cf domain ip depth record rest fs
                past Hlist Hput) as (evs & -> & Hreq).
    cbn [fst snd]. split; [reflexivity|].
    change (requests_of (Request ?a :: Print ?b :: Request ?c :: evs))
      with (a :: c :: requests_of evs).
    rewrite Hreq. reflexivity.
Qed.

(** ** The claims on example installations *)

Lemma stable_services hosts ip dns :
  stable_inventory (Scenario.services hosts ip dns).
Proof. intros past past' r Hr. reflexivity. Qed.

Lemma plain_services hosts ip dns :
  Forall (Forall (fun h => plain_name h = true)) hosts ->
  PyStr.no_space ip && PyStr.ascii_text ip = true ->
  (forall r, match dns r with
             | Some {| body := Some (JHosts _) |}
             | Some {| body := Some (JIp _) |} => False
             | _ => True
             end) ->
  plain_inventory (Scenario.services hosts ip dns).
Proof.
  intros Hhosts Hip Hdns past r response.
  unfold Scenario.services, Scenario.ok.
  destruct r;
    first
      [ intros [= <-]; cbn; solve [auto]
      | intros E;
        match type of E with dns ?r = _ => specialize (Hdns r) end;
        rewrite E in Hdns; destruct response as [code [[]|]]; cbn; tauto ].
Qed.

Lemma triple_eta {A B C} (p : A * B * C) : p = (p.1.1, p.1.2, p.2).
Proof. destruct p as [[a b] c]. reflexivity. Qed.

Lemma early_exit_is_a_no_op_witness :
  let answer :=
    Scenario.services [["a.example.com"]] "1.1.1.1" Scenario.empty_provider in
  let fs := Scenario.tracking "a.example.com" "1.1.1.1" "1.1.1.1" in
  exists evs,
    main Scenario.cfg answer 5 None fs [] = (Ok 0%Z, fs, evs) /\
    Forall (fun e => is_write e = false /\ is_dns_call e = false) evs.
Proof.
  cbv zeta.
  eapply (early_exit_is_a_no_op Scenario.cfg _ 5 None _ []
            ["a.example.com"] _ "1.1.1.1" _).
  - vm_compute. reflexivity.
  - vm_compute. reflexivity.
  - discriminate.
  - intros d. vm_compute previous_domains_of. reflexivity.
  - vm_compute. reflexivity.
  - vm_compute. reflexivity.
Defined.


Lemma get_cf_config_for_domain_first_suffix_match_witness :
  get_cf_config_for_domain Scenario.cfg "app.example.com" Scenario.first_run []
    = (Ok (Some Scenario.zone), Scenario.first_run, []) /\
  get_cf_config_for_domain Scenario.cfg "example.com.evil.org"
    Scenario.first_run []
    = (Ok None, Scenario.first_run,
       [Print (LogSkipping "example.com.evil.org")]).
Proof.
  apply (get_cf_config_for_domain_first_suffix_match Scenario.cfg
           "app.example.com" Scenario.first_run []).
  reflexivity.
Defined.

Lemma fatal_failure_leaves_stores_untouched_witness :
  let answer := Scenario.locked_out "1.1.1.1" in
  let fs := Scenario.tracking "a.example.com" "9.9.9.9" "9.9.9.9" in
  inventory_fails Scenario.cfg answer fs [] /\
  exists r evs,
    main Scenario.cfg answer 5 None fs [] = (r, fs, evs) /\
    Forall (fun e => is_write e = false) evs.
Proof.
  intros answer fs.
  assert (H : inventory_fails Scenario.cfg answer fs [])
    by (exists HTTPError; vm_compute; reflexivity).
  split; [exact H|].
  apply (fatal_failure_leaves_stores_untouched Scenario.cfg answer 5 None
           fs []).
  left. exact H.
Defined.



Lemma deleted_routable_hostname_is_forgotten_witness :
  let answer := Scenario.services [] "1.1.1.1" Scenario.broken_provider in
  let fs := Scenario.tracking "old.example.com" "1.1.1.1" "1.1.1.1" in
  exists fs' evs m,
    main Scenario.cfg answer 5 None fs [] = (Ok 0%Z, fs', evs) /\
    domain_ips_file fs' = Some (Mapping m) /\
    m !! "old.example.com" = None.
Proof.
  intros answer fs.
  eapply (deleted_routable_hostname_is_forgotten Scenario.cfg answer 5 None
            fs [] [] _ "1.1.1.1" _ "old.example.com" Scenario.zone).
  - vm_compute. reflexivity.
  - vm_compute. reflexivity.
  - discriminate.
  - vm_compute previous_domains_of. left.
  - apply not_elem_of_nil.
  - vm_compute. reflexivity.
Defined.

(** C4 as stated fails: a host name that left the inventory and matches no
    configured root keeps its entry in the persisted record. *)
Lemma deleted_unroutable_hostname_counterexample :
  let answer := Scenario.services [] "1.1.1.1" Scenario.empty_provider in
  let fs := Scenario.tracking "old.other.org" "1.1.1.1" "1.1.1.1" in
  let run := main Scenario.cfg answer 5 None fs [] in
  previous_domains_of fs = ["old.other.org"] /\
  (fetch_current_domains Scenario.cfg answer fs []).1.1 = Ok [] /\
  run.1.1 = Ok 0%Z /\
  requests_of run.2
    = [NpmToken "http://npm:81" "admin@example.com" "changeme";
       NpmProxyHosts "http://npm:81" "jwt"; IpifyGet] /\
  domain_ips_file run.1.2
    = Some (Mapping {[ "old.other.org" := "1.1.1.1" ]}) /\
  stored_ips_of run.1.2 !! "old.other.org" = Some "1.1.1.1".
Proof. cbv zeta. repeat split; vm_compute; reflexivity. Qed.

(** C3 as stated fails: the stored IP of the host name differs from the
    public IP, but the public IP is the last known one and no host name
    changed, so the run ends early, returns 0 and leaves the stale entry. *)
Lemma stale_hostname_early_exit_counterexample :
  let answer :=
    Scenario.services [["a.example.com"]] "2.2.2.2" Scenario.stale_provider in
  let fs := Scenario.tracking "a.example.com" "1.1.1.1" "2.2.2.2" in
  let run := main Scenario.cfg answer 5 None fs [] in
  previous_domains_of fs = ["a.example.com"] /\
  (fetch_current_domains Scenario.cfg answer fs []).1.1
    = Ok ["a.example.com"] /\
  stored_ips_of fs !! "a.example.com" = Some "1.1.1.1" /\
  (get_public_ip answer fs []).1.1 = Ok (Some "2.2.2.2") /\
  run.1.1 = Ok 0%Z /\
  stored_ips_of run.1.2 !! "a.example.com" = Some "1.1.1.1" /\
  stored_ips_of run.1.2 !! "a.example.com" ≠ Some "2.2.2.2".
Proof. cbv zeta. repeat split; vm_compute; try reflexivity; discriminate. Qed.

Lemma create_or_update_reconciles_every_record_witness :
  let answer := Scenario.services [] "1.1.1.1" Scenario.stale_provider in
  let run :=
    create_cloudflare_a_record answer 2 "a.example.com" "1.1.1.1"
      Scenario.zone Scenario.first_run [] in
  let data :=
    {| rtype := "A"; name := "a.example.com"; content := "1.1.1.1";
       ttl := 3600%Z; proxied := true |} in
  run.1.1 = Ok tt /\
  requests_of run.2
  = [CfList "zone-1" "cf-token" "A" "a.example.com";
     CfList "zone-1" "cf-token" "A" "a.example.com";
     CfPut "zone-1" "cf-token" "rec-1" data].
Proof.
  intros answer run data.
  apply (create_or_update_reconciles_every_record answer 0 "a.example.com"
           "1.1.1.1" Scenario.zone Scenario.two_records Scenario.first_run []).
  - intros past. eexists. split; [reflexivity|]. split; reflexivity.
  - intros past zone token record_id record. eexists.
    split; [reflexivity|]. left. reflexivity.
Defined.

(** C5 on the script: the provider has no record for the new host name and
    rejects the create with a 500 and a JSON error body.  The run logs the
    failure, goes on, and stores the current public IP for the host name
    all the same; the next run finds nothing to do and never retries. *)
Theorem failed_create_is_recorded_as_applied :
  let answer :=
    Scenario.services [["b.example.com"]] "1.1.1.1"
      Scenario.rejecting_provider in
  let run1 := main Scenario.cfg answer 5 None Scenario.first_run [] in
  let run2 := main Scenario.cfg answer 5 None run1.1.2 run1.2 in
  run1.1.1 = Ok 0%Z /\
  Print (LogCreateFailed "b.example.com" 500) ∈ run1.2 /\
  (forall e, Print (LogCreationError "b.example.com" e) ∉ run1.2) /\
  stored_ips_of run1.1.2 !! "b.example.com" = Some "1.1.1.1" /\
  run2.1.1 = Ok 0%Z /\
  Forall (fun e => is_dns_call e = false) run2.2.
Proof.
  cbv zeta. split; [|split; [|split; [|split; [|split]]]].
  - vm_compute. reflexivity.
  - vm_compute. repeat constructor.
  - intros e. vm_compute.
    intros H. repeat (apply elem_of_cons in H as [H|H]; [discriminate H|]).
    apply elem_of_nil in H. exact H.
  - vm_compute. reflexivity.
  - vm_compute. reflexivity.
  - vm_compute. repeat constructor.
Qed.

(** Two more runs behind the statement of C3 as the script has it.  A host
    name that matches no configured root is skipped, and keeps its stored
    IP although the public IP changed. *)
Example stale_unroutable_hostname_is_skipped :
  let answer :=
    Scenario.services [["a.other.org"]] "2.2.2.2" Scenario.stale_provider in
  let fs := Scenario.tracking "a.other.org" "1.1.1.1" "1.1.1.1" in
  let run := main Scenario.cfg answer 5 None fs [] in
  run.1.1 = Ok 0%Z /\
  stored_ips_of run.1.2 !! "a.other.org" = Some "1.1.1.1".
Proof. cbv zeta. split; vm_compute; reflexivity. Qed.

(** When the lookup that opens the update fails, the run logs the error,
    returns 0 and keeps the stored IP. *)
Example stale_hostname_update_raises :
  let answer :=
    Scenario.services [["a.example.com"]] "2.2.2.2" Scenario.broken_provider in
  let fs := Scenario.tracking "a.example.com" "1.1.1.1" "1.1.1.1" in
  let run := main Scenario.cfg answer 5 None fs [] in
  run.1.1 = Ok 0%Z /\
  Print (LogUpdateError "a.example.com" HTTPError) ∈ run.2 /\
  stored_ips_of run.1.2 !! "a.example.com" = Some "1.1.1.1".
Proof.
  cbv zeta. split; [|split]; vm_compute;
    [reflexivity|repeat constructor|reflexivity].
Qed.


(** * More of the script *)

(** ** What a computation emits *)

Section Emits.
Context {A B : Type} (P : event -> Prop).

Lemma emits_ret (a : A) : emits P (ret a).
Proof. intros fs past. constructor. Qed.

Lemma emits_raise e : emits P (@raise A e).
Proof. intros fs past. constructor. Qed.

Lemma emits_bind (m : M A) (k : A -> M B) :
  emits P m -> (forall a, emits P (k a)) -> emits P (bind m k).
Proof.
  intros Hm Hk fs past. unfold bind.
  specialize (Hm fs past).
  destruct (m fs past) as [[[a|e] fs1] ev1]; cbn in *; [|exact Hm].
  specialize (Hk a fs1 (past ++ ev1)).
  destruct (k a fs1 (past ++ ev1)) as [[r2 fs2] ev2]. cbn in *.
  apply Forall_app. auto.
Qed.

Lemma emits_try_except (m : M A) sel handler :
  emits P m -> (forall e, emits P (handler e)) ->
  emits P (try_except m sel handler).
Proof.
  intros Hm Hh fs past. unfold try_except.
  specialize (Hm fs past).
  destruct (m fs past) as [[[a|e] fs1] ev1]; cbn in *; [exact Hm|].
  destruct (sel e); [|exact Hm].
  specialize (Hh e fs1 (past ++ ev1)).
  destruct (handler e fs1 (past ++ ev1)) as [[r2 fs2] ev2]. cbn in *.
  apply Forall_app. auto.
Qed.

Lemma emits_weaken (Q : event -> Prop) (m : M A) :
  (forall e, Q e -> P e) -> emits Q m -> emits P m.
Proof.
  intros HQ Hm fs past. eapply Forall_impl; [apply Hm|exact HQ].
Qed.

End Emits.

Lemma emits_print P l : P (Print l) -> emits P (print l).
Proof. intros H fs past. repeat constructor. exact H. Qed.

Lemma emits_http P answer r : P (Request r) -> emits P (http answer r).
Proof.
  intros H fs past. unfold http.
  destruct (answer past r); repeat constructor; exact H.
Qed.

Ltac emits_step :=
  first
    [ apply emits_ret | apply emits_raise
    | apply emits_print; solve [cbn; auto]
    | apply emits_http; solve [cbn; unfold upsert_request, delete_request; eauto]
    | solve [auto with obl nocore]
    | apply emits_bind; [|intros ?]
    | apply emits_try_except; [|intros ?]
    | match goal with
      | |- emits _ (match ?x with _ => _ end) => destruct x
      | |- emits _ (if ?x then _ else _) => destruct x
      end ].

Ltac emits := repeat emits_step.

Section EmitsDnsClient.
Context (answer : oracle) (cf : cf_config) (domain ip : string).

Lemma emits_raise_for_status P response : emits P (raise_for_status response).
Proof. unfold raise_for_status. emits. Qed.

Lemma emits_response_json P response : emits P (response_json response).
Proof. unfold response_json. emits. Qed.

Lemma emits_get_result P j : emits P (get_result j).
Proof. unfold get_result. emits. Qed.

Hint Resolve emits_raise_for_status emits_response_json emits_get_result : obl.

Lemma emits_list_a_records P :
  P (Request (CfList (ZONE_ID cf) (API_TOKEN cf) "A" domain)) ->
  emits P (list_a_records answer domain cf).
Proof.
  intros H. unfold list_a_records.
  apply emits_bind; [apply emits_http, H|intros response]. emits.
Qed.

Lemma emits_update_records results :
  emits (only_requests (upsert_request cf domain ip))
        (update_records answer domain ip cf results).
Proof.
  induction results as [|record rest IH]; cbn [update_records]; emits.
Qed.

Lemma emits_delete_records results :
  emits (only_requests (delete_request cf domain))
        (delete_records answer domain cf results).
Proof.
  induction results as [|record rest IH]; cbn [delete_records]; emits.
Qed.

Hint Resolve emits_update_records emits_delete_records : obl.

Lemma emits_create_update depth :
  emits (only_requests (upsert_request cf domain ip))
        (create_cloudflare_a_record answer depth domain ip cf) /\
  emits (only_requests (upsert_request cf domain ip))
        (update_cloudflare_a_record answer depth domain ip cf).
Proof.
  assert (Hlist : emits (only_requests (upsert_request cf domain ip))
                        (list_a_records answer domain cf))
    by (apply emits_list_a_records; cbn; unfold upsert_request; auto).
  induction depth as [|depth [IHc IHu]].
  - split; cbn; apply emits_raise.
  - split.
    + cbn [create_cloudflare_a_record].
      unfold check_cloudflare_record_exists. emits.
    + cbn [update_cloudflare_a_record]. emits.
Qed.

Lemma emits_delete_cloudflare_a_record :
  emits (only_requests (delete_request cf domain))
        (delete_cloudflare_a_record answer domain cf).
Proof.
  assert (Hlist : emits (only_requests (delete_request cf domain))
                        (list_a_records answer domain cf))
    by (apply emits_list_a_records; cbn; unfold delete_request; auto).
  unfold delete_cloudflare_a_record. emits.
Qed.

End EmitsDnsClient.

Lemma emits_run {A} P (m : M A) fs past r fs1 evs :
  emits P m -> m fs past = (r, fs1, evs) -> Forall P evs.
Proof. intros H E. specialize (H fs past). rewrite E in H. exact H. Qed.

Lemma only_requests_impl (P Q : request -> Prop) e :
  (forall r, P r -> Q r) -> only_requests P e -> only_requests Q e.
Proof. intros H. destruct e; cbn; auto. Qed.

(** ** What the two loops emit *)

Section EmitsLoops.
Context (cfg : config) (answer : oracle) (recursion_limit : nat).
Context (created : list string) (ipc force : bool) (ip : string).

Lemma process_domain_emits d (stored : gmap string string) fs past m' evs :
  process_domain cfg answer recursion_limit created ipc force ip d stored
    fs past = (Ok m', fs, evs) ->
  Forall (only_requests (due_upsert cfg created ipc force ip stored [d])) evs.
Proof.
  intros E.
  destruct (process_domain_cases cfg answer recursion_limit created ipc force
              ip d stored fs past) as (m'' & evs' & E' & Hcases).
  rewrite E in E'. injection E' as <- <-.
  destruct (find_root _ _ d) as [cf|] eqn:Hroute.
  2:{ destruct Hcases as [_ ->]. repeat constructor. }
  assert (Hup : forall evc,
            (d ∈ created \/ stored !! d = None \/ ipc || force = true) ->
            Forall (only_requests (upsert_request cf d ip)) evc ->
            Forall (only_requests (due_upsert cfg created ipc force ip stored [d])) evc).
  { intros evc Hdue H. eapply Forall_impl; [exact H|].
    intros e. apply only_requests_impl. intros r Hr.
    exists d, cf. repeat split; auto. left. }
  destruct (bool_decide (d ∈ created) || bool_decide (stored !! d = None))
    eqn:Hnew.
  - assert (Hdue : d ∈ created \/ stored !! d = None \/ ipc || force = true).
    { apply orb_true_iff in Hnew as [H|H]; apply bool_decide_eq_true in H;
        auto. }
    destruct Hcases as (r & evc & Ec & Hr).
    pose proof (emits_run _ _ _ _ _ _ _
                  (proj1 (emits_create_update answer cf d ip recursion_limit))
                  Ec) as Hevc.
    apply (Hup evc Hdue) in Hevc.
    destruct r as [[]|e]; destruct Hr as [_ ->];
      repeat (constructor || apply Forall_app || split); auto.
  - destruct (ipc || force) eqn:Hwhy.
    + destruct Hcases as (r & evc & Ec & Hr).
      pose proof (emits_run _ _ _ _ _ _ _
                    (proj2 (emits_create_update answer cf d ip recursion_limit))
                    Ec) as Hevc.
      apply (Hup evc) in Hevc; [|auto].
      destruct r as [[]|e]; destruct Hr as [_ ->];
        repeat (constructor || apply Forall_app || split); auto.
    + destruct Hcases as [_ ->]. repeat constructor.
Qed.

Lemma due_upsert_mono (stored stored' : gmap string string) doms doms' r :
  (forall d, d ∈ doms -> d ∈ doms' /\ stored !! d = stored' !! d) ->
  due_upsert cfg created ipc force ip stored doms r -> due_upsert cfg created ipc force ip stored' doms' r.
Proof.
  intros H (d & cf & Hd & Hroute & Hdue & Hr).
  destruct (H d Hd) as [Hd' Hs].
  exists d, cf. rewrite <- Hs. auto.
Qed.

Lemma process_current_emits doms :
  forall (stored : gmap string string) fs past m' evs,
  NoDup doms ->
  process_current cfg answer recursion_limit created ipc force ip doms stored
    fs past = (Ok m', fs, evs) ->
  Forall (only_requests (due_upsert cfg created ipc force ip stored doms)) evs.
Proof.
  induction doms as [|d rest IH]; intros stored fs past m' evs Hnd E.
  - injection E as _ <-. constructor.
  - apply NoDup_cons in Hnd as [Hd Hnd].
    cbn [process_current] in E.
    destruct (process_domain_run cfg answer recursion_limit created ipc force
                ip d stored fs past) as (m1 & ev1 & E1 & H1).
    rewrite (bind_run _ _ _ _ _ _ _ E1) in E.
    destruct (process_current_run cfg answer recursion_limit created ipc force
                ip rest m1 fs (past ++ ev1)) as (m2 & ev2 & E2 & _).
    rewrite E2 in E. injection E as _ <-.
    apply Forall_app. split.
    + eapply Forall_impl; [apply (process_domain_emits _ _ _ _ _ _ E1)|].
      intros e. apply only_requests_impl. intros r.
      apply due_upsert_mono. intros x ->%list_elem_of_singleton.
      split; [left|reflexivity].
    + eapply Forall_impl; [apply (IH _ _ _ _ _ Hnd E2)|].
      intros e. apply only_requests_impl. intros r.
      apply due_upsert_mono. intros x Hx. split; [right; exact Hx|].
      destruct H1 as [->| ->]; [reflexivity|].
      apply lookup_insert_ne. intros ->. contradiction.
Qed.

Lemma process_deleted_domain_emits d (stored : gmap string string) :
  emits (only_requests (due_delete cfg [d]))
        (process_deleted_domain cfg answer d stored).
Proof.
  intros fs past. unfold process_deleted_domain, bind at 1.
  rewrite get_cf_config_for_domain_run.
  destruct (find_root _ _ d) as [cf|] eqn:Hroute; [|repeat constructor].
  rewrite app_nil_r.
  assert (H : emits (only_requests (due_delete cfg [d]))
                (try_except
                   (print (LogDeleting d);;
                    delete_cloudflare_a_record answer d cf)
                   any_exception
                   (fun e => print (LogDeletionError d e));;
                 ret (delete d stored))).
  { apply emits_bind; [|intros; apply emits_ret].
    apply emits_try_except; [|intros; apply emits_print; exact I].
    apply emits_bind; [apply emits_print; exact I|intros _].
    eapply emits_weaken; [|apply emits_delete_cloudflare_a_record].
    intros e. apply only_requests_impl. intros r Hr.
    exists d, cf. repeat split; auto. left. }
  specialize (H fs past).
  destruct (bind _ _ fs past) as [[r fs1] evs]. exact H.
Qed.

Lemma process_deleted_emits doms :
  forall (stored : gmap string string),
  emits (only_requests (due_delete cfg doms))
        (process_deleted cfg answer doms stored).
Proof.
  induction doms as [|d rest IH]; intros stored; cbn [process_deleted].
  - apply emits_ret.
  - apply emits_bind.
    + eapply emits_weaken; [|apply process_deleted_domain_emits].
      intros e. apply only_requests_impl.
      intros r (x & cf & ->%list_elem_of_singleton & Hroute & Hr).
      exists d, cf. repeat split; auto. left.
    + intros m1. eapply emits_weaken; [|apply IH].
      intros e. apply only_requests_impl.
      intros r (x & cf & Hx & Hroute & Hr).
      exists x, cf. repeat split; auto. right. exact Hx.
Qed.

End EmitsLoops.

(** ** The whole run, event by event *)

Section WholeRun.
Context (cfg : config) (answer : oracle) (recursion_limit : nat).
Context (FORCE_UPDATE : option string) (fs : files) (past : list event).
Context (cur : list string) (ev1 : list event) (ip : string) (ev2 : list event).
Hypothesis E1 : fetch_current_domains cfg answer fs past = (Ok cur, fs, ev1).
Hypothesis E2 : get_public_ip answer fs (past ++ ev1) = (Ok (Some ip), fs, ev2).
Hypothesis Hip : ip ≠ EmptyString.

(** [main_run], with the status lines it prints. *)
Lemma main_run_log :
  exists evl,
    log_status (list_difference cur (previous_domains_of fs))
      (list_difference (previous_domains_of fs) cur)
      ((0 <? length (list_difference cur (previous_domains_of fs)))%nat
       || (0 <? length (list_difference (previous_domains_of fs) cur))%nat)
      (negb (bool_decide (last_known_ip_of fs = Some ip)))
      (last_known_ip_of fs) ip fs ((past ++ ev1) ++ ev2) = (Ok tt, fs, evl) /\
    Forall (fun e => is_quiet e = true) evl /\
    main cfg answer recursion_limit FORCE_UPDATE fs past
    = if negb ((0 <? length (list_difference cur (previous_domains_of fs)))%nat
               || (0 <? length (list_difference (previous_domains_of fs) cur))%nat)
         && negb (negb (bool_decide (last_known_ip_of fs = Some ip)))
         && negb (force_update_of FORCE_UPDATE)
      then (Ok 0%Z, fs, ev1 ++ ev2 ++ evl ++ [Print LogNoChanges])
      else
        let '(r, fs', ev3) :=
          update_cycle cfg answer recursion_limit cur
            (list_difference cur (previous_domains_of fs))
            (list_difference (previous_domains_of fs) cur)
            (negb (bool_decide (last_known_ip_of fs = Some ip)))
            (force_update_of FORCE_UPDATE) ip fs
            (past ++ ev1 ++ ev2 ++ evl) in
        (r, fs', ev1 ++ ev2 ++ evl ++ ev3).
Proof.
  match goal with
  | |- context [log_status ?c ?d ?dc ?ipc ?last ?ip' ?fs' ?past'] =>
      destruct (log_status_run c d dc ipc last ip' fs' past')
        as (evl & El & Hquiet)
  end.
  exists evl. split; [exact El|]. split; [exact Hquiet|].
  unfold main, bind at 1. cbn [read_last_known_ip get_files bind ret].
  rewrite !app_nil_r, (bind_run _ _ _ _ _ _ _ E1).
  unfold bind at 1. cbn [read_previous_domains get_files bind ret].
  rewrite !app_nil_r, (bind_run _ _ _ _ _ _ _ E2).
  replace (PyStr.truthy (default EmptyString (Some ip))) with true
    by (destruct ip; [contradiction|reflexivity]).
  cbn [negb default].
  rewrite (bind_run _ _ _ _ _ _ _ El).
  destruct (negb _ && negb _ && negb _).
  - reflexivity.
  - rewrite <- !app_assoc.
    destruct (update_cycle _ _ _ _ _ _ _ _ _ _ _) as [[r fs'] ev3].
    reflexivity.
Qed.

(** The events of the inventory and of the IP lookup. *)
Lemma inventory_events_quiet : Forall (fun e => is_quiet e = true) (ev1 ++ ev2).
Proof.
  pose proof (fetch_current_domains_quiet cfg answer fs past) as Q1.
  pose proof (get_public_ip_quiet answer fs (past ++ ev1)) as Q2.
  rewrite E1 in Q1. rewrite E2 in Q2. apply Forall_app. auto.
Qed.

(** A run that enters the update cycle, in full: the status lines, the two
    loops with what they emit and what they make of the dict, and the three
    writes. *)
Lemma main_cycle :
  something_changed FORCE_UPDATE fs cur ip ->
  exists evl m1 evc m2 evd,
    log_status (list_difference cur (previous_domains_of fs))
      (list_difference (previous_domains_of fs) cur)
      ((0 <? length (list_difference cur (previous_domains_of fs)))%nat
       || (0 <? length (list_difference (previous_domains_of fs) cur))%nat)
      (negb (bool_decide (last_known_ip_of fs = Some ip)))
      (last_known_ip_of fs) ip fs ((past ++ ev1) ++ ev2) = (Ok tt, fs, evl) /\
    Forall (fun e => is_quiet e = true) (ev1 ++ ev2 ++ evl) /\
    process_current cfg answer recursion_limit
      (list_difference cur (previous_domains_of fs))
      (negb (bool_decide (last_known_ip_of fs = Some ip)))
      (force_update_of FORCE_UPDATE) ip cur (stored_ips_of fs) fs
      (past ++ ev1 ++ ev2 ++ evl) = (Ok m1, fs, evc) /\
    Forall (only_requests
              (due_upsert cfg (list_difference cur (previous_domains_of fs))
                 (negb (bool_decide (last_known_ip_of fs = Some ip)))
                 (force_update_of FORCE_UPDATE) ip (stored_ips_of fs) cur))
           evc /\
    process_deleted cfg answer (list_difference (previous_domains_of fs) cur)
      m1 fs ((past ++ ev1 ++ ev2 ++ evl) ++ evc) = (Ok m2, fs, evd) /\
    Forall (only_requests
              (due_delete cfg (list_difference (previous_domains_of fs) cur)))
           evd /\
    main cfg answer recursion_limit FORCE_UPDATE fs past
    = (Ok 0%Z,
       {| hosts_filename := Some (host_file_text cur);
          domain_ips_file := Some (Mapping m2);
          last_ip_file := Some ip |},
       ev1 ++ ev2 ++ evl ++ evc ++ evd
       ++ [WriteDomainIps m2; WriteHosts (host_file_text cur);
           WriteLastIp ip]).
Proof.
  intros Hchanged.
  destruct main_run_log as (evl & El & Hquiet & Hmain).
  rewrite (something_changed_test _ _ _ _ Hchanged) in Hmain.
  match type of Hmain with
  | context [update_cycle ?c ?a ?l ?cur' ?cr ?de ?ipc ?f ?ip' ?fs' ?p] =>
      destruct (update_cycle_run c a l cur' cr de ipc f ip' fs' p)
        as (m1 & evc & m2 & evd & Ec & Ed & Eu)
  end.
  rewrite Eu in Hmain.
  exists evl, m1, evc, m2, evd.
  split; [exact El|]. split.
  { rewrite app_assoc. apply Forall_app. split; [|exact Hquiet].
    apply inventory_events_quiet. }
  split; [exact Ec|]. split.
  { eapply process_current_emits; [|exact Ec].
    eapply fetch_current_domains_NoDup, E1. }
  split; [exact Ed|]. split.
  { eapply emits_run; [apply process_deleted_emits|exact Ed]. }
  exact Hmain.
Qed.

(** The requests of a run: those of the inventory and the IP lookup, and
    the ones the two loops owe. *)
Lemma main_requests :
  exists fs' evs,
    main cfg answer recursion_limit FORCE_UPDATE fs past = (Ok 0%Z, fs', evs) /\
    forall r, Request r ∈ evs ->
      is_dns_request r = false \/
      due_upsert cfg (list_difference cur (previous_domains_of fs))
        (negb (bool_decide (last_known_ip_of fs = Some ip)))
        (force_update_of FORCE_UPDATE) ip (stored_ips_of fs) cur r \/
      due_delete cfg (list_difference (previous_domains_of fs) cur) r.
Proof.
  assert (Hq : forall evs r, Forall (fun e => is_quiet e = true) evs ->
                 Request r ∈ evs -> is_dns_request r = false).
  { intros evs r H Hr. rewrite Forall_forall in H. specialize (H _ Hr).
    apply andb_true_iff in H as [_ H]. apply negb_true_iff in H. exact H. }
  destruct main_run_log as (evl & El & Hquiet & Hmain).
  destruct (negb _ && negb _ && negb _) eqn:Hearly.
  - do 2 eexists. split; [exact Hmain|]. intros r Hr. left.
    eapply Hq; [|exact Hr].
    rewrite app_assoc. apply Forall_app. split; [apply inventory_events_quiet|].
    apply Forall_app. split; [exact Hquiet|repeat constructor].
  - assert (Hchanged : something_changed FORCE_UPDATE fs cur ip).
    { unfold something_changed.
      destruct (list_difference cur (previous_domains_of fs)); [|left; discriminate].
      destruct (list_difference (previous_domains_of fs) cur);
        [|right; left; discriminate].
      do 2 right. cbn in Hearly.
      destruct (bool_decide_reflect (last_known_ip_of fs = Some ip));
        [|left; assumption].
      right. cbn in Hearly. apply negb_false_iff, Hearly. }
    clear Hmain.
    destruct (main_cycle Hchanged)
      as (evl' & m1 & evc & m2 & evd & _ & Hpre & _ & Hevc & _ & Hevd & Hmain).
    do 2 eexists. split; [exact Hmain|]. intros r Hr.
    apply Forall_app in Hpre as [Hp1 Hpre].
    apply Forall_app in Hpre as [Hp2 Hp3].
    rewrite !elem_of_app in Hr.
    destruct Hr as [Hr|[Hr|[Hr|[Hr|[Hr|Hr]]]]].
    + left. eapply Hq; [exact Hp1|exact Hr].
    + left. eapply Hq; [exact Hp2|exact Hr].
    + left. eapply Hq; [exact Hp3|exact Hr].
    + right. left. rewrite Forall_forall in Hevc. apply (Hevc _ Hr).
    + right. right. rewrite Forall_forall in Hevd. apply (Hevd _ Hr).
    + repeat (apply elem_of_cons in Hr as [Hr|Hr]; [discriminate Hr|]).
      apply elem_of_nil in Hr as [].
Qed.

End WholeRun.

(** ** More properties of the run *)

(** X1: every record a run writes to the provider, with a create or an
    update, is the A record of a current host name that resolves to the
    zone and token the request uses, with the current public IP as content,
    TTL 3600 and proxied. *)
Theorem dns_writes_carry_current_ip
    (cfg : config) (answer : oracle) (recursion_limit : nat)
    (FORCE_UPDATE : option string) (fs : files) (past : list event)
    (current : list string) (ev1 : list event) (ip : string)
    (ev2 : list event) :
  fetch_current_domains cfg answer fs past = (Ok current, fs, ev1) ->
  get_public_ip answer fs (past ++ ev1) = (Ok (Some ip), fs, ev2) ->
  ip ≠ EmptyString ->
  exists fs' evs,
    main cfg answer recursion_limit FORCE_UPDATE fs past = (Ok 0%Z, fs', evs) /\
    forall zone token data,
      (Request (CfPost zone token data) ∈ evs \/
       exists record_id, Request (CfPut zone token record_id data) ∈ evs) ->
      exists d cf,
        d ∈ current /\
        find_root (CLOUDFLARE_CONFIG cfg) (CLOUDFLARE_CONFIG cfg).*1 d = Some cf /\
        zone = ZONE_ID cf /\ token = API_TOKEN cf /\
        data = {| rtype := "A"; name := d; content := ip;
                  ttl := 3600%Z; proxied := true |}.
Proof.
  intros E1 E2 Hip.
  destruct (main_requests cfg answer recursion_limit FORCE_UPDATE fs past
              current ev1 ip ev2 E1 E2 Hip) as (fs' & evs & Hmain & Hreq).
  exists fs', evs. split; [exact Hmain|].
  intros zone token data [Hr|[record_id Hr]];
    destruct (Hreq _ Hr) as [Hn|[(d & cf & Hd & Hroute & _ & Hup)|
                                 (d & cf & _ & _ & Hdel)]];
    try discriminate Hn.
  - destruct Hup as [H|[H|[i H]]]; try discriminate H.
    injection H as -> -> ->. exists d, cf. auto.
  - destruct Hdel as [H|[i H]]; discriminate H.
  - destruct Hup as [H|[H|[i H]]]; try discriminate H.
    injection H as -> -> _ ->. exists d, cf. auto.
  - destruct Hdel as [H|[i H]]; discriminate H.
Qed.

(** X2: a run asks the provider only about routable host names.  A lookup,
    create or update names a host name that resolves to a routing
    configuration and is current or has just left the inventory; a delete
    goes to the zone of a routable host name that has just left it. *)
Theorem dns_requests_name_routable_hostnames
    (cfg : config) (answer : oracle) (recursion_limit : nat)
    (FORCE_UPDATE : option string) (fs : files) (past : list event)
    (current : list string) (ev1 : list event) (ip : string)
    (ev2 : list event) :
  fetch_current_domains cfg answer fs past = (Ok current, fs, ev1) ->
  get_public_ip answer fs (past ++ ev1) = (Ok (Some ip), fs, ev2) ->
  ip ≠ EmptyString ->
  exists fs' evs,
    main cfg answer recursion_limit FORCE_UPDATE fs past = (Ok 0%Z, fs', evs) /\
    (forall r n,
       Request r ∈ evs -> request_name r = Some n ->
       find_root (CLOUDFLARE_CONFIG cfg) (CLOUDFLARE_CONFIG cfg).*1 n ≠ None /\
       (n ∈ current \/ (n ∈ previous_domains_of fs /\ n ∉ current))) /\
    (forall zone token record_id,
       Request (CfDelete zone token record_id) ∈ evs ->
       exists d cf,
         d ∈ previous_domains_of fs /\ (d ∉ current) /\
         find_root (CLOUDFLARE_CONFIG cfg) (CLOUDFLARE_CONFIG cfg).*1 d = Some cf /\
         zone = ZONE_ID cf /\ token = API_TOKEN cf).
Proof.
  intros E1 E2 Hip.
  destruct (main_requests cfg answer recursion_limit FORCE_UPDATE fs past
              current ev1 ip ev2 E1 E2 Hip) as (fs' & evs & Hmain & Hreq).
  exists fs', evs. split; [exact Hmain|]. split.
  - intros r n Hr Hn.
    destruct (Hreq _ Hr) as [Hnd|[(d & cf & Hd & Hroute & _ & Hup)|
                                  (d & cf & Hd & Hroute & Hdel)]].
    + destruct r; discriminate.
    + assert (n = d) as ->.
      { destruct Hup as [->|[->|[i ->]]]; cbn in Hn; congruence. }
      rewrite Hroute. auto.
    + apply list_elem_of_difference in Hd.
      destruct Hdel as [->|[i ->]]; [|discriminate Hn].
      injection Hn as <-. rewrite Hroute. auto.
  - intros zone token record_id Hr.
    destruct (Hreq _ Hr) as [Hnd|[(d & cf & _ & _ & _ & Hup)|
                                  (d & cf & Hd & Hroute & Hdel)]].
    + discriminate Hnd.
    + destruct Hup as [H|[H|[i H]]]; discriminate H.
    + apply list_elem_of_difference in Hd as [Hp Hc].
      destruct Hdel as [H|[i H]]; [discriminate H|].
      injection H as -> -> _. exists d, cf. auto.
Qed.

(** X3: a host name that stays in the inventory and has a stored IP costs
    no request when the public IP is the last known one and the run is not
    forced: no lookup, create or update of the run names it, although other
    host names may have appeared or disappeared. *)
Theorem settled_hostname_costs_no_request
    (cfg : config) (answer : oracle) (recursion_limit : nat)
    (FORCE_UPDATE : option string) (fs : files) (past : list event)
    (current : list string) (ev1 : list event) (ip : string)
    (ev2 : list event) (h : string) :
  fetch_current_domains cfg answer fs past = (Ok current, fs, ev1) ->
  get_public_ip answer fs (past ++ ev1) = (Ok (Some ip), fs, ev2) ->
  ip ≠ EmptyString ->
  h ∈ current ->
  h ∈ previous_domains_of fs ->
  stored_ips_of fs !! h ≠ None ->
  last_known_ip_of fs = Some ip ->
  force_update_of FORCE_UPDATE = false ->
  exists fs' evs,
    main cfg answer recursion_limit FORCE_UPDATE fs past = (Ok 0%Z, fs', evs) /\
    forall r, Request r ∈ evs -> request_name r ≠ Some h.
Proof.
  intros E1 E2 Hip Hcur Hprev Hstored Hlast Hforce.
  destruct (main_requests cfg answer recursion_limit FORCE_UPDATE fs past
              current ev1 ip ev2 E1 E2 Hip) as (fs' & evs & Hmain & Hreq).
  exists fs', evs. split; [exact Hmain|].
  intros r Hr Hn.
  destruct (Hreq _ Hr) as [Hnd|[(d & cf & Hd & Hroute & Hdue & Hup)|
                                (d & cf & Hd & Hroute & Hdel)]].
  - destruct r; discriminate.
  - assert (h = d) as <-.
    { destruct Hup as [->|[->|[i ->]]]; cbn in Hn; congruence. }
    rewrite Hlast, Hforce, bool_decide_eq_true_2 in Hdue by reflexivity.
    destruct Hdue as [H|[H|H]]; [|contradiction|discriminate H].
    apply list_elem_of_difference in H. tauto.
  - apply list_elem_of_difference in Hd.
    destruct Hdel as [->|[i ->]]; [|discriminate Hn].
    injection Hn as ->. tauto.
Qed.

Lemma only_requests_no_write P e : only_requests P e -> is_write e = false.
Proof. destruct e; cbn; tauto. Qed.

Lemma quiet_no_write e : is_quiet e = true -> is_write e = false.
Proof. intros [H _]%andb_true_iff. apply negb_true_iff, H. Qed.

(** X4: for state files that hold ASCII text and a domain-to-IP record
    that is absent, unreadable or a JSON object, a run that enters the
    update cycle writes each of the three stores exactly once, after
    everything else it does, in the order domain-to-IP record, host names,
    last public IP; the files it leaves hold the dict it wrote, the current
    host names one per line, in some order and each once, and the current
    public IP. *)
Theorem stores_are_written_once_at_the_end
    (cfg : config) (answer : oracle) (recursion_limit : nat)
    (FORCE_UPDATE : option string) (fs : files) (past : list event)
    (current : list string) (ev1 : list event) (ip : string)
    (ev2 : list event) :
  fetch_current_domains cfg answer fs past = (Ok current, fs, ev1) ->
  get_public_ip answer fs (past ++ ev1) = (Ok (Some ip), fs, ev2) ->
  ip ≠ EmptyString ->
  ascii_files fs = true ->
  something_changed FORCE_UPDATE fs current ip ->
  exists m before hosts,
    main cfg answer recursion_limit FORCE_UPDATE fs past
    = (Ok 0%Z,
       {| hosts_filename := Some (host_file_text hosts);
          domain_ips_file := Some (Mapping m);
          last_ip_file := Some ip |},
       before ++ [WriteDomainIps m; WriteHosts (host_file_text hosts);
                  WriteLastIp ip]) /\
    hosts ≡ₚ current /\
    NoDup hosts /\
    Forall (fun e => is_write e = false) before.
Proof.
  intros E1 E2 Hip _ Hchanged.
  destruct (main_cycle cfg answer recursion_limit FORCE_UPDATE fs past
              current ev1 ip ev2 E1 E2 Hip Hchanged)
    as (evl & m1 & evc & m2 & evd & _ & Hpre & _ & Hevc & _ & Hevd & Hmain).
  exists m2, ((ev1 ++ ev2 ++ evl) ++ evc ++ evd), current. split; [|split; [|split]].
  - rewrite Hmain, <- !app_assoc. reflexivity.
  - reflexivity.
  - eapply fetch_current_domains_NoDup, E1.
  - apply Forall_app. split; [|apply Forall_app; split].
    + eapply Forall_impl; [exact Hpre|]. apply quiet_no_write.
    + eapply Forall_impl; [exact Hevc|]. apply only_requests_no_write.
    + eapply Forall_impl; [exact Hevd|]. apply only_requests_no_write.
Qed.

Lemma list_difference_nil_subseteq (l k : list string) :
  list_difference l k = [] -> forall x, x ∈ l -> x ∈ k.
Proof.
  intros E x Hx. destruct (decide (x ∈ k)) as [|Hk]; [assumption|].
  assert (H : x ∈ list_difference l k)
    by (apply list_elem_of_difference; auto).
  rewrite E in H. apply elem_of_nil in H as [].
Qed.

(** Either nothing changed, or something did. *)
Lemma nothing_or_something_changed FORCE_UPDATE fs (current : list string) ip :
  ((forall d, d ∈ current <-> d ∈ previous_domains_of fs) /\
   last_known_ip_of fs = Some ip /\
   force_update_of FORCE_UPDATE = false) \/
  something_changed FORCE_UPDATE fs current ip.
Proof.
  unfold something_changed.
  destruct (list_difference current (previous_domains_of fs)) eqn:Ec;
    [|right; left; discriminate].
  destruct (list_difference (previous_domains_of fs) current) eqn:Ed;
    [|right; right; left; discriminate].
  destruct (decide (last_known_ip_of fs = Some ip)) as [Hl|Hl];
    [|right; tauto].
  destruct (force_update_of FORCE_UPDATE) eqn:Hf; [right; tauto|].
  left. split; [|auto].
  intros d. split; apply list_difference_nil_subseteq; assumption.
Qed.

Lemma something_changed_not_nothing FORCE_UPDATE fs (current : list string) ip :
  something_changed FORCE_UPDATE fs current ip ->
  (forall d, d ∈ current <-> d ∈ previous_domains_of fs) ->
  last_known_ip_of fs = Some ip ->
  force_update_of FORCE_UPDATE = false ->
  False.
Proof.
  intros [H|[H|[H|H]]] Hsame Hlast Hforce.
  - apply H, list_difference_same_elements. intros x. apply Hsame.
  - apply H, list_difference_same_elements. intros x. apply Hsame.
  - contradiction.
  - congruence.
Qed.

(** X5: for state files that hold ASCII text and a domain-to-IP record
    that is absent, unreadable or a JSON object, once the inventory and the
    public IP are known, the run returns 0, and it does so without a write
    exactly when the current host names are the previous ones, the public
    IP is the last known one and the force flag is unset; in every other
    case it writes the stores. *)
Theorem run_writes_iff_something_changed
    (cfg : config) (answer : oracle) (recursion_limit : nat)
    (FORCE_UPDATE : option string) (fs : files) (past : list event)
    (current : list string) (ev1 : list event) (ip : string)
    (ev2 : list event) :
  fetch_current_domains cfg answer fs past = (Ok current, fs, ev1) ->
  get_public_ip answer fs (past ++ ev1) = (Ok (Some ip), fs, ev2) ->
  ip ≠ EmptyString ->
  ascii_files fs = true ->
  exists fs' evs,
    main cfg answer recursion_limit FORCE_UPDATE fs past = (Ok 0%Z, fs', evs) /\
    (Forall (fun e => is_write e = false) evs <->
     (forall d, d ∈ current <-> d ∈ previous_domains_of fs) /\
     last_known_ip_of fs = Some ip /\
     force_update_of FORCE_UPDATE = false).
Proof.
  intros E1 E2 Hip _.
  destruct (nothing_or_something_changed FORCE_UPDATE fs current ip)
    as [(Hsame & Hlast & Hforce)|Hchanged].
  - destruct (main_early_exit cfg answer recursion_limit FORCE_UPDATE fs past
                current ev1 ip ev2 E1 E2 Hip Hsame Hlast Hforce)
      as (evs & Hmain & Hquiet).
    exists fs, evs. split; [exact Hmain|]. split; [auto|].
    intros _. eapply Forall_impl; [exact Hquiet|]. apply quiet_no_write.
  - destruct (main_cycle cfg answer recursion_limit FORCE_UPDATE fs past
                current ev1 ip ev2 E1 E2 Hip Hchanged)
      as (evl & m1 & evc & m2 & evd & _ & _ & _ & _ & _ & _ & Hmain).
    do 2 eexists. split; [exact Hmain|]. split.
    + intros H. exfalso. rewrite Forall_forall in H.
      specialize (H (WriteLastIp ip)). cbn in H.
      assert (Hin : WriteLastIp ip
                ∈ ev1 ++ ev2 ++ evl ++ evc ++ evd
                  ++ [WriteDomainIps m2; WriteHosts (host_file_text current);
                      WriteLastIp ip]).
      { rewrite !elem_of_app. do 5 right. do 2 right. left. }
      specialize (H Hin). discriminate H.
    + intros (Hsame & Hlast & Hforce). exfalso.
      eapply something_changed_not_nothing; eauto.
Qed.

(** X6: a run that aborts, because the inventory fails or the IP lookup
    gives no address, has made no call to the DNS provider. *)
Theorem aborted_run_makes_no_dns_call
    (cfg : config) (answer : oracle) (recursion_limit : nat)
    (FORCE_UPDATE : option string) (fs : files) (past : list event) :
  inventory_fails cfg answer fs past \/ public_ip_fails cfg answer fs past ->
  exists r evs,
    main cfg answer recursion_limit FORCE_UPDATE fs past = (r, fs, evs) /\
    r ≠ Ok 0%Z /\
    Forall (fun e => is_dns_call e = false) evs.
Proof.
  intros Hfail.
  assert (Hq : forall evs, Forall (fun e => is_quiet e = true) evs ->
                 Forall (fun e => is_dns_call e = false) evs).
  { intros evs H. eapply Forall_impl; [exact H|].
    intros e [_ H']%andb_true_iff. apply negb_true_iff, H'. }
  destruct (main_outcome cfg answer recursion_limit FORCE_UPDATE fs past)
    as [(_ & e & evs & E & Q)|[(_ & evs & E & Q)|(H1 & H2 & _)]].
  - exists (Raise e), evs. split; [exact E|]. split; [discriminate|auto].
  - exists (Ok 1%Z), evs. split; [exact E|]. split; [discriminate|auto].
  - tauto.
Qed.

(** ** What the loops make of the dict *)

Section Entries.
Context (cfg : config) (answer : oracle) (recursion_limit : nat).
Context (created : list string) (ipc force : bool) (ip : string).

Lemma process_domain_entry d (stored : gmap string string) fs past m' evs :
  process_domain cfg answer recursion_limit created ipc force ip d stored
    fs past = (Ok m', fs, evs) ->
  m' = stored \/
  (m' = <[d := ip]> stored /\
   find_root (CLOUDFLARE_CONFIG cfg) (CLOUDFLARE_CONFIG cfg).*1 d ≠ None).
Proof.
  intros E.
  destruct (process_domain_cases cfg answer recursion_limit created ipc force
              ip d stored fs past) as (m'' & evs' & E' & Hcases).
  rewrite E in E'. injection E' as <- <-.
  destruct (find_root _ _ d) as [cf|]; [|tauto].
  destruct (_ || _).
  - destruct Hcases as ([[]|e] & evc & _ & [-> _]); [right|left; reflexivity].
    split; [reflexivity|discriminate].
  - destruct (_ || _); [|tauto].
    destruct Hcases as ([[]|e] & evc & _ & [-> _]); [right|left; reflexivity].
    split; [reflexivity|discriminate].
Qed.

Lemma process_current_entries doms :
  forall (stored : gmap string string) fs past m' evs,
  process_current cfg answer recursion_limit created ipc force ip doms stored
    fs past = (Ok m', fs, evs) ->
  (forall k v, m' !! k = Some v ->
     stored !! k = Some v \/
     (v = ip /\ k ∈ doms /\
      find_root (CLOUDFLARE_CONFIG cfg) (CLOUDFLARE_CONFIG cfg).*1 k ≠ None)) /\
  (forall k,
     find_root (CLOUDFLARE_CONFIG cfg) (CLOUDFLARE_CONFIG cfg).*1 k = None ->
     m' !! k = stored !! k).
Proof.
  induction doms as [|d rest IH]; intros stored fs past m' evs E.
  - injection E as <- _. auto.
  - cbn [process_current] in E.
    destruct (process_domain_run cfg answer recursion_limit created ipc force
                ip d stored fs past) as (m1 & ev1 & E1 & _).
    rewrite (bind_run _ _ _ _ _ _ _ E1) in E.
    destruct (process_current_run cfg answer recursion_limit created ipc force
                ip rest m1 fs (past ++ ev1)) as (m2 & ev2 & E2 & _).
    rewrite E2 in E. injection E as <- _.
    destruct (IH _ _ _ _ _ E2) as [Hval Hun].
    pose proof (process_domain_entry _ _ _ _ _ _ E1) as H1.
    split.
    + intros k v Hk. destruct (Hval k v Hk) as [Hm1|(-> & Hin & Hr)].
      * destruct H1 as [->|[-> Hr]]; [auto|].
        rewrite lookup_insert in Hm1. case_decide as Hdk.
        -- injection Hm1 as <-. subst k. right. split; [reflexivity|].
           split; [left|exact Hr].
        -- auto.
      * right. split; [reflexivity|]. split; [right; exact Hin|exact Hr].
    + intros k Hk. rewrite (Hun k Hk).
      destruct H1 as [->|[-> Hr]]; [reflexivity|].
      apply lookup_insert_ne. intros ->. contradiction.
Qed.

Lemma process_deleted_entries doms :
  forall (stored : gmap string string) fs past m' evs,
  process_deleted cfg answer doms stored fs past = (Ok m', fs, evs) ->
  (forall k v, m' !! k = Some v -> stored !! k = Some v) /\
  (forall k,
     find_root (CLOUDFLARE_CONFIG cfg) (CLOUDFLARE_CONFIG cfg).*1 k = None ->
     m' !! k = stored !! k).
Proof.
  induction doms as [|d rest IH]; intros stored fs past m' evs E.
  - injection E as <- _. auto.
  - cbn [process_deleted] in E.
    destruct (process_deleted_domain_cases cfg answer d stored fs past)
      as (m1 & ev1 & E1 & H1).
    rewrite (bind_run _ _ _ _ _ _ _ E1) in E.
    destruct (process_deleted_run cfg answer rest m1 fs (past ++ ev1))
      as (m2 & ev2 & E2 & _).
    rewrite E2 in E. injection E as <- _.
    destruct (IH _ _ _ _ _ E2) as [Hval Hun].
    split.
    + intros k v Hk. apply Hval in Hk.
      destruct (find_root _ _ d); [subst m1|destruct H1 as [-> _]; exact Hk].
      apply lookup_delete_Some in Hk. tauto.
    + intros k Hk. rewrite (Hun k Hk).
      destruct (find_root _ _ d) eqn:Hd;
        [subst m1|destruct H1 as [-> _]; reflexivity].
      apply lookup_delete_ne. intros ->. congruence.
Qed.

End Entries.

(** X7: the domain-to-IP record a run persists holds nothing the run did
    not put there for a reason: every entry was in the record before with
    the same IP, or is the current public IP of a current host name that
    resolves to a routing configuration.  The entry of a host name that
    resolves to none, and of a host name that is neither current nor
    previous, stays as it was. *)
Theorem persisted_record_entries
    (cfg : config) (answer : oracle) (recursion_limit : nat)
    (FORCE_UPDATE : option string) (fs : files) (past : list event)
    (current : list string) (ev1 : list event) (ip : string)
    (ev2 : list event) :
  fetch_current_domains cfg answer fs past = (Ok current, fs, ev1) ->
  get_public_ip answer fs (past ++ ev1) = (Ok (Some ip), fs, ev2) ->
  ip ≠ EmptyString ->
  something_changed FORCE_UPDATE fs current ip ->
  exists m evs,
    main cfg answer recursion_limit FORCE_UPDATE fs past
    = (Ok 0%Z,
       {| hosts_filename := Some (host_file_text current);
          domain_ips_file := Some (Mapping m);
          last_ip_file := Some ip |}, evs) /\
    (forall k v,
       m !! k = Some v ->
       stored_ips_of fs !! k = Some v \/
       (v = ip /\ k ∈ current /\
        find_root (CLOUDFLARE_CONFIG cfg) (CLOUDFLARE_CONFIG cfg).*1 k ≠ None)) /\
    (forall k,
       find_root (CLOUDFLARE_CONFIG cfg) (CLOUDFLARE_CONFIG cfg).*1 k = None ->
       m !! k = stored_ips_of fs !! k) /\
    (forall k,
       k ∉ current -> k ∉ previous_domains_of fs ->
       m !! k = stored_ips_of fs !! k).
Proof.
  intros E1 E2 Hip Hchanged.
  destruct (main_cycle cfg answer recursion_limit FORCE_UPDATE fs past
              current ev1 ip ev2 E1 E2 Hip Hchanged)
    as (evl & m1 & evc & m2 & evd & _ & _ & Ec & _ & Ed & _ & Hmain).
  destruct (process_current_entries _ _ _ _ _ _ _ _ _ _ _ _ _ Ec)
    as [Hval1 Hun1].
  destruct (process_deleted_entries _ _ _ _ _ _ _ _ Ed) as [Hval2 Hun2].
  exists m2. eexists. split; [exact Hmain|]. split; [|split].
  - intros k v Hk. apply Hval1, Hval2, Hk.
  - intros k Hk. rewrite (Hun2 k Hk). apply Hun1, Hk.
  - intros k Hc Hp.
    destruct (process_current_run cfg answer recursion_limit
                (list_difference current (previous_domains_of fs))
                (negb (bool_decide (last_known_ip_of fs = Some ip)))
                (force_update_of FORCE_UPDATE) ip current (stored_ips_of fs)
                fs (past ++ ev1 ++ ev2 ++ evl))
      as (m1' & evc' & Ec' & Hout1).
    rewrite Ec in Ec'. injection Ec' as <- <-.
    destruct (process_deleted_run cfg answer
                (list_difference (previous_domains_of fs) current) m1 fs
                ((past ++ ev1 ++ ev2 ++ evl) ++ evc))
      as (m2' & evd' & Ed' & Hout2 & _).
    rewrite Ed in Ed'. injection Ed' as <- <-.
    rewrite Hout2, Hout1; [reflexivity|exact Hc|].
    rewrite list_elem_of_difference. tauto.
Qed.

(** ** What the run logs and attempts *)

Lemma log_status_ip_line created deleted dc last ip fs past evl :
  log_status created deleted dc true last ip fs past = (Ok tt, fs, evl) ->
  Print (if PyStr.truthy (default EmptyString last)
         then LogIpChange (default EmptyString last) ip
         else LogInitialIp ip) ∈ evl.
Proof.
  unfold log_status, when, bind, print, emit, ret.
  repeat (case_match; simplify_eq/=); intros [= <-];
    rewrite ?elem_of_app, ?elem_of_cons; auto 10.
Qed.

(** X8: for state files that hold ASCII text and a domain-to-IP record
    that is absent, unreadable or a JSON object, when the public IP is not
    the last known one, or none is known, the run goes through the
    update cycle, logs the change (naming the old IP) or, without a usable
    old IP, an initial detection, and persists the public IP as the last
    known one. *)
Theorem public_ip_change_is_logged_and_persisted
    (cfg : config) (answer : oracle) (recursion_limit : nat)
    (FORCE_UPDATE : option string) (fs : files) (past : list event)
    (current : list string) (ev1 : list event) (ip : string)
    (ev2 : list event) :
  fetch_current_domains cfg answer fs past = (Ok current, fs, ev1) ->
  get_public_ip answer fs (past ++ ev1) = (Ok (Some ip), fs, ev2) ->
  ip ≠ EmptyString ->
  ascii_files fs = true ->
  last_known_ip_of fs ≠ Some ip ->
  exists fs' evs,
    main cfg answer recursion_limit FORCE_UPDATE fs past = (Ok 0%Z, fs', evs) /\
    last_ip_file fs' = Some ip /\
    Print (match last_known_ip_of fs with
           | Some old =>
               if PyStr.truthy old then LogIpChange old ip
               else LogInitialIp ip
           | None => LogInitialIp ip
           end) ∈ evs.
Proof.
  intros E1 E2 Hip _ Hlast.
  assert (Hchanged : something_changed FORCE_UPDATE fs current ip)
    by (unfold something_changed; tauto).
  destruct (main_cycle cfg answer recursion_limit FORCE_UPDATE fs past
              current ev1 ip ev2 E1 E2 Hip Hchanged)
    as (evl & m1 & evc & m2 & evd & El & _ & _ & _ & _ & _ & Hmain).
  rewrite (bool_decide_eq_false_2 _ Hlast) in El. cbn [negb] in El.
  apply log_status_ip_line in El.
  do 2 eexists. split; [exact Hmain|]. split; [reflexivity|].
  rewrite !elem_of_app. do 2 right. left.
  destruct (last_known_ip_of fs); exact El.
Qed.

Lemma list_a_records_head answer domain cf fs past :
  exists r fs1 evs,
    list_a_records answer domain cf fs past
    = (r, fs1, Request (CfList (ZONE_ID cf) (API_TOKEN cf) "A" domain) :: evs).
Proof.
  unfold list_a_records. apply bind_head.
  unfold http. destruct (answer past _); eauto.
Qed.

(** An update attempt opens with the lookup of the existing A records. *)
Lemma update_cloudflare_a_record_head answer depth domain ip cf fs past :
  exists r fs1 evs,
    update_cloudflare_a_record answer (S depth) domain ip cf fs past
    = (r, fs1,
       Request (CfList (ZONE_ID cf) (API_TOKEN cf) "A" domain) :: evs).
Proof.
  cbn [update_cloudflare_a_record]. apply bind_head, list_a_records_head.
Qed.

(** X9: for state files that hold ASCII text and a domain-to-IP record
    that is absent, unreadable or a JSON object, in a run that enters the
    update cycle, every current host name that resolves to a routing
    configuration and is due (it is new, it has no stored IP, the public IP
    is not the last known one, or the run is forced) gets its lookup at the
    provider, in its own zone, whatever the provider answered for the host
    names handled before it. *)
Theorem due_hostname_is_attempted
    (cfg : config) (answer : oracle) (recursion_limit : nat)
    (FORCE_UPDATE : option string) (fs : files) (past : list event)
    (current : list string) (ev1 : list event) (ip : string)
    (ev2 : list event) (h : string) (cf : cf_config) :
  fetch_current_domains cfg answer fs past = (Ok current, fs, ev1) ->
  get_public_ip answer fs (past ++ ev1) = (Ok (Some ip), fs, ev2) ->
  ip ≠ EmptyString ->
  ascii_files fs = true ->
  something_changed FORCE_UPDATE fs current ip ->
  recursion_limit ≠ O ->
  h ∈ current ->
  find_root (CLOUDFLARE_CONFIG cfg) (CLOUDFLARE_CONFIG cfg).*1 h = Some cf ->
  h ∉ previous_domains_of fs \/ stored_ips_of fs !! h = None \/
    last_known_ip_of fs ≠ Some ip \/ force_update_of FORCE_UPDATE = true ->
  exists fs' evs,
    main cfg answer recursion_limit FORCE_UPDATE fs past = (Ok 0%Z, fs', evs) /\
    Request (CfList (ZONE_ID cf) (API_TOKEN cf) "A" h) ∈ evs.
Proof.
  intros E1 E2 Hip _ Hchanged Hlimit Hcur Hroute Hdue.
  destruct recursion_limit as [|depth] eqn:Hdepth; [contradiction|].
  rewrite <- Hdepth in *.
  destruct (main_cycle cfg answer recursion_limit FORCE_UPDATE fs past
              current ev1 ip ev2 E1 E2 Hip Hchanged)
    as (evl & m1 & evc & m2 & evd & _ & _ & Ec & _ & _ & _ & Hmain).
  destruct (process_current_focus cfg answer recursion_limit
              (list_difference current (previous_domains_of fs))
              (negb (bool_decide (last_known_ip_of fs = Some ip)))
              (force_update_of FORCE_UPDATE) ip current h
              (stored_ips_of fs) fs (past ++ ev1 ++ ev2 ++ evl)
              (fetch_current_domains_NoDup _ _ _ _ _ _ _ E1) Hcur)
    as (stored_h & past_h & m_h & evs_h & m1' & evc' & Ec' & Eh & Hs & _ & Hev).
  rewrite Ec in Ec'. injection Ec' as <- <-.
  destruct (process_domain_cases cfg answer recursion_limit
              (list_difference current (previous_domains_of fs))
              (negb (bool_decide (last_known_ip_of fs = Some ip)))
              (force_update_of FORCE_UPDATE) ip h stored_h fs past_h)
    as (m_h' & evs_h' & Eh' & Hcases).
  rewrite Eh in Eh'. injection Eh' as <- <-.
  rewrite Hroute in Hcases.
  do 2 eexists. split; [exact Hmain|].
  rewrite !elem_of_app. do 3 right. left. apply Hev.
  destruct (bool_decide (h ∈ list_difference current (previous_domains_of fs))
            || bool_decide (stored_h !! h = None)) eqn:Hnew.
  - destruct Hcases as (r & evu & Ecreate & Hr).
    rewrite Hdepth in Ecreate.
    destruct (create_cloudflare_a_record_head answer depth h ip cf fs
                (past_h ++ [Print (LogNewDomain h ip)]))
      as (r' & fs1 & evs' & Ehead).
    rewrite Ecreate in Ehead. injection Ehead as _ _ ->.
    destruct r as [[]|e]; destruct Hr as [_ ->]; right; left.
  - apply orb_false_iff in Hnew as [Hn1 Hn2].
    apply bool_decide_eq_false in Hn1, Hn2.
    rewrite list_elem_of_difference in Hn1. rewrite Hs in Hn2.
    assert (Hwhy : negb (bool_decide (last_known_ip_of fs = Some ip))
                   || force_update_of FORCE_UPDATE = true).
    { destruct Hdue as [H|[H|[H|H]]]; [tauto|contradiction| |].
      - rewrite (bool_decide_eq_false_2 _ H). reflexivity.
      - rewrite H. apply orb_true_r. }
    rewrite Hwhy in Hcases. cbv zeta in Hcases.
    destruct Hcases as (r & evu & Eupdate & Hr).
    rewrite Hdepth in Eupdate.
    match type of Eupdate with
    | update_cloudflare_a_record _ _ _ _ _ _ ?p = _ =>
        destruct (update_cloudflare_a_record_head answer depth h ip cf fs p)
          as (r' & fs1 & evs' & Ehead)
    end.
    rewrite Eupdate in Ehead. injection Ehead as _ _ ->.
    destruct r as [[]|e]; destruct Hr as [_ ->]; right; left.
Qed.

Lemma process_deleted_domain_head cfg answer d cf
    (stored : gmap string string) fs past :
  find_root (CLOUDFLARE_CONFIG cfg) (CLOUDFLARE_CONFIG cfg).*1 d = Some cf ->
  exists m' evs,
    process_deleted_domain cfg answer d stored fs past
    = (Ok m', fs,
       Print (LogDeleting d)
       :: Request (CfList (ZONE_ID cf) (API_TOKEN cf) "A" d) :: evs).
Proof.
  intros Hroute.
  destruct (process_deleted_domain_cases cfg answer d stored fs past)
    as (m' & evs & E & _).
  exists m'. rewrite E.
  assert (H : exists rest,
            evs = Print (LogDeleting d)
                  :: Request (CfList (ZONE_ID cf) (API_TOKEN cf) "A" d) :: rest);
    [|destruct H as [rest ->]; eauto].
  revert E.
  unfold process_deleted_domain, bind at 1.
  rewrite get_cf_config_for_domain_run, Hroute, app_nil_r.
  unfold bind at 1, try_except, bind at 1. cbn [print emit].
  destruct (list_a_records_head answer d cf fs
              (past ++ [Print (LogDeleting d)])) as (r & fs1 & evl & El).
  unfold delete_cloudflare_a_record, bind at 1. rewrite El.
  destruct r as [results|e]; cbv beta iota zeta.
  - destruct results as [|record rest]; cbv beta iota zeta.
    + cbn. intros [= _ _ <-]. eauto.
    + match goal with
      | |- context [delete_records ?a ?b ?c ?rs ?f ?p] =>
          destruct (delete_records a b c rs f p) as [[[[]|e] fs2] ev2]
      end; cbn; intros [= _ _ <-]; eauto.
  - cbn. intros [= _ _ <-]. eauto.
Qed.

Lemma process_deleted_focus cfg answer doms h :
  forall (stored : gmap string string) fs past,
  h ∈ doms ->
  exists stored_h past_h m_h evs_h m' evs,
    process_deleted cfg answer doms stored fs past = (Ok m', fs, evs) /\
    process_deleted_domain cfg answer h stored_h fs past_h
      = (Ok m_h, fs, evs_h) /\
    (forall e, e ∈ evs_h -> e ∈ evs).
Proof.
  induction doms as [|d rest IH]; intros stored fs past Hin.
  - apply elem_of_nil in Hin as [].
  - cbn [process_deleted].
    destruct (process_deleted_domain_cases cfg answer d stored fs past)
      as (m1 & ev1 & E1 & _).
    apply elem_of_cons in Hin as [->|Hin].
    + destruct (process_deleted_run cfg answer rest m1 fs (past ++ ev1))
        as (m2 & ev2 & E2 & _).
      exists stored, past, m1, ev1, m2, (ev1 ++ ev2).
      split; [|split; [exact E1|]].
      * rewrite (bind_run _ _ _ _ _ _ _ E1), E2. reflexivity.
      * intros e He. apply elem_of_app. auto.
    + destruct (IH m1 fs (past ++ ev1) Hin)
        as (stored_h & past_h & m_h & evs_h & m2 & ev2 & E2 & Eh & Hev).
      exists stored_h, past_h, m_h, evs_h, m2, (ev1 ++ ev2).
      split; [|split; [exact Eh|]].
      * rewrite (bind_run _ _ _ _ _ _ _ E1), E2. reflexivity.
      * intros e He. apply elem_of_app. auto.
Qed.

(** X10: for state files that hold ASCII text and a domain-to-IP record
    that is absent, unreadable or a JSON object, every host name that left
    the inventory and resolves to a routing configuration gets its delete
    attempt: the run logs it and looks its A records up in its zone,
    whatever the provider answered for the host names handled before it. *)
Theorem removed_hostname_is_attempted
    (cfg : config) (answer : oracle) (recursion_limit : nat)
    (FORCE_UPDATE : option string) (fs : files) (past : list event)
    (current : list string) (ev1 : list event) (ip : string)
    (ev2 : list event) (h : string) (cf : cf_config) :
  fetch_current_domains cfg answer fs past = (Ok current, fs, ev1) ->
  get_public_ip answer fs (past ++ ev1) = (Ok (Some ip), fs, ev2) ->
  ip ≠ EmptyString ->
  ascii_files fs = true ->
  h ∈ previous_domains_of fs ->
  h ∉ current ->
  find_root (CLOUDFLARE_CONFIG cfg) (CLOUDFLARE_CONFIG cfg).*1 h = Some cf ->
  exists fs' evs,
    main cfg answer recursion_limit FORCE_UPDATE fs past = (Ok 0%Z, fs', evs) /\
    Print (LogDeleting h) ∈ evs /\
    Request (CfList (ZONE_ID cf) (API_TOKEN cf) "A" h) ∈ evs.
Proof.
  intros E1 E2 Hip _ Hprev Hcur Hroute.
  assert (Hdel : h ∈ list_difference (previous_domains_of fs) current)
    by (apply list_elem_of_difference; auto).
  assert (Hchanged : something_changed FORCE_UPDATE fs current ip).
  { right. left. intros E. rewrite E in Hdel. apply elem_of_nil in Hdel as []. }
  destruct (main_cycle cfg answer recursion_limit FORCE_UPDATE fs past
              current ev1 ip ev2 E1 E2 Hip Hchanged)
    as (evl & m1 & evc & m2 & evd & _ & _ & _ & _ & Ed & _ & Hmain).
  destruct (process_deleted_focus cfg answer _ h m1 fs
              ((past ++ ev1 ++ ev2 ++ evl) ++ evc) Hdel)
    as (stored_h & past_h & m_h & evs_h & m2' & evd' & Ed' & Eh & Hev).
  rewrite Ed in Ed'. injection Ed' as <- <-.
  destruct (process_deleted_domain_head cfg answer h cf stored_h fs past_h
              Hroute) as (m_h' & rest & Eh').
  rewrite Eh in Eh'. injection Eh' as _ ->.
  do 2 eexists. split; [exact Hmain|].
  split; rewrite !elem_of_app; do 4 right; left; apply Hev.
  - left.
  - right. left.
Qed.

(** ** The adapters *)

(** X11: the host names [update_host_file] writes are the ones the next
    run reads as its previous set, in the same order, when they are
    well-formed and distinct; the other two stores are not touched. *)
Theorem update_host_file_round_trip
    (current_hosts : list string) (fs : files) (past : list event) :
  Forall (fun h => wf_name h = true) current_hosts ->
  NoDup current_hosts ->
  let fs' := (update_host_file current_hosts fs past).1.2 in
  previous_domains_of fs' = current_hosts /\
  domain_ips_file fs' = domain_ips_file fs /\
  last_ip_file fs' = last_ip_file fs.
Proof.
  intros Hwf Hnd fs'. subst fs'. unfold update_host_file.
  cbn [fst snd domain_ips_file last_ip_file]. split; [|auto].
  apply previous_domains_roundtrip; [reflexivity|assumption..].
Qed.

(** X12: [get_public_ip] never raises and makes exactly one request.  It
    returns an address exactly when the service answers with a status
    outside 400..599 and a JSON body that has the key [ip]; in every other
    case (no response, error status, no JSON, no such key) it logs the
    error and returns nothing. *)
Theorem get_public_ip_answers
    (answer : oracle) (fs : files) (past : list event) :
  (forall ip,
     (get_public_ip answer fs past).1.1 = Ok (Some ip) <->
     exists code,
       answer past IpifyGet
         = Some {| status_code := code; body := Some (JIp ip) |} /\
       ((400 <=? code) && (code <? 600))%Z = false) /\
  exists r rest,
    get_public_ip answer fs past = (Ok r, fs, Request IpifyGet :: rest) /\
    (r = None <-> exists e, rest = [Print (LogIpError e)]) /\
    (r ≠ None -> rest = []).
Proof.
  split.
  - intros ip.
    unfold get_public_ip, try_except, bind, http, raise_for_status,
      response_json, subscript, ret, raise, print, emit, any_exception.
    split.
    + destruct (answer past IpifyGet) as [[code [j|]]|]; cbn;
        try discriminate;
        destruct ((400 <=? code) && (code <? 600))%Z eqn:Hcode; cbn;
        try discriminate; destruct j; cbn; try discriminate.
      intros [= <-]. eauto.
    + intros (code & -> & Hcode). cbn. rewrite Hcode. reflexivity.
  - unfold get_public_ip, try_except, bind, http, raise_for_status,
      response_json, subscript, ret, raise, print, emit, any_exception.
    repeat (case_match; simplify_eq/=);
      (do 2 eexists; split; [reflexivity|]; split;
       [ first [ split; [eauto|reflexivity]
               | split; [discriminate|intros [e' He']; discriminate He'] ]
       | first [ intros _; reflexivity | intros Hn; contradiction Hn; reflexivity ] ]).
Qed.

(** X13: the inventory logs in first and asks for the proxy hosts only
    after a successful login, with the token the login returned.  When it
    succeeds, the current host names are the domain names of the listed
    hosts, each once. *)
Theorem inventory_logs_in_then_lists
    (cfg : config) (answer : oracle) (fs : files) (past : list event) :
  let run := fetch_current_domains cfg answer fs past in
  let login :=
    NpmToken (NPM_API_URL cfg) (NPM_API_USER cfg) (NPM_API_PASS cfg) in
  (requests_of run.2 = [login] /\ (exists e, run.1.1 = Raise e) \/
   exists token code,
     answer past login
       = Some {| status_code := code; body := Some (JToken token) |} /\
     ((400 <=? code) && (code <? 600))%Z = false /\
     requests_of run.2 = [login; NpmProxyHosts (NPM_API_URL cfg) token] /\
     forall current,
       run.1.1 = Ok current ->
       NoDup current /\
       exists code' hosts,
         answer (past ++ [Request login])
                (NpmProxyHosts (NPM_API_URL cfg) token)
           = Some {| status_code := code'; body := Some (JHosts hosts) |} /\
         ((400 <=? code') && (code' <? 600))%Z = false /\
         forall d, d ∈ current <-> exists host, host ∈ hosts /\ d ∈ host).
Proof.
  cbv zeta.
  unfold fetch_current_domains, get_npm_token, get_proxy_hosts, domain_names,
    bind, http, raise_for_status, response_json, subscript, ret, raise.
  destruct (answer past _) as [[code bj]|] eqn:Ea; cbn;
    [|left; split; [reflexivity|eauto]].
  destruct ((400 <=? code) && (code <? 600))%Z eqn:Hcode; cbn;
    [left; split; [reflexivity|eauto]|].
  destruct bj as [[token| | | |]|]; cbn;
    try (left; split; [reflexivity|eauto]; fail).
  right. exists token, code. split; [reflexivity|]. split; [exact Hcode|].
  destruct (answer _ (NpmProxyHosts _ _)) as [[code' bj']|] eqn:Eb; cbn;
    [|split; [reflexivity|discriminate]].
  destruct ((400 <=? code') && (code' <? 600))%Z eqn:Hcode'; cbn;
    [split; [reflexivity|discriminate]|].
  destruct bj' as [[| hosts | | |]|]; cbn;
    (split; [reflexivity|]); try discriminate.
  intros current [= <-]. split; [apply NoDup_remove_dups|].
  exists code', hosts. split; [reflexivity|]. split; [exact Hcode'|].
  intros d. rewrite elem_of_remove_dups, list_elem_of_In, in_concat.
  split; intros (host & H1 & H2); exists host;
    rewrite ?list_elem_of_In in *; auto.
Qed.

Section DnsClientMore.
Context (answer : oracle) (cf : cf_config) (domain ip : string).

Lemma delete_records_run results :
  deletes_answered answer ->
  forall fs past, exists evs,
    delete_records answer domain cf results fs past = (Ok tt, fs, evs) /\
    requests_of evs
    = (fun record =>
         CfDelete (ZONE_ID cf) (API_TOKEN cf) (fmt_id (rec_id record)))
      <$> results.
Proof.
  intros Hdel. induction results as [|record rest IH]; intros fs past.
  - exists []. split; reflexivity.
  - cbn [delete_records].
    destruct (Hdel past (ZONE_ID cf) (API_TOKEN cf) (fmt_id (rec_id record)))
      as (response & Ea & Hresp).
    assert (Ehttp : http answer (CfDelete (ZONE_ID cf) (API_TOKEN cf)
                      (fmt_id (rec_id record))) fs past
                    = (Ok response, fs,
                       [Request (CfDelete (ZONE_ID cf) (API_TOKEN cf)
                                   (fmt_id (rec_id record)))]))
      by (unfold http; rewrite Ea; reflexivity).
    rewrite (bind_run _ _ _ _ _ _ _ Ehttp).
    assert (Hstep : exists evs1,
      try_except
        (raise_for_status response;; print (LogDeleted domain))
        http_error
        (fun _ =>
           error_detail <- response_json response;;
           print (LogDeleteFailed domain (status_code response));;
           print (LogDetails error_detail)) fs
        (past ++ [Request (CfDelete (ZONE_ID cf) (API_TOKEN cf)
                             (fmt_id (rec_id record)))])
      = (Ok tt, fs, evs1) /\
      requests_of evs1 = []).
    { unfold bind, try_except, raise_for_status, response_json.
      destruct ((400 <=? status_code response)
                && (status_code response <? 600))%Z; cbn.
      - destruct Hresp as [?|Hbody]; [discriminate|].
        destruct (body response); [|contradiction]. cbn. eauto.
      - eauto. }
    destruct Hstep as (evs1 & E1 & Hreq1).
    rewrite (bind_run _ _ _ _ _ _ _ E1).
    match goal with
    | |- context [delete_records _ _ _ rest ?fs' ?past'] =>
        destruct (IH fs' past') as (evs & E & Hreq)
    end.
    rewrite E. eexists. split; [reflexivity|].
    cbn [app].
    change (requests_of (Request ?a :: ?l)) with (a :: requests_of l).
    unfold requests_of in *. rewrite omap_app, Hreq1, Hreq. reflexivity.
Qed.

Lemma update_run_empty depth fs past :
  provider_lists answer cf domain [] ->
  exists r evs,
    update_cloudflare_a_record answer (S (S depth)) domain ip cf fs past
    = (r, fs,
       Request (CfList (ZONE_ID cf) (API_TOKEN cf) "A" domain)
       :: Print (LogNoRecordToUpdate domain)
       :: Request (CfList (ZONE_ID cf) (API_TOKEN cf) "A" domain)
       :: Request (CfPost (ZONE_ID cf) (API_TOKEN cf)
                          (a_record_for domain ip))
       :: evs) /\
    requests_of evs = [].
Proof.
  intros Hlist. cbn [update_cloudflare_a_record].
  rewrite (bind_run _ _ _ _ _ _ _
             (list_a_records_run answer cf domain _ fs past Hlist)).
  unfold bind at 1. cbn [print emit].
  match goal with
  | |- context [create_cloudflare_a_record _ _ _ _ _ ?fs' ?past'] =>
      destruct (create_run_empty answer cf domain ip depth fs' past' Hlist)
        as (r & evs & -> & Hreq)
  end.
  exists r, evs. split; [reflexivity|exact Hreq].
Qed.

Lemma update_run_existing depth record rest fs past :
  provider_lists answer cf domain (record :: rest) ->
  updates_answered answer ->
  exists evs,
    update_cloudflare_a_record answer (S depth) domain ip cf fs past
    = (Ok tt, fs,
       Request (CfList (ZONE_ID cf) (API_TOKEN cf) "A" domain) :: evs) /\
    requests_of evs
    = (fun record =>
         CfPut (ZONE_ID cf) (API_TOKEN cf) (fmt_id (rec_id record))
               (a_record_for domain ip))
      <$> filter (fun record => rec_content record ≠ Some ip)
                 (record :: rest).
Proof.
  intros Hlist Hput. cbn [update_cloudflare_a_record].
  rewrite (bind_run _ _ _ _ _ _ _
             (list_a_records_run answer cf domain _ fs past Hlist)).
  match goal with
  | |- context [update_records _ _ _ _ _ ?fs' ?past'] =>
      destruct (update_records_run answer cf domain ip (record :: rest)
                  Hput fs' past') as (evs & -> & Hreq)
  end.
  exists evs. split; [reflexivity|exact Hreq].
Qed.

End DnsClientMore.

(** X14: [update_cloudflare_a_record] looks the A records of the host name
    up.  Without records it falls back to the create, which looks them up
    once more and posts one A record; with records it makes one update for
    each record whose content differs from the IP, in order, and no request
    for a record that holds the IP already, and returns normally. *)
Theorem update_reconciles_or_creates
    (answer : oracle) (depth : nat) (domain ip : string) (cf : cf_config)
    (results : list dns_record) (fs : files) (past : list event) :
  provider_lists answer cf domain results ->
  updates_answered answer ->
  let run :=
    update_cloudflare_a_record answer (S (S depth)) domain ip cf fs past in
  let lookup := CfList (ZONE_ID cf) (API_TOKEN cf) "A" domain in
  let data :=
    {| rtype := "A"; name := domain; content := ip;
       ttl := 3600%Z; proxied := true |} in
  match results with
  | [] =>
      Print (LogNoRecordToUpdate domain) ∈ run.2 /\
      requests_of run.2
      = [lookup; lookup; CfPost (ZONE_ID cf) (API_TOKEN cf) data]
  | _ :: _ =>
      run.1.1 = Ok tt /\
      requests_of run.2
      = lookup ::
        ((fun record =>
            CfPut (ZONE_ID cf) (API_TOKEN cf) (fmt_id (rec_id record)) data)
         <$> filter (fun record => rec_content record ≠ Some ip) results)
  end.
Proof.
  intros Hlist Hput. cbv zeta.
  destruct results as [|record rest].
  - destruct (update_run_empty answer cf domain ip depth fs past Hlist)
      as (r & evs & -> & Hreq).
    cbn [fst snd]. split; [right; left|].
    change (requests_of (Request ?a :: Print ?l :: Request ?b :: Request ?c :: evs))
      with (a :: b :: c :: requests_of evs).
    rewrite Hreq. reflexivity.
  - destruct (update_run_existing answer cf domain ip (S depth) record rest
                fs past Hlist Hput) as (evs & -> & Hreq).
    cbn [fst snd]. split; [reflexivity|].
    change (requests_of (Request ?a :: evs)) with (a :: requests_of evs).
    rewrite Hreq. reflexivity.
Qed.

(** X15: [delete_cloudflare_a_record] looks the A records of the host name
    up and deletes every record the provider lists, by its identifier, in
    order, one request each; a delete the provider rejects does not keep
    it from the records after it.  With no record it only logs that there
    is none. *)
Theorem delete_removes_every_listed_record
    (answer : oracle) (domain : string) (cf : cf_config)
    (results : list dns_record) (fs : files) (past : list event) :
  provider_lists answer cf domain results ->
  deletes_answered answer ->
  exists evs,
    delete_cloudflare_a_record answer domain cf fs past = (Ok tt, fs, evs) /\
    requests_of evs
    = CfList (ZONE_ID cf) (API_TOKEN cf) "A" domain ::
      ((fun record =>
          CfDelete (ZONE_ID cf) (API_TOKEN cf) (fmt_id (rec_id record)))
       <$> results) /\
    (results = [] -> Print (LogNoRecord domain) ∈ evs).
Proof.
  intros Hlist Hdel. unfold delete_cloudflare_a_record.
  rewrite (bind_run _ _ _ _ _ _ _
             (list_a_records_run answer cf domain _ fs past Hlist)).
  destruct results as [|record rest].
  - eexists. split; [reflexivity|]. split; [reflexivity|].
    intros _. right. left.
  - match goal with
    | |- context [delete_records _ _ _ _ ?fs' ?past'] =>
        destruct (delete_records_run answer cf domain (record :: rest)
                    Hdel fs' past') as (evs & -> & Hreq)
    end.
    eexists. split; [reflexivity|]. split; [|discriminate].
    cbn [app].
    change (requests_of (Request ?a :: evs)) with (a :: requests_of evs).
    rewrite Hreq. reflexivity.
Qed.

(** ** The first loop on one host name *)

Section FirstLoopBranches.
Context (cfg : config) (answer : oracle) (recursion_limit : nat).
Context (created : list string) (ipc force : bool) (ip h : string).
Context (cf : cf_config).
Hypothesis Hroute :
  find_root (CLOUDFLARE_CONFIG cfg) (CLOUDFLARE_CONFIG cfg).*1 h = Some cf.

(** The branch of new domains: the log line, the create, and then either
    the assignment or the logged error. *)
Lemma process_domain_create (stored : gmap string string) fs past m' evs :
  h ∈ created \/ stored !! h = None ->
  process_domain cfg answer recursion_limit created ipc force ip h stored
    fs past = (Ok m', fs, evs) ->
  exists r evc,
    create_cloudflare_a_record answer recursion_limit h ip cf fs
      (past ++ [Print (LogNewDomain h ip)]) = (r, fs, evc) /\
    match r with
    | Ok _ =>
        m' = <[h := ip]> stored /\
        evs = [Print (LogNewDomain h ip)] ++ evc ++ []
    | Raise e =>
        m' = stored /\
        evs = [Print (LogNewDomain h ip)] ++ evc
                ++ [Print (LogCreationError h e)]
    end.
Proof.
  intros Hnew E.
  destruct (process_domain_cases cfg answer recursion_limit created ipc force
              ip h stored fs past) as (m'' & evs'' & E' & Hcases).
  rewrite E in E'. injection E' as <- <-.
  rewrite Hroute in Hcases.
  replace (bool_decide (h ∈ created) || bool_decide (stored !! h = None))
    with true in Hcases.
  2:{ symmetry. apply orb_true_iff.
      destruct Hnew as [H|H]; [left|right]; apply bool_decide_eq_true_2, H. }
  destruct Hcases as (r & evc & Ecreate & Hr).
  exists r, evc. split; [exact Ecreate|].
  destruct r as [[]|e]; destruct Hr as [-> ->];
    rewrite ?app_nil_r; split; reflexivity.
Qed.

(** The branch of known domains when the IP changed or the run is forced:
    the log line, the update, and then either the assignment or the logged
    error. *)
Lemma process_domain_update (stored : gmap string string) fs past m' evs :
  h ∉ created -> stored !! h ≠ None -> ipc || force = true ->
  process_domain cfg answer recursion_limit created ipc force ip h stored
    fs past = (Ok m', fs, evs) ->
  let line := if ipc then LogUpdating h ip else LogForced h ip in
  exists r evu,
    update_cloudflare_a_record answer recursion_limit h ip cf fs
      (past ++ [Print line]) = (r, fs, evu) /\
    match r with
    | Ok _ => m' = <[h := ip]> stored /\ evs = [Print line] ++ evu ++ []
    | Raise e =>
        m' = stored /\
        evs = [Print line] ++ evu ++ [Print (LogUpdateError h e)]
    end.
Proof.
  intros Hold Hstored Hwhy E.
  destruct (process_domain_cases cfg answer recursion_limit created ipc force
              ip h stored fs past) as (m'' & evs'' & E' & Hcases).
  rewrite E in E'. injection E' as <- <-.
  rewrite Hroute in Hcases.
  rewrite (bool_decide_eq_false_2 _ Hold),
    (bool_decide_eq_false_2 _ Hstored), Hwhy in Hcases.
  cbn [orb] in Hcases. cbv zeta in Hcases |- *.
  destruct Hcases as (r & evu & Eupdate & Hr).
  exists r, evu. split; [exact Eupdate|].
  destruct r as [[]|e]; destruct Hr as [-> ->];
    rewrite ?app_nil_r; split; reflexivity.
Qed.

End FirstLoopBranches.

(** C3, as the script has it: with state files that hold ASCII text, for
    a host name in the previous and in the current set that resolves to a
    routing configuration and has a stored IP other than the public IP, a
    run in which the public IP differs from the last known one or the force
    flag is set completes, and somewhere in it makes the update of that
    host name: the events of the run are those before the update, those of
    the update, and those after it.  When the update returns without a
    logged rejection of a write, the run leaves the public IP stored for
    the host name; when the update raises, the next thing the run does is
    log the error, and it leaves the stored IP as it was.  The update is
    the one of [update_cloudflare_a_record]: against a provider that lists
    the records of the name and answers every update, it asks for the
    records and then sends one update for each record that holds another
    IP, or, without any record, asks again and posts the A record. *)
Theorem stale_hostname_converges
    (cfg : config) (answer : oracle) (recursion_limit : nat)
    (FORCE_UPDATE : option string) (fs : files) (past : list event)
    (current : list string) (ev1 : list event) (ip : string)
    (ev2 : list event) (h : string) (cf : cf_config) (old : string) :
  fetch_current_domains cfg answer fs past = (Ok current, fs, ev1) ->
  get_public_ip answer fs (past ++ ev1) = (Ok (Some ip), fs, ev2) ->
  ip ≠ EmptyString ->
  ascii_files fs = true ->
  h ∈ previous_domains_of fs ->
  h ∈ current ->
  stored_ips_of fs !! h = Some old ->
  old ≠ ip ->
  find_root (CLOUDFLARE_CONFIG cfg) (CLOUDFLARE_CONFIG cfg).*1 h = Some cf ->
  last_known_ip_of fs ≠ Some ip \/ force_update_of FORCE_UPDATE = true ->
  exists fs' before r evu after,
    main cfg answer recursion_limit FORCE_UPDATE fs past
    = (Ok 0%Z, fs', before ++ evu ++ after) /\
    update_cloudflare_a_record answer recursion_limit h ip cf fs
      (past ++ before) = (r, fs, evu) /\
    match r with
    | Ok _ => writes_accepted evu -> stored_ips_of fs' !! h = Some ip
    | Raise e =>
        stored_ips_of fs' !! h = Some old /\
        exists rest, after = Print (LogUpdateError h e) :: rest
    end /\
    forall results,
      (2 <= recursion_limit)%nat ->
      provider_lists answer cf h results ->
      updates_answered answer ->
      let lookup := CfList (ZONE_ID cf) (API_TOKEN cf) "A" h in
      let data :=
        {| rtype := "A"; name := h; content := ip;
           ttl := 3600%Z; proxied := true |} in
      requests_of evu
      = match results with
        | [] => [lookup; lookup; CfPost (ZONE_ID cf) (API_TOKEN cf) data]
        | _ :: _ =>
            lookup ::
            ((fun record =>
                CfPut (ZONE_ID cf) (API_TOKEN cf) (fmt_id (rec_id record)) data)
             <$> filter (fun record => rec_content record ≠ Some ip) results)
        end.
Proof.
  intros E1 E2 Hip _ Hprev Hcur Hold _ Hroute Hwhy.
  assert (Hchanged : something_changed FORCE_UPDATE fs current ip)
    by (unfold something_changed; tauto).
  destruct (main_first_loop_focus cfg answer recursion_limit FORCE_UPDATE fs
              past current ev1 ip ev2 h E1 E2 Hip Hchanged Hcur)
    as (fs' & pre & stored_h & m_h & evs_h & post & Emain & Eh & Hs & Hm).
  assert (Hipc : negb (bool_decide (last_known_ip_of fs = Some ip))
                 || force_update_of FORCE_UPDATE = true).
  { destruct Hwhy as [H|H].
    - rewrite (bool_decide_eq_false_2 _ H). reflexivity.
    - rewrite H. apply orb_true_r. }
  destruct (process_domain_update cfg answer recursion_limit
              (list_difference current (previous_domains_of fs))
              (negb (bool_decide (last_known_ip_of fs = Some ip)))
              (force_update_of FORCE_UPDATE) ip h cf
              Hroute stored_h fs (past ++ pre) m_h evs_h)
    as (r & evu & Eu & Hr);
    [rewrite list_elem_of_difference; tauto
    |rewrite Hs, Hold; discriminate|exact Hipc|exact Eh|].
  set (line := if negb (bool_decide (last_known_ip_of fs = Some ip))
               then LogUpdating h ip else LogForced h ip) in *.
  rewrite <- app_assoc in Eu.
  exists fs', (pre ++ [Print line]), r, evu.
  assert (Hsplit : forall tail,
            evs_h = [Print line] ++ evu ++ tail ->
            main cfg answer recursion_limit FORCE_UPDATE fs past
            = (Ok 0%Z, fs', (pre ++ [Print line]) ++ evu ++ tail ++ post)).
  { intros tail ->. rewrite Emain, <- !app_assoc. reflexivity. }
  assert (Hpin : forall results,
      (2 <= recursion_limit)%nat ->
      provider_lists answer cf h results ->
      updates_answered answer ->
      requests_of evu
      = match results with
        | [] =>
            [CfList (ZONE_ID cf) (API_TOKEN cf) "A" h;
             CfList (ZONE_ID cf) (API_TOKEN cf) "A" h;
             CfPost (ZONE_ID cf) (API_TOKEN cf) (a_record_for h ip)]
        | _ :: _ =>
            CfList (ZONE_ID cf) (API_TOKEN cf) "A" h ::
            ((fun record =>
                CfPut (ZONE_ID cf) (API_TOKEN cf) (fmt_id (rec_id record))
                      (a_record_for h ip))
             <$> filter (fun record => rec_content record ≠ Some ip) results)
        end).
  { intros results Hlimit Hlist Hput.
    destruct recursion_limit as [|[|depth]]; [lia|lia|].
    destruct results as [|record rest].
    - destruct (update_run_empty answer cf h ip depth fs
                  (past ++ pre ++ [Print line]) Hlist)
        as (r' & evs' & E' & Hreq).
      rewrite Eu in E'. injection E' as _ ->.
      change (requests_of (Request ?a :: Print ?l :: Request ?b
                           :: Request ?c :: evs'))
        with (a :: b :: c :: requests_of evs').
      rewrite Hreq. reflexivity.
    - destruct (update_run_existing answer cf h ip (S depth) record rest fs
                  (past ++ pre ++ [Print line]) Hlist Hput)
        as (evs' & E' & Hreq).
      rewrite Eu in E'. injection E' as _ ->.
      change (requests_of (Request ?a :: evs')) with (a :: requests_of evs').
      rewrite Hreq. reflexivity. }
  destruct r as [[]|e]; destruct Hr as [Hm_h Hevs].
  - exists ([] ++ post). split; [exact (Hsplit _ Hevs)|].
    split; [exact Eu|]. split; [|exact Hpin].
    intros _. rewrite Hm, Hm_h. apply lookup_insert_eq.
  - exists ([Print (LogUpdateError h e)] ++ post).
    split; [exact (Hsplit _ Hevs)|].
    split; [exact Eu|]. split; [|exact Hpin].
    split; [|eauto]. rewrite Hm, Hm_h, Hs. exact Hold.
Qed.

(** C10, as the script has it: with state files that hold ASCII text,
    when [domain_ips.json] is missing or unreadable, a run that enters the
    update cycle does not fail; it goes on with the empty dict, so every
    host name of the current set that resolves to a routing configuration
    takes the branch of new domains, newly created or not: the events of
    the run are those before the create, which end with the log line of a
    new domain, those of the create, and those after it.  When the create
    returns without a logged rejection of a write, the run leaves the
    public IP stored for the host name; when the create raises, the next
    thing the run does is log the error, and it leaves no entry for the
    host name.  The create is the one of [create_cloudflare_a_record]:
    against a provider that lists the records of the name and answers every
    update, it asks for the records and posts the A record, or, with
    records, asks again and sends one update for each record that holds
    another IP. *)
Theorem missing_store_takes_create_branch
    (cfg : config) (answer : oracle) (recursion_limit : nat)
    (FORCE_UPDATE : option string) (fs : files) (past : list event)
    (current : list string) (ev1 : list event) (ip : string)
    (ev2 : list event) (h : string) (cf : cf_config) :
  fetch_current_domains cfg answer fs past = (Ok current, fs, ev1) ->
  get_public_ip answer fs (past ++ ev1) = (Ok (Some ip), fs, ev2) ->
  ip ≠ EmptyString ->
  ascii_files fs = true ->
  something_changed FORCE_UPDATE fs current ip ->
  domain_ips_file fs = None \/ domain_ips_file fs = Some Garbage ->
  h ∈ current ->
  find_root (CLOUDFLARE_CONFIG cfg) (CLOUDFLARE_CONFIG cfg).*1 h = Some cf ->
  exists fs' before r evc after,
    main cfg answer recursion_limit FORCE_UPDATE fs past
    = (Ok 0%Z, fs',
       (before ++ [Print (LogNewDomain h ip)]) ++ evc ++ after) /\
    create_cloudflare_a_record answer recursion_limit h ip cf fs
      (past ++ before ++ [Print (LogNewDomain h ip)]) = (r, fs, evc) /\
    match r with
    | Ok _ => writes_accepted evc -> stored_ips_of fs' !! h = Some ip
    | Raise e =>
        stored_ips_of fs' !! h = None /\
        exists rest, after = Print (LogCreationError h e) :: rest
    end /\
    forall results,
      (2 <= recursion_limit)%nat ->
      provider_lists answer cf h results ->
      updates_answered answer ->
      let lookup := CfList (ZONE_ID cf) (API_TOKEN cf) "A" h in
      let data :=
        {| rtype := "A"; name := h; content := ip;
           ttl := 3600%Z; proxied := true |} in
      requests_of evc
      = match results with
        | [] => [lookup; CfPost (ZONE_ID cf) (API_TOKEN cf) data]
        | _ :: _ =>
            lookup :: lookup ::
            ((fun record =>
                CfPut (ZONE_ID cf) (API_TOKEN cf) (fmt_id (rec_id record)) data)
             <$> filter (fun record => rec_content record ≠ Some ip) results)
        end.
Proof.
  intros E1 E2 Hip _ Hchanged Hfile Hcur Hroute.
  assert (Hempty : stored_ips_of fs = ∅)
    by (unfold stored_ips_of; destruct Hfile as [-> | ->]; reflexivity).
  destruct (main_first_loop_focus cfg answer recursion_limit FORCE_UPDATE fs
              past current ev1 ip ev2 h E1 E2 Hip Hchanged Hcur)
    as (fs' & pre & stored_h & m_h & evs_h & post & Emain & Eh & Hs & Hm).
  rewrite Hempty, lookup_empty in Hs.
  destruct (process_domain_create cfg answer recursion_limit
              (list_difference current (previous_domains_of fs))
              (negb (bool_decide (last_known_ip_of fs = Some ip)))
              (force_update_of FORCE_UPDATE) ip h cf
              Hroute stored_h fs (past ++ pre) m_h evs_h (or_intror Hs) Eh)
    as (r & evc & Ec & Hr).
  rewrite <- app_assoc in Ec.
  exists fs', pre, r, evc.
  assert (Hsplit : forall tail,
            evs_h = [Print (LogNewDomain h ip)] ++ evc ++ tail ->
            main cfg answer recursion_limit FORCE_UPDATE fs past
            = (Ok 0%Z, fs',
               (pre ++ [Print (LogNewDomain h ip)]) ++ evc ++ tail ++ post)).
  { intros tail ->. rewrite Emain, <- !app_assoc. reflexivity. }
  assert (Hpin : forall results,
      (2 <= recursion_limit)%nat ->
      provider_lists answer cf h results ->
      updates_answered answer ->
      requests_of evc
      = match results with
        | [] =>
            [CfList (ZONE_ID cf) (API_TOKEN cf) "A" h;
             CfPost (ZONE_ID cf) (API_TOKEN cf) (a_record_for h ip)]
        | _ :: _ =>
            CfList (ZONE_ID cf) (API_TOKEN cf) "A" h ::
            CfList (ZONE_ID cf) (API_TOKEN cf) "A" h ::
            ((fun record =>
                CfPut (ZONE_ID cf) (API_TOKEN cf) (fmt_id (rec_id record))
                      (a_record_for h ip))
             <$> filter (fun record => rec_content record ≠ Some ip) results)
        end).
  { intros results Hlimit Hlist Hput.
    destruct recursion_limit as [|[|depth]]; [lia|lia|].
    destruct results as [|record rest].
    - destruct (create_run_empty answer cf h ip (S depth) fs
                  (past ++ pre ++ [Print (LogNewDomain h ip)]) Hlist)
        as (r' & evs' & E' & Hreq).
      rewrite Ec in E'. injection E' as _ ->.
      change (requests_of (Request ?a :: Request ?b :: evs'))
        with (a :: b :: requests_of evs').
      rewrite Hreq. reflexivity.
    - destruct (create_run_existing answer cf h ip depth record rest fs
                  (past ++ pre ++ [Print (LogNewDomain h ip)]) Hlist Hput)
        as (evs' & E' & Hreq).
      rewrite Ec in E'. injection E' as _ ->.
      change (requests_of (Request ?a :: Print ?b :: Request ?c :: evs'))
        with (a :: c :: requests_of evs').
      rewrite Hreq. reflexivity. }
  destruct r as [[]|e]; destruct Hr as [Hm_h Hevs].
  - exists ([] ++ post). split; [exact (Hsplit _ Hevs)|].
    split; [exact Ec|]. split; [|exact Hpin].
    intros _. rewrite Hm, Hm_h. apply lookup_insert_eq.
  - exists ([Print (LogCreationError h e)] ++ post).
    split; [exact (Hsplit _ Hevs)|].
    split; [exact Ec|]. split; [|exact Hpin].
    split; [|eauto]. rewrite Hm, Hm_h. exact Hs.
Qed.

Lemma stale_hostname_converges_witness :
  let answer :=
    Scenario.services [["a.example.com"]] "2.2.2.2" Scenario.stale_provider in
  let fs := Scenario.tracking "a.example.com" "1.1.1.1" "1.1.1.1" in
  exists fs' before r evu after,
    main Scenario.cfg answer 5 None fs []
    = (Ok 0%Z, fs', before ++ evu ++ after) /\
    update_cloudflare_a_record answer 5 "a.example.com" "2.2.2.2"
      Scenario.zone fs ([] ++ before) = (r, fs, evu) /\
    match r with
    | Ok _ =>
        writes_accepted evu ->
        stored_ips_of fs' !! "a.example.com" = Some "2.2.2.2"
    | Raise e =>
        stored_ips_of fs' !! "a.example.com" = Some "1.1.1.1" /\
        exists rest, after = Print (LogUpdateError "a.example.com" e) :: rest
    end /\
    forall results,
      (2 <= 5)%nat ->
      provider_lists answer Scenario.zone "a.example.com" results ->
      updates_answered answer ->
      let lookup := CfList "zone-1" "cf-token" "A" "a.example.com" in
      let data :=
        {| rtype := "A"; name := "a.example.com"; content := "2.2.2.2";
           ttl := 3600%Z; proxied := true |} in
      requests_of evu
      = match results with
        | [] => [lookup; lookup; CfPost "zone-1" "cf-token" data]
        | _ :: _ =>
            lookup ::
            ((fun record =>
                CfPut "zone-1" "cf-token" (fmt_id (rec_id record)) data)
             <$> filter (fun record => rec_content record ≠ Some "2.2.2.2")
                        results)
        end.
Proof.
  intros answer fs.
  eapply (stale_hostname_converges Scenario.cfg answer 5 None fs []
            ["a.example.com"] _ "2.2.2.2" _ "a.example.com" Scenario.zone
            "1.1.1.1").
  - vm_compute. reflexivity.
  - vm_compute. reflexivity.
  - discriminate.
  - vm_compute. reflexivity.
  - vm_compute previous_domains_of. left.
  - left.
  - vm_compute. reflexivity.
  - discriminate.
  - vm_compute. reflexivity.
  - left. vm_compute. discriminate.
Defined.

(** The run of that example, in full: the provider lists two records that
    hold other IPs and accepts the update of each, and the run leaves the
    public IP stored for the host name. *)
Example stale_hostname_update_accepted :
  let answer :=
    Scenario.services [["a.example.com"]] "2.2.2.2" Scenario.stale_provider in
  let fs := Scenario.tracking "a.example.com" "1.1.1.1" "1.1.1.1" in
  let run := main Scenario.cfg answer 5 None fs [] in
  run.1.1 = Ok 0%Z /\
  filter is_dns_request (requests_of run.2)
    = [CfList "zone-1" "cf-token" "A" "a.example.com";
       CfPut "zone-1" "cf-token" "rec-1" (a_record_for "a.example.com" "2.2.2.2");
       CfPut "zone-1" "cf-token" "rec-2" (a_record_for "a.example.com" "2.2.2.2")] /\
  writes_accepted run.2 /\
  stored_ips_of run.1.2 !! "a.example.com" = Some "2.2.2.2".
Proof.
  cbv zeta. split; [|split; [|split]]; try (vm_compute; reflexivity).
  intros domain code. split; vm_compute; intros H;
    repeat (apply elem_of_cons in H as [H|H]; [discriminate H|]);
    apply elem_of_nil in H; exact H.
Qed.

Lemma missing_store_takes_create_branch_witness :
  let answer :=
    Scenario.services [["a.example.com"]] "1.1.1.1" Scenario.stale_provider in
  let fs := Scenario.lost_store "a.example.com" "1.1.1.1" in
  exists fs' before r evc after,
    main Scenario.cfg answer 5 (Some "true") fs []
    = (Ok 0%Z, fs',
       (before ++ [Print (LogNewDomain "a.example.com" "1.1.1.1")])
       ++ evc ++ after) /\
    create_cloudflare_a_record answer 5 "a.example.com" "1.1.1.1"
      Scenario.zone fs
      ([] ++ before ++ [Print (LogNewDomain "a.example.com" "1.1.1.1")])
    = (r, fs, evc) /\
    match r with
    | Ok _ =>
        writes_accepted evc ->
        stored_ips_of fs' !! "a.example.com" = Some "1.1.1.1"
    | Raise e =>
        stored_ips_of fs' !! "a.example.com" = None /\
        exists rest,
          after = Print (LogCreationError "a.example.com" e) :: rest
    end /\
    forall results,
      (2 <= 5)%nat ->
      provider_lists answer Scenario.zone "a.example.com" results ->
      updates_answered answer ->
      let lookup := CfList "zone-1" "cf-token" "A" "a.example.com" in
      let data :=
        {| rtype := "A"; name := "a.example.com"; content := "1.1.1.1";
           ttl := 3600%Z; proxied := true |} in
      requests_of evc
      = match results with
        | [] => [lookup; CfPost "zone-1" "cf-token" data]
        | _ :: _ =>
            lookup :: lookup ::
            ((fun record =>
                CfPut "zone-1" "cf-token" (fmt_id (rec_id record)) data)
             <$> filter (fun record => rec_content record ≠ Some "1.1.1.1")
                        results)
        end.
Proof.
  intros answer fs.
  eapply (missing_store_takes_create_branch Scenario.cfg answer 5
            (Some "true") fs [] ["a.example.com"] _ "1.1.1.1" _
            "a.example.com" Scenario.zone).
  - vm_compute. reflexivity.
  - vm_compute. reflexivity.
  - discriminate.
  - vm_compute. reflexivity.
  - do 3 right. vm_compute. reflexivity.
  - left. reflexivity.
  - left.
  - vm_compute. reflexivity.
Defined.

(** C10 as stated fails, in two ways.  With the record lost, the host name
    in the hosts file and the public IP the last known one, the run ends
    early: it never reads the record, attempts no create and leaves no
    entry.  And in a forced run against a provider whose lookups fail, the
    create raises: the run logs the error and leaves no entry either. *)
Lemma missing_store_counterexample :
  let fs := Scenario.lost_store "a.example.com" "1.1.1.1" in
  let calm :=
    Scenario.services [["a.example.com"]] "1.1.1.1" Scenario.empty_provider in
  let run1 := main Scenario.cfg calm 5 None fs [] in
  let broken :=
    Scenario.services [["a.example.com"]] "1.1.1.1" Scenario.broken_provider in
  let run2 := main Scenario.cfg broken 5 (Some "true") fs [] in
  domain_ips_file fs = None /\
  (fetch_current_domains Scenario.cfg calm fs []).1.1 = Ok ["a.example.com"] /\
  (get_cf_config_for_domain Scenario.cfg "a.example.com" fs []).1.1
    = Ok (Some Scenario.zone) /\
  (run1.1.1 = Ok 0%Z /\
   requests_of run1.2
     = [NpmToken "http://npm:81" "admin@example.com" "changeme";
        NpmProxyHosts "http://npm:81" "jwt"; IpifyGet] /\
   run1.1.2 = fs /\
   stored_ips_of run1.1.2 !! "a.example.com" = None) /\
  (run2.1.1 = Ok 0%Z /\
   Print (LogNewDomain "a.example.com" "1.1.1.1") ∈ run2.2 /\
   Print (LogCreationError "a.example.com" HTTPError) ∈ run2.2 /\
   domain_ips_file run2.1.2 = Some (Mapping ∅) /\
   stored_ips_of run2.1.2 !! "a.example.com" = None).
Proof.
  cbv zeta.
  split; [reflexivity|]. split; [vm_compute; reflexivity|].
  split; [vm_compute; reflexivity|]. split.
  - repeat split; vm_compute; reflexivity.
  - split; [vm_compute; reflexivity|].
    split; [vm_compute; repeat constructor|].
    split; [vm_compute; repeat constructor|].
    split; vm_compute; reflexivity.
Qed.

(** C8 as stated fails: the provider lists two records that both hold
    another IP.  When the first update gets no response, the request
    raises, outside any [try]; when it is answered with an error whose body
    is no JSON, reading the body raises, inside the handler.  Either way
    the call ends there and the second record is never visited. *)
Lemma update_failure_ends_the_visit_counterexample :
  let silent := Scenario.services [] "1.1.1.1" Scenario.unresponsive_provider in
  let run1 :=
    create_cloudflare_a_record silent 5 "a.example.com" "1.1.1.1"
      Scenario.zone Scenario.first_run [] in
  let gateway :=
    Scenario.services [] "1.1.1.1" Scenario.gateway_error_provider in
  let run2 :=
    create_cloudflare_a_record gateway 5 "a.example.com" "1.1.1.1"
      Scenario.zone Scenario.first_run [] in
  let lookup := CfList "zone-1" "cf-token" "A" "a.example.com" in
  let data :=
    {| rtype := "A"; name := "a.example.com"; content := "1.1.1.1";
       ttl := 3600%Z; proxied := true |} in
  (list_a_records silent "a.example.com" Scenario.zone Scenario.first_run []).1.1
    = Ok Scenario.two_stale_records /\
  (list_a_records gateway "a.example.com" Scenario.zone Scenario.first_run []).1.1
    = Ok Scenario.two_stale_records /\
  filter (fun record => rec_content record ≠ Some "1.1.1.1")
    Scenario.two_stale_records = Scenario.two_stale_records /\
  length Scenario.two_stale_records = 2%nat /\
  run1.1.1 = Raise ConnectionError /\
  requests_of run1.2 = [lookup; lookup; CfPut "zone-1" "cf-token" "rec-1" data] /\
  run2.1.1 = Raise JSONDecodeError /\
  requests_of run2.2 = [lookup; lookup; CfPut "zone-1" "cf-token" "rec-1" data].
Proof. cbv zeta. repeat split; vm_compute; reflexivity. Qed.

(** ** The previous set *)

Section Strip.
Import PyStr.

Lemma rstrip_idempotent s : rstrip (rstrip s) = rstrip s.
Proof.
  induction s as [|c s IH]; [reflexivity|].
  cbn [rstrip].
  destruct (is_space c && String.eqb (rstrip s) EmptyString) eqn:E;
    [reflexivity|].
  cbn [rstrip]. rewrite IH, E. reflexivity.
Qed.

Lemma lstrip_head s :
  lstrip s = EmptyString \/
  exists c t, lstrip s = String c t /\ is_space c = false.
Proof.
  induction s as [|c s IH]; [left; reflexivity|].
  cbn [lstrip]. destruct (is_space c) eqn:E; [exact IH|].
  right. eauto.
Qed.

Lemma strip_idempotent s : strip (strip s) = strip s.
Proof.
  unfold strip.
  destruct (lstrip_head s) as [->|(c & t & -> & Hc)]; [reflexivity|].
  assert (E : rstrip (String c t) = String c (rstrip t))
    by (cbn [rstrip]; rewrite Hc; reflexivity).
  rewrite E. cbn [lstrip]. rewrite Hc, <- E. apply rstrip_idempotent.
Qed.

End Strip.

(** X16: whatever the hosts file holds, the previous set the run reads
    from it is a set of usable names: no name twice, no empty name, no
    name with whitespace around it; a missing file gives the empty set. *)
Theorem previous_domains_are_clean (fs : files) :
  NoDup (previous_domains_of fs) /\
  (forall h, h ∈ previous_domains_of fs ->
     h ≠ EmptyString /\ PyStr.strip h = h) /\
  (hosts_filename fs = None -> previous_domains_of fs = []).
Proof.
  unfold previous_domains_of.
  destruct (hosts_filename fs) as [text|].
  - split; [apply NoDup_remove_dups|]. split; [|discriminate].
    intros h Hh.
    apply elem_of_remove_dups, list_elem_of_filter in Hh as [Hne Hh].
    split; [exact Hne|].
    apply list_elem_of_fmap in Hh as (line & -> & _).
    apply strip_idempotent.
  - split; [constructor|]. split; [|reflexivity].
    intros h Hh. apply elem_of_nil in Hh as [].
Qed.

(** ** More properties on example installations *)

Lemma dns_writes_carry_current_ip_witness :
  let answer :=
    Scenario.services [["a.example.com"; "b.example.com"]] "2.2.2.2"
      Scenario.stale_provider in
  let fs := Scenario.tracking "a.example.com" "1.1.1.1" "1.1.1.1" in
  exists fs' evs,
    main Scenario.cfg answer 5 None fs [] = (Ok 0%Z, fs', evs) /\
    forall zone token data,
      (Request (CfPost zone token data) ∈ evs \/
       exists record_id, Request (CfPut zone token record_id data) ∈ evs) ->
      exists d cf,
        d ∈ ["a.example.com"; "b.example.com"] /\
        find_root (CLOUDFLARE_CONFIG Scenario.cfg)
          (CLOUDFLARE_CONFIG Scenario.cfg).*1 d = Some cf /\
        zone = ZONE_ID cf /\ token = API_TOKEN cf /\
        data = {| rtype := "A"; name := d; content := "2.2.2.2";
                  ttl := 3600%Z; proxied := true |}.
Proof.
  intros answer fs.
  eapply (dns_writes_carry_current_ip Scenario.cfg answer 5 None fs []
            ["a.example.com"; "b.example.com"] _ "2.2.2.2" _).
  - vm_compute. reflexivity.
  - vm_compute. reflexivity.
  - discriminate.
Defined.

Lemma dns_requests_name_routable_hostnames_witness :
  let answer :=
    Scenario.services [["b.example.com"; "x.other.org"]] "2.2.2.2"
      Scenario.stale_provider in
  let fs := Scenario.tracking "a.example.com" "1.1.1.1" "1.1.1.1" in
  let current := ["b.example.com"; "x.other.org"] in
  exists fs' evs,
    main Scenario.cfg answer 5 None fs [] = (Ok 0%Z, fs', evs) /\
    (forall r n,
       Request r ∈ evs -> request_name r = Some n ->
       find_root (CLOUDFLARE_CONFIG Scenario.cfg)
         (CLOUDFLARE_CONFIG Scenario.cfg).*1 n ≠ None /\
       (n ∈ current \/ (n ∈ previous_domains_of fs /\ n ∉ current))) /\
    (forall zone token record_id,
       Request (CfDelete zone token record_id) ∈ evs ->
       exists d cf,
         d ∈ previous_domains_of fs /\ (d ∉ current) /\
         find_root (CLOUDFLARE_CONFIG Scenario.cfg)
           (CLOUDFLARE_CONFIG Scenario.cfg).*1 d = Some cf /\
         zone = ZONE_ID cf /\ token = API_TOKEN cf).
Proof.
  intros answer fs current.
  eapply (dns_requests_name_routable_hostnames Scenario.cfg answer 5 None fs
            [] current _ "2.2.2.2" _).
  - vm_compute. reflexivity.
  - vm_compute. reflexivity.
  - discriminate.
Defined.

Lemma settled_hostname_costs_no_request_witness :
  let answer :=
    Scenario.services [["a.example.com"; "b.example.com"]] "1.1.1.1"
      Scenario.stale_provider in
  let fs := Scenario.tracking "a.example.com" "1.1.1.1" "1.1.1.1" in
  exists fs' evs,
    main Scenario.cfg answer 5 None fs [] = (Ok 0%Z, fs', evs) /\
    forall r, Request r ∈ evs -> request_name r ≠ Some "a.example.com".
Proof.
  intros answer fs.
  eapply (settled_hostname_costs_no_request Scenario.cfg answer 5 None fs []
            ["a.example.com"; "b.example.com"] _ "1.1.1.1" _ "a.example.com").
  - vm_compute. reflexivity.
  - vm_compute. reflexivity.
  - discriminate.
  - left.
  - vm_compute previous_domains_of. left.
  - vm_compute. discriminate.
  - vm_compute. reflexivity.
  - vm_compute. reflexivity.
Defined.

Lemma stores_are_written_once_at_the_end_witness :
  let answer :=
    Scenario.services [["a.example.com"; "b.example.com"]] "2.2.2.2"
      Scenario.broken_provider in
  let fs := Scenario.tracking "a.example.com" "1.1.1.1" "1.1.1.1" in
  let current := ["a.example.com"; "b.example.com"] in
  exists m before hosts,
    main Scenario.cfg answer 5 None fs []
    = (Ok 0%Z,
       {| hosts_filename := Some (host_file_text hosts);
          domain_ips_file := Some (Mapping m);
          last_ip_file := Some "2.2.2.2" |},
       before ++ [WriteDomainIps m; WriteHosts (host_file_text hosts);
                  WriteLastIp "2.2.2.2"]) /\
    hosts ≡ₚ current /\
    NoDup hosts /\
    Forall (fun e => is_write e = false) before.
Proof.
  intros answer fs current.
  eapply (stores_are_written_once_at_the_end Scenario.cfg answer 5 None fs []
            current _ "2.2.2.2" _).
  - vm_compute. reflexivity.
  - vm_compute. reflexivity.
  - discriminate.
  - vm_compute. reflexivity.
  - left. vm_compute. discriminate.
Defined.

Lemma run_writes_iff_something_changed_witness :
  let answer :=
    Scenario.services [["a.example.com"]] "1.1.1.1" Scenario.stale_provider in
  let fs := Scenario.tracking "a.example.com" "1.1.1.1" "1.1.1.1" in
  exists fs' evs,
    main Scenario.cfg answer 5 (Some "no") fs [] = (Ok 0%Z, fs', evs) /\
    (Forall (fun e => is_write e = false) evs <->
     (forall d, d ∈ ["a.example.com"] <-> d ∈ previous_domains_of fs) /\
     last_known_ip_of fs = Some "1.1.1.1" /\
     force_update_of (Some "no") = false).
Proof.
  intros answer fs.
  eapply (run_writes_iff_something_changed Scenario.cfg answer 5 (Some "no")
            fs [] ["a.example.com"] _ "1.1.1.1" _).
  - vm_compute. reflexivity.
  - vm_compute. reflexivity.
  - discriminate.
  - vm_compute. reflexivity.
Defined.

Lemma aborted_run_makes_no_dns_call_witness :
  let answer :=
    Scenario.services [["a.example.com"]] "" Scenario.stale_provider in
  let fs := Scenario.tracking "gone.example.com" "1.1.1.1" "1.1.1.1" in
  public_ip_fails Scenario.cfg answer fs [] /\
  exists r evs,
    main Scenario.cfg answer 5 None fs [] = (r, fs, evs) /\
    r ≠ Ok 0%Z /\
    Forall (fun e => is_dns_call e = false) evs.
Proof.
  intros answer fs.
  assert (H : public_ip_fails Scenario.cfg answer fs []).
  { exists ["a.example.com"]. split; [vm_compute; reflexivity|].
    exists (Some ""). split; [vm_compute; reflexivity|]. right. reflexivity. }
  split; [exact H|].
  apply (aborted_run_makes_no_dns_call Scenario.cfg answer 5 None fs []).
  right. exact H.
Defined.

Lemma persisted_record_entries_witness :
  let answer :=
    Scenario.services [["a.example.com"; "x.other.org"]] "2.2.2.2"
      Scenario.stale_provider in
  let fs := Scenario.tracking "a.example.com" "1.1.1.1" "1.1.1.1" in
  let current := ["a.example.com"; "x.other.org"] in
  exists m evs,
    main Scenario.cfg answer 5 None fs []
    = (Ok 0%Z,
       {| hosts_filename := Some (host_file_text current);
          domain_ips_file := Some (Mapping m);
          last_ip_file := Some "2.2.2.2" |}, evs) /\
    (forall k v,
       m !! k = Some v ->
       stored_ips_of fs !! k = Some v \/
       (v = "2.2.2.2" /\ k ∈ current /\
        find_root (CLOUDFLARE_CONFIG Scenario.cfg)
          (CLOUDFLARE_CONFIG Scenario.cfg).*1 k ≠ None)) /\
    (forall k,
       find_root (CLOUDFLARE_CONFIG Scenario.cfg)
         (CLOUDFLARE_CONFIG Scenario.cfg).*1 k = None ->
       m !! k = stored_ips_of fs !! k) /\
    (forall k,
       k ∉ current -> k ∉ previous_domains_of fs ->
       m !! k = stored_ips_of fs !! k).
Proof.
  intros answer fs current.
  eapply (persisted_record_entries Scenario.cfg answer 5 None fs [] current
            _ "2.2.2.2" _).
  - vm_compute. reflexivity.
  - vm_compute. reflexivity.
  - discriminate.
  - left. vm_compute. discriminate.
Defined.

Lemma public_ip_change_is_logged_and_persisted_witness :
  let answer :=
    Scenario.services [["a.example.com"]] "2.2.2.2" Scenario.stale_provider in
  let fs := Scenario.tracking "a.example.com" "1.1.1.1" "1.1.1.1" in
  exists fs' evs,
    main Scenario.cfg answer 5 None fs [] = (Ok 0%Z, fs', evs) /\
    last_ip_file fs' = Some "2.2.2.2" /\
    Print (LogIpChange "1.1.1.1" "2.2.2.2") ∈ evs.
Proof.
  intros answer fs.
  eapply (public_ip_change_is_logged_and_persisted Scenario.cfg answer 5 None
            fs [] ["a.example.com"] _ "2.2.2.2" _).
  - vm_compute. reflexivity.
  - vm_compute. reflexivity.
  - discriminate.
  - vm_compute. reflexivity.
  - vm_compute. discriminate.
Defined.

Lemma due_hostname_is_attempted_witness :
  let answer :=
    Scenario.services [["a.example.com"; "b.example.com"]] "1.1.1.1"
      Scenario.broken_provider in
  let fs := Scenario.tracking "a.example.com" "1.1.1.1" "1.1.1.1" in
  exists fs' evs,
    main Scenario.cfg answer 5 None fs [] = (Ok 0%Z, fs', evs) /\
    Request (CfList "zone-1" "cf-token" "A" "b.example.com") ∈ evs.
Proof.
  intros answer fs.
  eapply (due_hostname_is_attempted Scenario.cfg answer 5 None fs []
            ["a.example.com"; "b.example.com"] _ "1.1.1.1" _
            "b.example.com" Scenario.zone).
  - vm_compute. reflexivity.
  - vm_compute. reflexivity.
  - discriminate.
  - vm_compute. reflexivity.
  - left. vm_compute. discriminate.
  - discriminate.
  - right. left.
  - vm_compute. reflexivity.
  - left. vm_compute previous_domains_of.
    intros H. apply list_elem_of_singleton in H. discriminate H.
Defined.

Lemma removed_hostname_is_attempted_witness :
  let answer := Scenario.services [] "1.1.1.1" Scenario.broken_provider in
  let fs := Scenario.tracking "old.example.com" "1.1.1.1" "1.1.1.1" in
  exists fs' evs,
    main Scenario.cfg answer 5 None fs [] = (Ok 0%Z, fs', evs) /\
    Print (LogDeleting "old.example.com") ∈ evs /\
    Request (CfList "zone-1" "cf-token" "A" "old.example.com") ∈ evs.
Proof.
  intros answer fs.
  eapply (removed_hostname_is_attempted Scenario.cfg answer 5 None fs [] []
            _ "1.1.1.1" _ "old.example.com" Scenario.zone).
  - vm_compute. reflexivity.
  - vm_compute. reflexivity.
  - discriminate.
  - vm_compute. reflexivity.
  - vm_compute previous_domains_of. left.
  - apply not_elem_of_nil.
  - vm_compute. reflexivity.
Defined.

Lemma update_host_file_round_trip_witness :
  let names := ["a.example.com"; "b.example.com"] in
  let fs' := (update_host_file names Scenario.first_run []).1.2 in
  previous_domains_of fs' = names /\
  domain_ips_file fs' = domain_ips_file Scenario.first_run /\
  last_ip_file fs' = last_ip_file Scenario.first_run.
Proof.
  intros names.
  apply (update_host_file_round_trip names Scenario.first_run []).
  - repeat constructor.
  - apply NoDup_cons. split; [|apply NoDup_singleton].
    intros H. apply list_elem_of_singleton in H. discriminate H.
Defined.

Lemma update_reconciles_or_creates_witness :
  let answer := Scenario.services [] "1.1.1.1" Scenario.empty_provider in
  let run :=
    update_cloudflare_a_record answer 2 "a.example.com" "1.1.1.1"
      Scenario.zone Scenario.first_run [] in
  let data :=
    {| rtype := "A"; name := "a.example.com"; content := "1.1.1.1";
       ttl := 3600%Z; proxied := true |} in
  Print (LogNoRecordToUpdate "a.example.com") ∈ run.2 /\
  requests_of run.2
  = [CfList "zone-1" "cf-token" "A" "a.example.com";
     CfList "zone-1" "cf-token" "A" "a.example.com";
     CfPost "zone-1" "cf-token" data].
Proof.
  intros answer run data.
  apply (update_reconciles_or_creates answer 0 "a.example.com" "1.1.1.1"
           Scenario.zone [] Scenario.first_run []).
  - intros past. eexists. split; [reflexivity|]. split; reflexivity.
  - intros past zone token record_id record. eexists.
    split; [reflexivity|]. left. reflexivity.
Defined.

Lemma delete_removes_every_listed_record_witness :
  let answer := Scenario.services [] "1.1.1.1" Scenario.stale_provider in
  exists evs,
    delete_cloudflare_a_record answer "a.example.com" Scenario.zone
      Scenario.first_run [] = (Ok tt, Scenario.first_run, evs) /\
    requests_of evs
    = CfList "zone-1" "cf-token" "A" "a.example.com" ::
      ((fun record => CfDelete "zone-1" "cf-token" (fmt_id (rec_id record)))
       <$> Scenario.two_records) /\
    (Scenario.two_records = [] -> Print (LogNoRecord "a.example.com") ∈ evs).
Proof.
  intros answer.
  apply (delete_removes_every_listed_record answer "a.example.com"
           Scenario.zone Scenario.two_records Scenario.first_run []).
  - intros past. eexists. split; [reflexivity|]. split; reflexivity.
  - intros past zone token record_id. eexists.
    split; [reflexivity|]. left. reflexivity.
Defined.
